(** * NewsStream: the content deduplication engine

    A shallow embedding of [core/deduplication_engine.py] (classes
    [ContentFingerprint] and [DeduplicationEngine]) together with the
    properties of the engine that its design document states, and with
    further properties of the code: what a call leaves unchanged, the
    verdicts it can return, the bookkeeping of hashes, fingerprints and
    URLs on both backends, statistics, cache clearing, server outages, and
    the contents of a fingerprint.

    Conventions of the embedding

    - A Python [str] is a list of Unicode code points ([pystr]); string
      literals of the source are written [py "..."].
    - A Python [float] is the rational value of an IEEE-754 double ([Q]):
      a decimal literal of the source denotes the nearest double
      ([float 0.4]), and every operation on floats rounds its exact result
      to the nearest double, ties to even ([round64]).  Infinities and NaN
      do not arise from the numbers the engine computes and are left out.
      Integers are [Z].
    - An expression that may raise returns a [result]; [try]/[except] is a
      match on it.  Methods of the engine live in a state-and-exception
      monad in which the state survives a raise, as mutation does in Python.
    - [datetime.now()] is a clock reading in seconds, passed to each call.
    - Library code outside the repository (NLTK, textstat, hashlib, difflib,
      the Unicode tables behind [str.lower]) and the order in which the
      Redis server lists its keys are parameters: the class [PyEnv].
      Concrete environments are given for running examples. *)

From Stdlib Require Import String Ascii.
From Stdlib Require Import List ZArith NArith QArith Qminmax Qabs Bool Lia Lqa.
From Stdlib Require Import Qround Qpower Qreduction.
From Stdlib Require Import Permutation Sorted.
Import ListNotations.

Set Implicit Arguments.

(* ================================================================== *)
(** * Python values *)
(* ================================================================== *)

Definition char := N.
Definition pystr := list char.

(** A source literal as a code-point list. *)
Definition py (s : string) : pystr := map N_of_ascii (list_ascii_of_string s).

Inductive exn : Type :=
| UnicodeEncodeError
| ZeroDivisionError
| LookupError
| ResponseError
| ConnectionError
| OverflowError
| RuntimeError.

Inductive result (A : Type) : Type :=
| Ok (a : A)
| Raise (e : exn).

Arguments Ok {A} a.
Arguments Raise {A} e.

Definition rbind {A B} (r : result A) (k : A -> result B) : result B :=
  match r with
  | Ok a => k a
  | Raise e => Raise e
  end.

(** [try: r except Exception: h] for a pure computation. *)
Definition try_except {A} (r : result A) (h : exn -> A) : A :=
  match r with
  | Ok a => a
  | Raise e => h e
  end.

Fixpoint rmap_list {A B} (f : A -> result B) (l : list A) : result (list B) :=
  match l with
  | [] => Ok []
  | a :: l' => rbind (f a) (fun b => rbind (rmap_list f l') (fun bs => Ok (b :: bs)))
  end.

(* ------------------------------------------------------------------ *)
(** ** Floats *)

(** The exponent of a positive rational [q]: [2 ^ e <= q < 2 ^ (e + 1)]. *)
Definition binade (q : Q) : Z :=
  let k := (Z.log2 (Qnum q) - Z.log2 (Zpos (Qden q)))%Z in
  if Qle_bool (2 ^ k) q then k else (k - 1)%Z.

(** The nearest integer; a tie goes to the even one. *)
Definition round_half_even (q : Q) : Z :=
  let f := Qfloor q in
  match Qcompare (q - inject_Z f) (1 # 2) with
  | Lt => f
  | Gt => (f + 1)%Z
  | Eq => if Z.even f then f else (f + 1)%Z
  end.

(** The double nearest to a positive rational: 53 significant bits, and
    below [2 ^ -1022] the fixed spacing [2 ^ -1074] of the subnormal
    numbers. *)
Definition round64_pos (q : Q) : Q :=
  let e := Z.max (binade q) (-1022) in
  let ulp := 2 ^ (e - 52) in
  inject_Z (round_half_even (q / ulp)) * ulp.

(** Rounding to the nearest double, ties to even: what every float
    operation of CPython does to its exact result.  The result is a
    fraction in lowest terms. *)
Definition round64 (q : Q) : Q :=
  match Qnum q with
  | Z0 => 0
  | Zpos _ => Qred (round64_pos (Qred q))
  | Zneg _ => Qred (- round64_pos (Qred (- q)))
  end.

Arguments round64 : simpl never.

(** The float that a decimal literal of the source denotes. *)
Definition float (q : Q) : Q := round64 q.

Arguments float : simpl never.

(** [float(z)]: an integer operand of a float operation. *)
Definition float_of_int (z : Z) : Q := round64 (inject_Z z).

(** [a + b], [a - b] and [a * b] on floats. *)
Definition fadd (a b : Q) : Q := round64 (a + b).
Definition fsub (a b : Q) : Q := round64 (a - b).
Definition fmul (a b : Q) : Q := round64 (a * b).

(** [a / b] on integers, for a divisor that is not zero: the quotient,
    rounded once. *)
Definition int_truediv (a b : Z) : Q := round64 (inject_Z a / inject_Z b).

(** Values held by the [content_structure] dictionary. *)
Inductive pyval : Type :=
| PInt (z : Z)
| PFloat (q : Q)
| PBool (b : bool).

(** Numeric reading of a value in comparisons ([bool] is a subclass of
    [int]; an integer and a float are compared exactly). *)
Definition num_of (v : pyval) : Q :=
  match v with
  | PInt z => inject_Z z
  | PFloat q => q
  | PBool true => 1
  | PBool false => 0
  end.

Definition is_float (v : pyval) : bool :=
  match v with
  | PFloat _ => true
  | _ => false
  end.

Definition int_of (v : pyval) : Z :=
  match v with
  | PInt z => z
  | PBool true => 1%Z
  | _ => 0%Z
  end.

(** The operand of a float operation: an integer is converted to the
    nearest double; a float is one already, and rounding leaves it as it
    is. *)
Definition float_of (v : pyval) : Q := round64 (num_of v).

(** [a - b]: exact on integers, a float operation as soon as one operand
    is a float. *)
Definition py_sub (a b : pyval) : pyval :=
  if is_float a || is_float b then PFloat (fsub (float_of a) (float_of b))
  else PInt (int_of a - int_of b).

(** [abs(a)]. *)
Definition py_abs (a : pyval) : pyval :=
  match a with
  | PFloat q => PFloat (Qabs q)
  | _ => PInt (Z.abs (int_of a))
  end.

(** True division [a / b]. *)
Definition py_div (a b : pyval) : result Q :=
  if Qeq_bool (num_of b) 0 then Raise ZeroDivisionError
  else if is_float a || is_float b then Ok (round64 (float_of a / float_of b))
  else Ok (int_truediv (int_of a) (int_of b)).

(* ================================================================== *)
(** * Built-in [str] and [list] operations *)
(* ================================================================== *)

Fixpoint str_eqb (s t : pystr) : bool :=
  match s, t with
  | [], [] => true
  | c :: s', d :: t' => N.eqb c d && str_eqb s' t'
  | _, _ => false
  end.

Definition str_eq_dec : forall s t : pystr, {s = t} + {s <> t} :=
  list_eq_dec N.eq_dec.

(** [x in l] for a list or set of strings. *)
Definition str_mem (x : pystr) (l : list pystr) : bool := existsb (str_eqb x) l.

(** [str.isspace] on one code point: the characters [str.split()] and
    [str.strip()] treat as whitespace. *)
Definition isspace (c : char) : bool :=
  ((9 <=? c) && (c <=? 13) || (28 <=? c) && (c <=? 32) || (c =? 133) || (c =? 160)
   || (c =? 5760) || (8192 <=? c) && (c <=? 8202) || (c =? 8232) || (c =? 8233)
   || (c =? 8239) || (c =? 8287) || (c =? 12288))%N.

(** [s.split()]: the maximal runs of non-whitespace. *)
Fixpoint split_ws (cur : pystr) (s : pystr) : list pystr :=
  match s with
  | [] => match cur with [] => [] | _ => [rev cur] end
  | c :: s' =>
      if isspace c
      then match cur with
           | [] => split_ws [] s'
           | _ => rev cur :: split_ws [] s'
           end
      else split_ws (c :: cur) s'
  end.

Definition str_split (s : pystr) : list pystr := split_ws [] s.

(** [sep.join(parts)]. *)
Fixpoint str_join (sep : pystr) (parts : list pystr) : pystr :=
  match parts with
  | [] => []
  | [p] => p
  | p :: rest => p ++ sep ++ str_join sep rest
  end.

(** [s.startswith(p)]. *)
Fixpoint startswith (p s : pystr) : bool :=
  match p, s with
  | [], _ => true
  | c :: p', d :: s' => N.eqb c d && startswith p' s'
  | _ :: _, [] => false
  end.

(** [sub in s]. *)
Fixpoint str_contains (sub s : pystr) : bool :=
  startswith sub s ||
  match s with
  | [] => false
  | _ :: s' => str_contains sub s'
  end.

(** [s.replace(old, new)] for a non-empty [old]: leftmost, non-overlapping
    occurrences.  [skip] counts the characters of a matched occurrence that
    are still to be dropped. *)
Fixpoint replace_from (old new : pystr) (skip : nat) (s : pystr) : pystr :=
  match s with
  | [] => []
  | c :: s' =>
      match skip with
      | S k => replace_from old new k s'
      | O =>
          if startswith old s
          then new ++ replace_from old new (length old - 1) s'
          else c :: replace_from old new 0 s'
      end
  end.

Definition str_replace (old new s : pystr) : pystr :=
  match old with
  | [] => new ++ flat_map (fun c => c :: new) s
  | _ => replace_from old new 0 s
  end.

Fixpoint lstrip (s : pystr) : pystr :=
  match s with
  | [] => []
  | c :: s' => if isspace c then lstrip s' else s
  end.

(** [s.strip()]. *)
Definition str_strip (s : pystr) : pystr := rev (lstrip (rev (lstrip s))).

(** [s.split(sep)] for a non-empty [sep]: every piece between occurrences,
    empty pieces included. *)
Fixpoint split_sep_from (sep : pystr) (skip : nat) (cur : pystr) (s : pystr)
  : list pystr :=
  match s with
  | [] => [rev cur]
  | c :: s' =>
      match skip with
      | S k => split_sep_from sep k cur s'
      | O =>
          if startswith sep s
          then rev cur :: split_sep_from sep (length sep - 1) [] s'
          else split_sep_from sep 0 (c :: cur) s'
      end
  end.

Definition str_split_sep (sep s : pystr) : list pystr := split_sep_from sep 0 [] s.

(** [s.count(c)] for a one-character string. *)
Definition str_count_char (c : char) (s : pystr) : Z :=
  Z.of_nat (length (filter (N.eqb c) s)).

(** [len(x)] as a Python integer. *)
Definition len {A} (l : list A) : Z := Z.of_nat (length l).

(** [s.encode('utf-8')]: lone surrogates cannot be encoded. *)
Definition utf8_char (c : char) : result (list N) :=
  (if c <? 128 then Ok [c]
   else if c <? 2048 then Ok [192 + c / 64; 128 + c mod 64]
   else if (55296 <=? c) && (c <=? 57343) then Raise UnicodeEncodeError
   else if c <? 65536 then Ok [224 + c / 4096; 128 + (c / 64) mod 64; 128 + c mod 64]
   else Ok [240 + c / 262144; 128 + (c / 4096) mod 64; 128 + (c / 64) mod 64;
            128 + c mod 64])%N.

Definition encode_utf8 (s : pystr) : result (list N) :=
  rbind (rmap_list utf8_char s) (fun bs => Ok (concat bs)).

(** The strings that [encode_utf8] accepts. *)
Definition encodable (s : pystr) : bool :=
  match encode_utf8 s with
  | Ok _ => true
  | Raise _ => false
  end.

Arguments encodable : simpl never.

(* ================================================================== *)
(** * The environment: library code outside the repository *)
(* ================================================================== *)

Class PyEnv : Type := {
  (** [str.lower], [str.isalpha], [str.isdigit] (Unicode tables) *)
  str_lower : pystr -> pystr;
  str_isalpha : pystr -> bool;
  char_isdigit : char -> bool;
  (** [nltk.tokenize] *)
  word_tokenize : pystr -> result (list pystr);
  sent_tokenize : pystr -> result (list pystr);
  (** [PorterStemmer().stem] *)
  stem : pystr -> result pystr;
  (** [self.stopwords], fixed by the constructor *)
  stopwords : list pystr;
  (** [textstat.flesch_reading_ease] *)
  flesch_reading_ease : pystr -> result Q;
  (** [hashlib.sha256(b).hexdigest()], [hashlib.md5(b).hexdigest()] *)
  sha256_hex : list N -> pystr;
  md5_hex : list N -> pystr;
  (** [SequenceMatcher(None, a, b).ratio()] *)
  sequence_ratio : pystr -> pystr -> Q;
  (** the order in which the Redis server walks its keys for [KEYS]: some
      rearrangement of what it holds, not specified further *)
  keyspace_order : forall {V : Type}, list (pystr * V) -> list (pystr * V);
  keyspace_order_perm : forall (V : Type) (held : list (pystr * V)),
    Permutation (keyspace_order held) held
}.

(* ================================================================== *)
(** * ContentFingerprint *)
(* ================================================================== *)

Section ContentFingerprint.

Context {E : PyEnv}.

(** [_normalize_content].  The two quote replacements of the source map the
    ASCII double quote to itself; the third statement, as the file is
    written, holds a single triple-quoted literal and replaces the text
    [, "'").replace(] by an apostrophe. *)
Definition _normalize_content (content : pystr) : pystr :=
  let content := str_join (py " ") (str_split (str_lower content)) in
  let content := str_replace [9%N] (py " ") (str_replace [10%N] (py " ") content) in
  let content := str_replace [34%N] [34%N] (str_replace [34%N] [34%N] content) in
  let content := str_replace ([44; 32; 34; 39; 34; 41] ++ py ".replace(")%N [39%N] content in
  str_strip content.

(** [create_content_hash]. *)
Definition create_content_hash (content : pystr) : result pystr :=
  let normalized := _normalize_content content in
  rbind (encode_utf8 normalized) (fun b => Ok (sha256_hex b)).

(** [sorted(l, key=key, reverse=True)]: stable, largest key first. *)
Fixpoint insert_desc {A K} (ltb : K -> K -> bool) (key : A -> K) (x : A) (l : list A)
  : list A :=
  match l with
  | [] => [x]
  | y :: l' => if ltb (key x) (key y) then y :: insert_desc ltb key x l' else x :: l
  end.

Definition sorted_desc {A K} (ltb : K -> K -> bool) (key : A -> K) (l : list A) : list A :=
  fold_right (insert_desc ltb key) [] l.

Definition Qltb (a b : Q) : bool := negb (Qle_bool b a).

(** [word_freq[word] = word_freq.get(word, 0) + 1] on an insertion-ordered
    dictionary. *)
Fixpoint count_word (word : pystr) (word_freq : list (pystr * Z)) : list (pystr * Z) :=
  match word_freq with
  | [] => [(word, 1%Z)]
  | (w, n) :: rest =>
      if str_eqb w word then (w, (n + 1)%Z) :: rest else (w, n) :: count_word word rest
  end.

(** [_extract_key_words]. *)
Definition _extract_key_words (content : pystr) : list pystr :=
  try_except
    (rbind (word_tokenize (str_lower content)) (fun words =>
     rbind (rmap_list stem
              (filter (fun word => str_isalpha word && (3 <? length word)%nat
                                   && negb (str_mem word stopwords)) words))
           (fun key_words =>
     let word_freq := fold_left (fun d word => count_word word d) key_words [] in
     let sorted_words := sorted_desc Z.ltb snd word_freq in
     Ok (map fst (firstn 20 sorted_words)))))
    (fun _ => firstn 20 (str_split (str_lower content))).

(** The loop of [_extract_key_sentences]: [i] is the index of the first
    sentence of [sentences]. *)
Fixpoint score_sentences (i : Z) (sentences : list pystr) : list (pystr * Q) :=
  match sentences with
  | [] => []
  | sentence :: rest =>
      let words := len (str_split sentence) in
      let position_score := round64 (1 / float_of_int (i + 1)) in
      let length_score := Qmin (round64 (float_of_int words / 20)) 1 in
      let total_score := fadd position_score length_score in
      (str_strip sentence, total_score) :: score_sentences (i + 1) rest
  end.

(** [_extract_key_sentences]. *)
Definition _extract_key_sentences (content : pystr) : list pystr :=
  try_except
    (rbind (sent_tokenize content) (fun sentences =>
     let scored_sentences := score_sentences 0 sentences in
     Ok (map fst (firstn 5 (sorted_desc Qltb snd scored_sentences)))))
    (fun _ => firstn 5 (str_split_sep (py ".") content)).

Definition dict := list (pystr * pyval).

(** [d.get(key, default)]. *)
Fixpoint dict_get (key : pystr) (d : dict) (default : pyval) : pyval :=
  match d with
  | [] => default
  | (k, v) :: d' => if str_eqb k key then v else dict_get key d' default
  end.

Definition sum_word_counts (parts : list pystr) : Z :=
  fold_right Z.add 0%Z (map (fun p => len (str_split p)) parts).

(** [sum(len(p.split()) for p in parts) / len(parts) if parts else 0]. *)
Definition avg_length (parts : list pystr) : pyval :=
  match parts with
  | [] => PInt 0
  | _ => PFloat (int_truediv (sum_word_counts parts) (len parts))
  end.

(** [_analyze_structure]. *)
Definition _analyze_structure (content : pystr) : dict :=
  try_except
    (let paragraphs := str_split_sep [10; 10]%N content in
     rbind (sent_tokenize content) (fun sentences =>
     let words := str_split content in
     Ok [ (py "paragraph_count", PInt (len paragraphs));
          (py "avg_paragraph_length", avg_length paragraphs);
          (py "sentence_count", PInt (len sentences));
          (py "avg_sentence_length", avg_length sentences);
          (py "word_count", PInt (len words));
          (py "has_quotes", PBool (str_contains [34%N] content || str_contains [39%N] content));
          (py "has_numbers", PBool (existsb char_isdigit content));
          (py "has_links", PBool (str_contains (py "http") (str_lower content)
                                  || str_contains (py "www") (str_lower content))) ]))
    (fun _ => [ (py "word_count", PInt (len (str_split content))) ]).

Definition tech_indicators : list pystr :=
  map py
    [ "ai"; "artificial intelligence"; "machine learning"; "deep learning";
      "neural network"; "automation"; "robot"; "blockchain"; "cryptocurrency";
      "bitcoin"; "ethereum"; "cloud computing"; "aws"; "azure"; "google cloud";
      "cybersecurity"; "hacker"; "data breach"; "privacy"; "gdpr";
      "startup"; "funding"; "venture capital"; "ipo"; "acquisition";
      "software"; "app"; "mobile"; "web"; "internet"; "tech"; "technology";
      "innovation"; "digital"; "platform"; "api"; "database"; "server" ]%string.

(** [_extract_topic_indicators]. *)
Definition _extract_topic_indicators (content : pystr) : list pystr :=
  let content_lower := str_lower content in
  let found_indicators :=
    filter (fun indicator => str_contains indicator content_lower) tech_indicators in
  firstn 10 found_indicators.

(** The fingerprint dictionary: both constructors below fill the same seven
    keys, so it is a record. *)
Record Fingerprint : Type := {
  key_words : list pystr;
  key_sentences : list pystr;
  word_count : Z;
  sentence_count : Z;
  reading_ease : Q;
  content_structure : dict;
  topic_indicators : list pystr
}.

(** [_create_basic_fingerprint]. *)
Definition _create_basic_fingerprint (content : pystr) : Fingerprint :=
  let words := str_split content in
  {| key_words := firstn 20 words;
     key_sentences := firstn 3 (str_split_sep (py ".") content);
     word_count := len words;
     sentence_count := (str_count_char 46%N content + str_count_char 33%N content
                        + str_count_char 63%N content)%Z;
     reading_ease := 50;
     content_structure := [ (py "word_count", PInt (len words)) ];
     topic_indicators := [] |}.

(** The body of the [try] block of [create_semantic_fingerprint]; the
    entries of the dictionary display are evaluated in order. *)
Definition semantic_fingerprint_body (content : pystr) : result Fingerprint :=
  let words := _extract_key_words content in
  let sentences := _extract_key_sentences content in
  let word_count := len (str_split content) in
  rbind (sent_tokenize content) (fun toks =>
  rbind (match str_strip content with
         | [] => Ok 0
         | _ => flesch_reading_ease content
         end) (fun ease =>
  Ok {| key_words := words;
        key_sentences := sentences;
        word_count := word_count;
        sentence_count := len toks;
        reading_ease := ease;
        content_structure := _analyze_structure content;
        topic_indicators := _extract_topic_indicators content |})).

(** [create_semantic_fingerprint]. *)
Definition create_semantic_fingerprint (content : pystr) : Fingerprint :=
  try_except (semantic_fingerprint_body content)
             (fun _ => _create_basic_fingerprint content).

End ContentFingerprint.

(* ================================================================== *)
(** * DeduplicationEngine: state *)
(* ================================================================== *)

(** [dedup_config]: the four options the engine reads. *)
Record Config : Type := {
  similarity_threshold : Q;
  time_window_hours : Z;
  content_hash_enabled : bool;
  semantic_analysis : bool
}.

(** The defaults of [__init__] for options absent from the configuration. *)
Definition default_config : Config :=
  {| similarity_threshold := float 0.8;
     time_window_hours := 24;
     content_hash_enabled := true;
     semantic_analysis := true |}.

(** What the engine stores under a Redis key: a content id, the JSON text of
    a fingerprint ([json.dumps] and [json.loads] are inverse on it), or an
    ISO timestamp. *)
Inductive redis_value : Type :=
| RStr (s : pystr)
| RJson (fp : Fingerprint)
| RTime (t : Z).

(** The Redis server behind [redis_client]: every key carries the instant at
    which it expires.  [faults] schedules connection failures: the [n]-th
    command sent to the server fails when [faults n] is [true]; [issued]
    counts the commands sent so far. *)
Record Redis : Type := {
  entries : list (pystr * (redis_value * Z));
  faults : nat -> bool;
  issued : nat
}.

Record Engine : Type := {
  config : Config;
  redis_client : option Redis;
  content_hashes : list pystr;
  content_fingerprints : list (pystr * Fingerprint);
  processed_items : list (pystr * Z)
}.

Definition set_redis (r : option Redis) (eng : Engine) : Engine :=
  {| config := config eng; redis_client := r;
     content_hashes := content_hashes eng;
     content_fingerprints := content_fingerprints eng;
     processed_items := processed_items eng |}.

Definition set_content_hashes (h : list pystr) (eng : Engine) : Engine :=
  {| config := config eng; redis_client := redis_client eng;
     content_hashes := h;
     content_fingerprints := content_fingerprints eng;
     processed_items := processed_items eng |}.

Definition set_content_fingerprints (f : list (pystr * Fingerprint)) (eng : Engine)
  : Engine :=
  {| config := config eng; redis_client := redis_client eng;
     content_hashes := content_hashes eng;
     content_fingerprints := f;
     processed_items := processed_items eng |}.

Definition set_processed_items (p : list (pystr * Z)) (eng : Engine) : Engine :=
  {| config := config eng; redis_client := redis_client eng;
     content_hashes := content_hashes eng;
     content_fingerprints := content_fingerprints eng;
     processed_items := p |}.

(** [d[key] = value] on an insertion-ordered dictionary. *)
Fixpoint dict_set {V} (key : pystr) (value : V) (d : list (pystr * V)) : list (pystr * V) :=
  match d with
  | [] => [(key, value)]
  | (k, v) :: d' =>
      if str_eqb k key then (k, value) :: d' else (k, v) :: dict_set key value d'
  end.

(** [s.add(x)]. *)
Definition set_add (x : pystr) (s : list pystr) : list pystr :=
  if str_mem x s then s else s ++ [x].

(* ------------------------------------------------------------------ *)
(** ** Redis commands *)

Definition take_fault (r : Redis) : bool * Redis :=
  (faults r (issued r),
   {| entries := entries r; faults := faults r; issued := S (issued r) |}).

Definition redis_command {A} (f : Redis -> result A * Redis) (r : Redis)
  : result A * Redis :=
  let (bad, r') := take_fault r in
  if bad then (Raise ConnectionError, r') else f r'.

Definition live (now : Z) (e : pystr * (redis_value * Z)) : bool :=
  (now <? snd (snd e))%Z.

(** [EXISTS key]. *)
Definition redis_exists (now : Z) (key : pystr) : Redis -> result bool * Redis :=
  redis_command (fun r =>
    (Ok (existsb (fun e => str_eqb (fst e) key && live now e) (entries r)), r)).

(** What the client can put on the wire as a value: a string is encoded
    as UTF-8; the JSON text of a fingerprint ([json.dumps] escapes every
    character outside ASCII) and an ISO timestamp are ASCII. *)
Definition sendable (value : redis_value) : bool :=
  match value with
  | RStr s => encodable s
  | RJson _ | RTime _ => true
  end.

(** The expiries the server takes at clock reading [now]: positive, and with
    an instant of expiry that, in milliseconds, fits a signed 64-bit
    integer. *)
Definition expiry_accepted (now seconds : Z) : bool :=
  ((0 <? seconds) && (seconds * 1000 <=? 9223372036854775807)
   && ((now + seconds) * 1000 <=? 9223372036854775807))%Z.

Arguments expiry_accepted : simpl never.

(** [SETEX key seconds value]: the client raises, before anything is sent,
    when it cannot encode the key or the value; the server rejects an
    expiry it does not take. *)
Definition redis_setex (now : Z) (key : pystr) (seconds : Z) (value : redis_value)
  : Redis -> result unit * Redis :=
  fun r =>
    if encodable key && sendable value
    then redis_command (fun r =>
           if expiry_accepted now seconds
           then (Ok tt,
                 {| entries := filter (fun e => negb (str_eqb (fst e) key)) (entries r)
                               ++ [(key, (value, (now + seconds)%Z))];
                    faults := faults r; issued := issued r |})
           else (Raise ResponseError, r)) r
    else (Raise UnicodeEncodeError, r).

(** [KEYS prefix*]: the live keys under the prefix, in the order in which
    the server walks what it holds. *)
Definition redis_keys {E : PyEnv} (now : Z) (prefix : pystr)
  : Redis -> result (list pystr) * Redis :=
  redis_command (fun r =>
    (Ok (map fst (filter (fun e => startswith prefix (fst e) && live now e)
                    (keyspace_order (entries r)))),
     r)).

(** [GET key]. *)
Definition redis_get (now : Z) (key : pystr) : Redis -> result (option redis_value) * Redis :=
  redis_command (fun r =>
    (Ok (option_map (fun e => fst (snd e))
           (find (fun e => str_eqb (fst e) key && live now e) (entries r))),
     r)).

(** [PING]. *)
Definition redis_ping : Redis -> result unit * Redis :=
  redis_command (fun r => (Ok tt, r)).

(* ------------------------------------------------------------------ *)
(** ** The monad of engine methods *)

Definition M (A : Type) : Type := Engine -> result A * Engine.

Definition ret {A} (a : A) : M A := fun eng => (Ok a, eng).

Definition bind {A B} (m : M A) (k : A -> M B) : M B :=
  fun eng =>
    match m eng with
    | (Ok a, eng') => k a eng'
    | (Raise e, eng') => (Raise e, eng')
    end.

Definition lift {A} (r : result A) : M A := fun eng => (r, eng).

Definition get : M Engine := fun eng => (Ok eng, eng).

Definition modify (f : Engine -> Engine) : M unit := fun eng => (Ok tt, f eng).

(** [try: m except Exception as e: h e]. *)
Definition try_ {A} (m : M A) (h : exn -> M A) : M A :=
  fun eng =>
    match m eng with
    | (Ok a, eng') => (Ok a, eng')
    | (Raise e, eng') => h e eng'
    end.

(** A command sent through [self.redis_client]. *)
Definition redis {A} (cmd : Redis -> result A * Redis) : M A :=
  fun eng =>
    match redis_client eng with
    | Some r => let (a, r') := cmd r in (a, set_redis (Some r') eng)
    | None => (Raise RuntimeError, eng)
    end.

Declare Scope engine_scope.
Delimit Scope engine_scope with engine.

Notation "x <- m ;; k" := (bind m (fun x => k))
  (at level 61, m at next level, right associativity) : engine_scope.
Notation "m ;; k" := (bind m (fun _ => k))
  (at level 61, right associativity) : engine_scope.

(** Engine methods that leave the configuration alone. *)
Definition keeps_config {A} (m : M A) : Prop :=
  forall eng, config (snd (m eng)) = config eng.

(** Engine methods that never raise. *)
Definition total {A} (m : M A) : Prop :=
  forall eng, exists a eng', m eng = (Ok a, eng').

(** Nothing is stored, in memory or on the server. *)
Definition empty_store (eng : Engine) : Prop :=
  content_hashes eng = [] /\ content_fingerprints eng = [] /\ processed_items eng = []
  /\ match redis_client eng with
     | Some r => entries r = []
     | None => True
     end.

(** No command sent to the server fails. *)
Definition fault_free (eng : Engine) : Prop :=
  match redis_client eng with
  | Some r => forall n, faults r n = false
  | None => True
  end.

(** The clock reading [later] is within the configured window after
    [earlier]. *)
Definition within_window (eng : Engine) (earlier later : Z) : Prop :=
  (earlier <= later < earlier + time_window_hours (config eng) * 3600)%Z.

(** [DeduplicationEngine.__init__] with [_init_redis]: the connection is kept
    only when the test [ping] succeeds. *)
Definition new_engine (cfg : Config) (server : option Redis) : Engine :=
  let client :=
    match server with
    | Some r => match redis_ping r with
                | (Ok _, r') => Some r'
                | (Raise _, _) => None
                end
    | None => None
    end in
  {| config := cfg; redis_client := client;
     content_hashes := []; content_fingerprints := []; processed_items := [] |}.

(* ================================================================== *)
(** * DeduplicationEngine: similarity *)
(* ================================================================== *)

Definition verdict : Type := bool * pystr * Q.

(** [max(a, b)] on numbers: the first argument wins a tie. *)
Definition py_max (a b : Q) : Q := if Qltb a b then b else a.

Definition py_max_val (a b : pyval) : pyval := if Qltb (num_of a) (num_of b) then b else a.

(** [set(l)]. *)
Definition to_set (l : list pystr) : list pystr := nodup str_eq_dec l.

(** [set1 & set2] and [set1 | set2]. *)
Definition set_inter (s1 s2 : list pystr) : list pystr :=
  filter (fun x => str_mem x s2) s1.

Definition set_union (s1 s2 : list pystr) : list pystr := nodup str_eq_dec (s1 ++ s2).

Section Similarity.

Context {E : PyEnv}.

(** [_calculate_word_similarity]. *)
Definition _calculate_word_similarity (words1 words2 : list pystr) : Q :=
  match words1, words2 with
  | [], _ | _, [] => 0
  | _, _ =>
      let set1 := to_set words1 in
      let set2 := to_set words2 in
      let intersection := len (set_inter set1 set2) in
      let union := len (set_union set1 set2) in
      if (0 <? union)%Z then int_truediv intersection union else 0
  end.

(** [_calculate_sentence_similarity]. *)
Definition _calculate_sentence_similarity (sentences1 sentences2 : list pystr) : Q :=
  match sentences1, sentences2 with
  | [], _ | _, [] => 0
  | _, _ =>
      fold_left
        (fun max_similarity s1 =>
           fold_left
             (fun max_similarity s2 =>
                let similarity := sequence_ratio (str_lower s1) (str_lower s2) in
                py_max max_similarity similarity)
             sentences2 max_similarity)
        sentences1 0
  end.

(** The ratios that the two nested loops of [_calculate_sentence_similarity]
    visit, in the order of the visit. *)
Definition pair_ratios (sentences1 sentences2 : list pystr) : list Q :=
  flat_map
    (fun s1 => map (fun s2 => sequence_ratio (str_lower s1) (str_lower s2)) sentences2)
    sentences1.

(** [_calculate_topic_similarity]. *)
Definition _calculate_topic_similarity (topics1 topics2 : list pystr) : Q :=
  match topics1, topics2 with
  | [], _ | _, [] => 0
  | _, _ =>
      let set1 := to_set topics1 in
      let set2 := to_set topics2 in
      let intersection := len (set_inter set1 set2) in
      let union := len (set_union set1 set2) in
      if (0 <? union)%Z then int_truediv intersection union else 0
  end.

(** [_calculate_structure_similarity]. *)
Definition _calculate_structure_similarity (struct1 struct2 : dict) : result Q :=
  match struct1, struct2 with
  | [], _ | _, [] => Ok 0
  | _, _ =>
      let word_count_diff :=
        py_abs (py_sub (dict_get (py "word_count") struct1 (PInt 0))
                       (dict_get (py "word_count") struct2 (PInt 0))) in
      let max_words :=
        py_max_val (dict_get (py "word_count") struct1 (PInt 1))
                   (dict_get (py "word_count") struct2 (PInt 1)) in
      rbind (py_div word_count_diff max_words) (fun q => Ok (fsub 1 q))
  end.

(** The body of the [try] block of [_calculate_similarity]. *)
Definition calculate_similarity_body (fp1 fp2 : Fingerprint) : result Q :=
  let word_sim := _calculate_word_similarity (key_words fp1) (key_words fp2) in
  let sentence_sim :=
    _calculate_sentence_similarity (key_sentences fp1) (key_sentences fp2) in
  let topic_sim :=
    _calculate_topic_similarity (topic_indicators fp1) (topic_indicators fp2) in
  rbind (_calculate_structure_similarity (content_structure fp1) (content_structure fp2))
        (fun structure_sim =>
  let total_similarity :=
    fadd (fadd (fadd (fmul word_sim (float 0.4)) (fmul sentence_sim (float 0.3)))
               (fmul topic_sim (float 0.2)))
         (fmul structure_sim (float 0.1)) in
  Ok total_similarity).

(** [_calculate_similarity]. *)
Definition _calculate_similarity (fp1 fp2 : Fingerprint) : Q :=
  try_except (calculate_similarity_body fp1 fp2) (fun _ => 0).

(** The [for] loop of [_check_semantic_similarity] over the items of
    [stored_fingerprints], from the state [(max_similarity, most_similar_id)]. *)
Fixpoint scan_stored (threshold : Q) (fingerprint : Fingerprint)
    (items : list (pystr * Fingerprint)) (max_similarity : Q) (most_similar_id : pystr)
  : verdict :=
  match items with
  | [] => (false, py "semantically_unique", max_similarity)
  | (stored_id, stored_fingerprint) :: rest =>
      let similarity := _calculate_similarity fingerprint stored_fingerprint in
      if Qltb max_similarity similarity
      then if Qle_bool threshold similarity
           then (true, py "semantic_similar_to_" ++ stored_id, similarity)
           else scan_stored threshold fingerprint rest similarity stored_id
      else scan_stored threshold fingerprint rest max_similarity most_similar_id
  end.

End Similarity.

(* ================================================================== *)
(** * DeduplicationEngine: the duplicate check *)
(* ================================================================== *)

Section Engine.

Context {E : PyEnv}.

Local Open Scope engine_scope.

(** [key.split(':', 1)[1]]. *)
Fixpoint after_colon (key : pystr) : result pystr :=
  match key with
  | [] => Raise RuntimeError
  | c :: rest => if (c =? 58)%N then Ok rest else after_colon rest
  end.

(** [json.loads(data)]. *)
Definition json_loads (data : redis_value) : result Fingerprint :=
  match data with
  | RJson fp => Ok fp
  | _ => Raise RuntimeError
  end.

(** [if data:]. *)
Definition truthy (data : option redis_value) : bool :=
  match data with
  | None | Some (RStr []) => false
  | Some _ => true
  end.

(** [_is_hash_duplicate]. *)
Definition _is_hash_duplicate (now : Z) (content_hash : pystr) : M bool :=
  try_
    (eng <- get ;;
     match redis_client eng with
     | Some _ => redis (redis_exists now (py "hash:" ++ content_hash))
     | None => ret (str_mem content_hash (content_hashes eng))
     end)
    (fun _ => ret false).

(** [_store_content_hash]. *)
Definition _store_content_hash (now : Z) (content_hash content_id : pystr) : M unit :=
  try_
    (eng <- get ;;
     let expire_seconds := (time_window_hours (config eng) * 3600)%Z in
     match redis_client eng with
     | Some _ =>
         redis (redis_setex now (py "hash:" ++ content_hash) expire_seconds (RStr content_id))
     | None => modify (set_content_hashes (set_add content_hash (content_hashes eng)))
     end)
    (fun _ => ret tt).

(** The loop of [_get_stored_fingerprints] over the keys Redis returned. *)
Fixpoint load_fingerprints (now : Z) (keys : list pystr)
    (fingerprints : list (pystr * Fingerprint)) : M (list (pystr * Fingerprint)) :=
  match keys with
  | [] => ret fingerprints
  | key :: rest =>
      data <- redis (redis_get now key) ;;
      if truthy data
      then content_id <- lift (after_colon key) ;;
           fp <- lift (match data with
                       | Some d => json_loads d
                       | None => Raise RuntimeError
                       end) ;;
           load_fingerprints now rest (dict_set content_id fp fingerprints)
      else load_fingerprints now rest fingerprints
  end.

(** [_get_stored_fingerprints]. *)
Definition _get_stored_fingerprints (now : Z) : M (list (pystr * Fingerprint)) :=
  try_
    (eng <- get ;;
     match redis_client eng with
     | Some _ =>
         keys <- redis (redis_keys now (py "fingerprint:")) ;;
         load_fingerprints now keys []
     | None => ret (content_fingerprints eng)
     end)
    (fun _ => ret []).

(** [_check_semantic_similarity]. *)
Definition _check_semantic_similarity (now : Z) (fingerprint : Fingerprint)
    (content_id : pystr) : M verdict :=
  try_
    (stored_fingerprints <- _get_stored_fingerprints now ;;
     eng <- get ;;
     ret (scan_stored (similarity_threshold (config eng)) fingerprint
            stored_fingerprints 0 []))
    (fun _ => ret (false, py "similarity_error", 0)).

(** [_store_fingerprint]. *)
Definition _store_fingerprint (now : Z) (content_id : pystr) (fingerprint : Fingerprint)
  : M unit :=
  try_
    (eng <- get ;;
     let expire_seconds := (time_window_hours (config eng) * 3600)%Z in
     let fingerprint_data := RJson fingerprint in
     match redis_client eng with
     | Some _ =>
         redis (redis_setex now (py "fingerprint:" ++ content_id) expire_seconds
                  fingerprint_data)
     | None =>
         modify (set_content_fingerprints
                   (dict_set content_id fingerprint (content_fingerprints eng)))
     end)
    (fun _ => ret tt).

(** [hashlib.md5(url.encode()).hexdigest()]. *)
Definition url_md5 (url : pystr) : result pystr :=
  rbind (encode_utf8 url) (fun b => Ok (md5_hex b)).

(** [_is_url_duplicate]. *)
Definition _is_url_duplicate (now : Z) (url : pystr) : M bool :=
  try_
    (eng <- get ;;
     match redis_client eng with
     | Some _ =>
         url_hash <- lift (url_md5 url) ;;
         redis (redis_exists now (py "url:" ++ url_hash))
     | None =>
         url_hash <- lift (url_md5 url) ;;
         ret (existsb (fun kv => str_eqb (fst kv) url_hash) (processed_items eng))
     end)
    (fun _ => ret false).

(** [_store_processed_url]. *)
Definition _store_processed_url (now : Z) (url content_id : pystr) : M unit :=
  try_
    (url_hash <- lift (url_md5 url) ;;
     eng <- get ;;
     let expire_seconds := (time_window_hours (config eng) * 3600)%Z in
     match redis_client eng with
     | Some _ =>
         redis (redis_setex now (py "url:" ++ url_hash) expire_seconds (RStr content_id))
     | None => modify (set_processed_items (dict_set url_hash now (processed_items eng)))
     end)
    (fun _ => ret tt).

(** [_record_processed_item]. *)
Definition _record_processed_item (now : Z) (content_id : pystr) : M unit :=
  try_
    (eng <- get ;;
     let expire_seconds := (time_window_hours (config eng) * 3600)%Z in
     match redis_client eng with
     | Some _ =>
         redis (redis_setex now (py "processed:" ++ content_id) expire_seconds (RTime now))
     | None => ret tt
     end)
    (fun _ => ret tt).

(** [timedelta(hours=hours)], in seconds: a [timedelta] holds at most
    999999999 days either way. *)
Definition timedelta_hours (hours : Z) : result Z :=
  let days := (hours / 24)%Z in
  if ((days <? -999999999) || (999999999 <? days))%Z then Raise OverflowError
  else Ok (hours * 3600)%Z.

(** The comprehension of [_clean_expired_entries] and the deletions that
    follow it: the items that stay.  [timedelta(hours=...)] is evaluated for
    each item, so a window that is no [timedelta] raises as soon as there
    is an item, before anything is deleted. *)
Fixpoint unexpired (current_time hours : Z) (items : list (pystr * Z))
  : result (list (pystr * Z)) :=
  match items with
  | [] => Ok []
  | (key, timestamp) :: rest =>
      rbind (timedelta_hours hours) (fun window =>
      rbind (unexpired current_time hours rest) (fun kept =>
      Ok (if (window <? current_time - timestamp)%Z then kept
          else (key, timestamp) :: kept)))
  end.

(** [_clean_expired_entries]: only the in-memory cache is swept. *)
Definition _clean_expired_entries (now : Z) : M unit :=
  eng <- get ;;
  match redis_client eng with
  | Some _ => ret tt
  | None =>
      try_
        (let current_time := now in
         kept <- lift (unexpired current_time (time_window_hours (config eng))
                         (processed_items eng)) ;;
         modify (set_processed_items kept) ;;
         eng <- get ;;
         if (10000 <? len (content_fingerprints eng))%Z
         then modify (set_content_fingerprints
                        (skipn (Z.to_nat 5000) (content_fingerprints eng)))
         else ret tt)
        (fun _ => ret tt)
  end.

(** Stage 3 of [is_duplicate] and the final record. *)
Definition url_stage (now : Z) (url content_id : pystr) : M verdict :=
  let finish :=
    _record_processed_item now content_id ;;
    ret (false, py "unique", 0) in
  match url with
  | [] => finish
  | _ =>
      dup <- _is_url_duplicate now url ;;
      if dup then ret (true, py "url_duplicate", float 0.9)
      else _store_processed_url now url content_id ;; finish
  end.

(** Stage 2 of [is_duplicate]. *)
Definition semantic_stage (now : Z) (content url content_id : pystr) : M verdict :=
  eng <- get ;;
  if semantic_analysis (config eng)
  then
    let fingerprint := create_semantic_fingerprint content in
    similarity_result <- _check_semantic_similarity now fingerprint content_id ;;
    if fst (fst similarity_result) then ret similarity_result
    else _store_fingerprint now content_id fingerprint ;;
         url_stage now url content_id
  else url_stage now url content_id.

(** The body of the [try] block of [is_duplicate]. *)
Definition is_duplicate_body (now : Z) (content title url : pystr) : M verdict :=
  _clean_expired_entries now ;;
  let content_id := title ++ py "_" ++ url ++ py "_" ++ firstn 100 content in
  eng <- get ;;
  if content_hash_enabled (config eng)
  then
    content_hash <- lift (create_content_hash content) ;;
    dup <- _is_hash_duplicate now content_hash ;;
    if dup then ret (true, py "exact_duplicate", 1)
    else _store_content_hash now content_hash content_id ;;
         semantic_stage now content url content_id
  else semantic_stage now content url content_id.

(** [is_duplicate]: called at clock reading [now], it returns the verdict
    and the engine as the call leaves it. *)
Definition is_duplicate (now : Z) (content title url : pystr) (eng : Engine)
  : verdict * Engine :=
  match is_duplicate_body now content title url eng with
  | (Ok v, eng') => (v, eng')
  | (Raise _, eng') => ((false, py "error_fallback", 0), eng')
  end.

End Engine.

(* ================================================================== *)
(** * Concrete environments *)
(* ================================================================== *)

(** ** difflib

    [SequenceMatcher(None, a, b).ratio()] for a second sequence shorter than
    200 characters (the automatic junk heuristic is inactive below that
    length). *)
Module Difflib.

Fixpoint common_prefix (a b : pystr) : nat :=
  match a, b with
  | c :: a', d :: b' => if (c =? d)%N then S (common_prefix a' b') else O
  | _, _ => O
  end.

(** One row of [find_longest_match]: the block of [a] starting at [i]
    against every start [j] of [b]; a later candidate replaces the best one
    only when strictly longer. *)
Fixpoint longest_in_row (a_from_i : pystr) (i : nat) (b_from_j : pystr) (j : nat)
    (best : nat * nat * nat) : nat * nat * nat :=
  match b_from_j with
  | [] => best
  | _ :: b' =>
      let k := common_prefix a_from_i b_from_j in
      let best' := if (snd best <? k)%nat then (i, j, k) else best in
      longest_in_row a_from_i i b' (S j) best'
  end.

Fixpoint longest_from (a_from_i : pystr) (i : nat) (b : pystr) (best : nat * nat * nat)
  : nat * nat * nat :=
  match a_from_i with
  | [] => best
  | _ :: a' => longest_from a' (S i) b (longest_in_row a_from_i i b O best)
  end.

(** [find_longest_match]: the longest matching block, leftmost in [a], then
    leftmost in [b]. *)
Definition find_longest_match (a b : pystr) : nat * nat * nat :=
  longest_from a O b (O, O, O).

(** The total size of [get_matching_blocks]: the longest block, then the
    pieces to its left and to its right. *)
Fixpoint matches (fuel : nat) (a b : pystr) : nat :=
  match fuel with
  | O => O
  | S fuel' =>
      let '(i, j, k) := find_longest_match a b in
      match k with
      | O => O
      | _ => (matches fuel' (firstn i a) (firstn j b) + k
              + matches fuel' (skipn (i + k) a) (skipn (j + k) b))%nat
      end
  end.

(** [2.0 * matches / length if length else 1.0]. *)
Definition ratio (a b : pystr) : Q :=
  match (length a + length b)%nat with
  | O => 1
  | S n => round64 (fmul 2 (float_of_int (Z.of_nat (matches (S (length a)) a b)))
                    / float_of_int (Z.of_nat (S n)))
  end.

End Difflib.

(** ** ASCII and Latin-1 case mapping and character classes *)

Definition lower_char (c : char) : char :=
  (if (65 <=? c) && (c <=? 90) then c + 32
   else if (192 <=? c) && (c <=? 222) && negb (c =? 215) then c + 32
   else c)%N.

Definition is_letter (c : char) : bool :=
  ((65 <=? c) && (c <=? 90) || (97 <=? c) && (c <=? 122)
   || (192 <=? c) && (c <=? 255) && negb (c =? 215) && negb (c =? 247))%N.

Definition is_digit (c : char) : bool := ((48 <=? c) && (c <=? 57))%N.

(** ** A small environment for running the model

    Case mapping and character classes as above; a whitespace tokenizer; a
    sentence splitter that cuts at full stops; the identity stemmer; no stop
    words; a constant readability score; the digests replaced by the
    identity on the encoded bytes (an ideal, collision-free hash);
    difflib's ratio; and a server that lists its keys in the order in which
    they were first set. *)
Definition simple_sentences (s : pystr) : list pystr :=
  filter (fun t => negb (str_eqb t [])) (map str_strip (str_split_sep (py ".") s)).

Definition simple_env : PyEnv := {|
  str_lower := map lower_char;
  str_isalpha := fun s => negb (str_eqb s []) && forallb is_letter s;
  char_isdigit := is_digit;
  word_tokenize := fun s => Ok (str_split s);
  sent_tokenize := fun s => Ok (simple_sentences s);
  stem := fun s => Ok s;
  stopwords := [];
  flesch_reading_ease := fun _ => Ok 60;
  sha256_hex := fun b => b;
  md5_hex := fun b => b;
  sequence_ratio := Difflib.ratio;
  keyspace_order := fun _ held => held;
  keyspace_order_perm := fun _ held => Permutation_refl held
|}.

(** ** The same environment with the NLTK data missing

    [nltk.download] failed in the constructor: the stop-word set is empty
    and both tokenizers raise [LookupError]. *)
Definition no_nltk_env : PyEnv := {|
  str_lower := map lower_char;
  str_isalpha := fun s => negb (str_eqb s []) && forallb is_letter s;
  char_isdigit := is_digit;
  word_tokenize := fun _ => Raise LookupError;
  sent_tokenize := fun _ => Raise LookupError;
  stem := fun s => Ok s;
  stopwords := [];
  flesch_reading_ease := fun _ => Ok 60;
  sha256_hex := fun b => b;
  md5_hex := fun b => b;
  sequence_ratio := Difflib.ratio;
  keyspace_order := fun _ held => held;
  keyspace_order_perm := fun _ held => Permutation_refl held
|}.

(* ================================================================== *)
(** * Inputs used in the examples *)
(* ================================================================== *)

(** The text [, "'").replace(] that the third statement of
    [_normalize_content] replaces. *)
Definition replaced_literal : pystr := ([44; 32; 34; 39; 34; 41] ++ py ".replace(")%N.

(** The content [, ", "'").replace(").replace(]: lower case, single spaces,
    no line or tab characters. *)
Definition nested_literal : pystr :=
  py ", " ++ [34%N] ++ replaced_literal ++ [34%N] ++ py ").replace(".

(** The fingerprint of the empty text as the fallback path builds it. *)
Definition empty_text_fingerprint : Fingerprint := _create_basic_fingerprint [].

(** A structure dictionary that only records a word count. *)
Definition word_count_only (n : Z) : dict := [ (py "word_count", PInt n) ].

(** The fingerprints of the one-word texts "tide" and "diet". *)
Definition tide_fingerprint : Fingerprint :=
  @create_semantic_fingerprint simple_env (py "tide").

Definition diet_fingerprint : Fingerprint :=
  @create_semantic_fingerprint simple_env (py "diet").

(** The fingerprints of the one-word texts "abcd" and "bcde". *)
Definition abcd_fingerprint : Fingerprint :=
  @create_semantic_fingerprint simple_env (py "abcd").

Definition bcde_fingerprint : Fingerprint :=
  @create_semantic_fingerprint simple_env (py "bcde").

(** A configuration whose similarity threshold is 0. *)
Definition zero_threshold_config : Config :=
  {| similarity_threshold := 0;
     time_window_hours := 24;
     content_hash_enabled := true;
     semantic_analysis := true |}.

(** The in-memory engine of that configuration after it has seen the text
    "a b c d e". *)
Definition zero_threshold_engine : Engine :=
  snd (@is_duplicate simple_env 0 (py "a b c d e") [] []
         (new_engine zero_threshold_config None)).

(** The fingerprint of the empty text as the main path builds it. *)
Definition empty_fingerprint : Fingerprint := @create_semantic_fingerprint simple_env [].

(** A text that names ten vocabulary terms ahead of "server" in the list
    and then the word "observers". *)
Definition crowded_text : pystr :=
  py ("ai artificial intelligence machine learning deep learning neural network "
      ++ "automation robot blockchain cryptocurrency bitcoin observers").

(** A text that cannot be encoded as UTF-8: a lone surrogate. *)
Definition lone_surrogate : pystr := [55296%N].

(** The fingerprint of the text "robot", and the in-memory engine of the
    default configuration (threshold 0.8) after it has seen that text. *)
Definition robot_fingerprint : Fingerprint :=
  @create_semantic_fingerprint simple_env (py "robot").

Definition robot_engine : Engine :=
  snd (@is_duplicate simple_env 0 (py "robot") [] [] (new_engine default_config None)).

(** A reachable server that holds nothing and never fails. *)
Definition healthy_server : Redis :=
  {| entries := []; faults := fun _ => false; issued := 0 |}.

(** The in-memory engine with a window of [hours] hours, and the same
    engine after it has seen the text "breaking news" at clock reading 0. *)
Definition windowed_config (hours : Z) : Config :=
  {| similarity_threshold := float 0.8;
     time_window_hours := hours;
     content_hash_enabled := true;
     semantic_analysis := true |}.

Definition seen_breaking_news (hours : Z) : Engine :=
  snd (@is_duplicate simple_env 0 (py "breaking news") [] []
         (new_engine (windowed_config hours) None)).

(** An in-memory engine with the default window of 24 hours that holds two
    URL entries, seen at clock readings 0 and 3600. *)
Definition stale_url_engine : Engine :=
  {| config := default_config; redis_client := None; content_hashes := [];
     content_fingerprints := [];
     processed_items := [ (py "stale", 0%Z); (py "fresh", 3600%Z) ] |}.


(* ================================================================== *)
(** * DeduplicationEngine: statistics and cache clearing *)
(* ================================================================== *)

(** [DEL key ...]: the keys named are removed; the reply counts those that
    were alive. *)
Definition redis_delete (now : Z) (keys : list pystr) : Redis -> result Z * Redis :=
  redis_command (fun r =>
    (Ok (len (filter (fun e => str_mem (fst e) keys && live now e) (entries r))),
     {| entries := filter (fun e => negb (str_mem (fst e) keys)) (entries r);
        faults := faults r; issued := issued r |})).

(** [EVAL "return #redis.call('keys', 'prefix*')" 0]. *)
Definition redis_count_keys (now : Z) (prefix : pystr) : Redis -> result Z * Redis :=
  redis_command (fun r =>
    (Ok (len (filter (fun e => startswith prefix (fst e) && live now e) (entries r))), r)).

(** The dictionary returned by [get_stats]: the six statistics, or the
    single key ['error']. *)
Inductive stats_report : Type :=
| Stats (stored_hashes stored_fingerprints processed_urls : Z)
        (threshold : Q) (window_hours : Z) (redis_available : bool)
| StatsError (e : exn).

Section Maintenance.

Context {E : PyEnv}.

Local Open Scope engine_scope.

(** The body of the [try] block of [get_stats]. *)
Definition get_stats_body (now : Z) : M stats_report :=
  eng <- get ;;
  counts <-
    match redis_client eng with
    | Some _ =>
        hash_count <- redis (redis_count_keys now (py "hash:")) ;;
        fingerprint_count <- redis (redis_count_keys now (py "fingerprint:")) ;;
        url_count <- redis (redis_count_keys now (py "url:")) ;;
        ret (hash_count, fingerprint_count, url_count)
    | None =>
        ret (len (content_hashes eng), len (content_fingerprints eng),
             len (processed_items eng))
    end ;;
  eng <- get ;;
  ret (Stats (fst (fst counts)) (snd (fst counts)) (snd counts)
         (similarity_threshold (config eng)) (time_window_hours (config eng))
         (match redis_client eng with Some _ => true | None => false end)).

(** [get_stats], read at clock reading [now]. *)
Definition get_stats (now : Z) (eng : Engine) : stats_report * Engine :=
  match get_stats_body now eng with
  | (Ok report, eng') => (report, eng')
  | (Raise e, eng') => (StatsError e, eng')
  end.

(** [clear_cache]. *)
Definition clear_cache (now : Z) : M unit :=
  try_
    (eng <- get ;;
     match redis_client eng with
     | Some _ =>
         keys1 <- redis (redis_keys now (py "hash:")) ;;
         keys2 <- redis (redis_keys now (py "fingerprint:")) ;;
         keys3 <- redis (redis_keys now (py "url:")) ;;
         keys4 <- redis (redis_keys now (py "processed:")) ;;
         let keys := keys1 ++ keys2 ++ keys3 ++ keys4 in
         match keys with
         | [] => ret tt
         | _ => redis (redis_delete now keys) ;; ret tt
         end
     | None => ret tt
     end ;;
     modify (set_content_hashes []) ;;
     modify (set_content_fingerprints []) ;;
     modify (set_processed_items []))
    (fun _ => ret tt).

End Maintenance.

(** [create_deduplication_engine]. *)
Definition create_deduplication_engine (cfg : Config) (server : option Redis) : Engine :=
  new_engine cfg server.

(* ================================================================== *)
(** * A program logic for engine methods *)
(* ================================================================== *)

(** [hoare P m Q]: started in a state that satisfies [P], the method [m]
    ends, with a value or an exception, in a state related to it by [Q]. *)
Definition hoare {A} (P : Engine -> Prop) (m : M A) (Q : result A -> Engine -> Prop)
  : Prop :=
  forall eng, P eng -> Q (fst (m eng)) (snd (m eng)).

(** [invariant I m]: the method keeps [I], however it ends. *)
Definition invariant {A} (I : Engine -> Prop) (m : M A) : Prop :=
  hoare I m (fun _ eng => I eng).

(** A postcondition on the value a method returns; nothing is asked of an
    exception. *)
Definition returns {A} (S : A -> Prop) : result A -> Engine -> Prop :=
  fun r _ => match r with Ok a => S a | Raise _ => True end.

(** What one command of the duplicate check does to the server: the count
    of commands moves on and, for a [SETEX] of a key in [K], the entry of
    that key is replaced. *)
Inductive server_step (K : pystr -> Prop) (r : Redis) : Redis -> Prop :=
| step_counted (n : nat) :
    server_step K r {| entries := entries r; faults := faults r; issued := n |}
| step_stored (n : nat) (key : pystr) (value : redis_value) (expiry : Z) :
    K key ->
    server_step K r
      {| entries := filter (fun e => negb (str_eqb (fst e) key)) (entries r)
                    ++ [(key, (value, expiry))];
         faults := faults r; issued := n |}.

(** Every key. *)
Definition any_key (key : pystr) : Prop := True.

(** The keys that do not start with [prefix]. *)
Definition other_prefix (prefix key : pystr) : Prop := startswith prefix key = false.

(** [is_duplicate] after the sweep: its three stages. *)
Definition stages {E : PyEnv} (now : Z) (content url content_id : pystr) : M verdict :=
  bind get (fun eng =>
  if content_hash_enabled (config eng)
  then bind (lift (create_content_hash content)) (fun content_hash =>
       bind (_is_hash_duplicate now content_hash) (fun dup =>
       if dup then ret (true, py "exact_duplicate", 1)
       else bind (_store_content_hash now content_hash content_id)
              (fun _ => semantic_stage now content url content_id)))
  else semantic_stage now content url content_id).

(* ================================================================== *)
(** * Predicates on engines *)
(* ================================================================== *)

(** Which backend the engine works on. *)
Definition uses_redis (eng : Engine) : bool :=
  match redis_client eng with
  | Some _ => true
  | None => false
  end.

(** The three in-memory caches of an engine. *)
Definition caches (eng : Engine)
  : list pystr * list (pystr * Fingerprint) * list (pystr * Z) :=
  (content_hashes eng, content_fingerprints eng, processed_items eng).

(** The engine runs under the configuration [cfg]. *)
Definition configured (cfg : Config) (eng : Engine) : Prop := config eng = cfg.

(** A key of the server is alive at [now]. *)
Definition key_alive (now : Z) (key : pystr) (r : Redis) : bool :=
  existsb (fun e => str_eqb (fst e) key && live now e) (entries r).

(** The server is reachable, fails as [f] schedules, and holds [key] alive
    at [later]. *)
Definition holds_key (f : nat -> bool) (later : Z) (key : pystr) (eng : Engine) : Prop :=
  exists r, redis_client eng = Some r /\ faults r = f /\ key_alive later key r = true.

(** The entries of a server whose key starts with [prefix], dead or
    alive, and what the server of an engine holds under [prefix]. *)
Definition prefix_entries (prefix : pystr) (r : Redis)
  : list (pystr * (redis_value * Z)) :=
  filter (fun e => startswith prefix (fst e)) (entries r).

Definition stored_under (prefix : pystr) (eng : Engine)
  : list (pystr * (redis_value * Z)) :=
  match redis_client eng with
  | Some r => prefix_entries prefix r
  | None => []
  end.



(** The server takes what a submission at [now] stores under keys and
    values made of [texts]: the client can encode each of them, and the
    window of the engine is an expiry the server accepts.  Nothing is asked
    of an engine that works in memory. *)
Definition storable (eng : Engine) (now : Z) (texts : list pystr) : Prop :=
  match redis_client eng with
  | Some _ =>
      expiry_accepted now (time_window_hours (config eng) * 3600) = true
      /\ forallb encodable texts = true
  | None => True
  end.

(** The content id [f"{title}_{url}_{content[:100]}"] of a submission. *)
Definition content_id_of (content title url : pystr) : pystr :=
  title ++ py "_" ++ url ++ py "_" ++ firstn 100 content.

(** What the first submission to an empty server leaves there when every
    [SETEX] succeeds: the records of stages 1 to 3 that are switched on, and
    the final record, all with the window as their expiry. *)
Definition first_records {E : PyEnv} (cfg : Config) (now : Z)
    (content title url content_hash url_hash : pystr)
  : list (pystr * (redis_value * Z)) :=
  let expiry := (now + time_window_hours cfg * 3600)%Z in
  let content_id := content_id_of content title url in
  (if content_hash_enabled cfg
   then [(py "hash:" ++ content_hash, (RStr content_id, expiry))] else [])
  ++ (if semantic_analysis cfg
      then [(py "fingerprint:" ++ content_id,
             (RJson (create_semantic_fingerprint content), expiry))]
      else [])
  ++ match url with
     | [] => []
     | _ => [(py "url:" ++ url_hash, (RStr content_id, expiry))]
     end
  ++ [(py "processed:" ++ content_id, (RTime now, expiry))].

(** The window of the engine is a [timedelta]. *)
Definition window_fits (eng : Engine) : Prop :=
  exists seconds, timedelta_hours (time_window_hours (config eng)) = Ok seconds.

(** The engine works in memory and its fingerprint table holds at most [n]
    entries. *)
Definition table_within (n : Z) (eng : Engine) : Prop :=
  redis_client eng = None /\ (len (content_fingerprints eng) <= n)%Z.

(** The engine works in memory and holds the hashes [hs]. *)
Definition holds_hashes (hs : list pystr) (eng : Engine) : Prop :=
  redis_client eng = None /\ content_hashes eng = hs.

(** The entry ['stored_hashes'] of a statistics report. *)
Definition reported_hashes (report : stats_report) : option Z :=
  match report with
  | Stats stored_hashes _ _ _ _ _ => Some stored_hashes
  | StatsError _ => None
  end.

(* ================================================================== *)
(** * Predicates on verdicts *)
(* ================================================================== *)

(** The shapes of the verdicts of [is_duplicate] under threshold
    [threshold]. *)
Definition verdict_shape (threshold : Q) (v : verdict) : Prop :=
  v = (false, py "unique", 0)
  \/ v = (false, py "error_fallback", 0)
  \/ v = (true, py "exact_duplicate", 1)
  \/ v = (true, py "url_duplicate", float 0.9)
  \/ exists stored_id score,
       v = (true, py "semantic_similar_to_" ++ stored_id, score)
       /\ threshold <= score /\ 0 < score.

(** A verdict of [_check_semantic_similarity] that flags a duplicate names
    a stored entry and carries a positive score at or above the threshold. *)
Definition semantic_hit (cfg : Config) (v : verdict) : Prop :=
  fst (fst v) = true ->
  exists stored_id score,
    v = (true, py "semantic_similar_to_" ++ stored_id, score)
    /\ similarity_threshold cfg <= score /\ 0 < score.

(** The verdicts of stage 3 of [is_duplicate]. *)
Definition late_shape (v : verdict) : Prop :=
  v = (false, py "unique", 0) \/ v = (true, py "url_duplicate", float 0.9).

(** The verdicts of stages 2 and 3. *)
Definition stage_shape (cfg : Config) (v : verdict) : Prop :=
  late_shape v
  \/ exists stored_id score,
       v = (true, py "semantic_similar_to_" ++ stored_id, score)
       /\ similarity_threshold cfg <= score /\ 0 < score.

(* ================================================================== *)
(** * Predicates on fingerprints and texts *)
(* ================================================================== *)

(** A fingerprint as the two constructors build it for a text of
    [n] whitespace-separated words. *)
Definition well_formed (n : Z) (fp : Fingerprint) : Prop :=
  (0 <= n)%Z
  /\ word_count fp = n
  /\ content_structure fp <> []
  /\ (forall default, dict_get (py "word_count") (content_structure fp) default = PInt n)
  /\ (length (key_words fp) <= 20)%nat
  /\ (length (key_sentences fp) <= 5)%nat
  /\ (length (topic_indicators fp) <= 10)%nat.

(** A word as [str.split()] returns it: not empty, free of whitespace. *)
Definition is_word (w : pystr) : Prop :=
  w <> [] /\ forallb (fun c => negb (isspace c)) w = true.

(** The text [_normalize_content] builds before its replacements: the
    lower-cased words joined by single spaces. *)
Definition collapsed {E : PyEnv} (content : pystr) : pystr :=
  str_join (py " ") (str_split (str_lower content)).

(** The tokens that the comprehension of [_extract_key_words] keeps. *)
Definition kept_tokens {E : PyEnv} (tokens : list pystr) : list pystr :=
  filter (fun word => str_isalpha word && (3 <? length word)%nat
                      && negb (str_mem word stopwords)) tokens.

(** [word_freq.get(word, 0)]. *)
Fixpoint freq_get (word : pystr) (word_freq : list (pystr * Z)) : Z :=
  match word_freq with
  | [] => 0%Z
  | (w, n) :: rest => if str_eqb w word then n else freq_get word rest
  end.

(** How often [word] occurs in [words]. *)
Definition occurrences (words : list pystr) (word : pystr) : Z :=
  Z.of_nat (count_occ str_eq_dec words word).

(* ================================================================== *)
(** * More inputs used in the examples *)
(* ================================================================== *)

(** A healthy server that already holds the fingerprint of another item,
    and an engine of the default configuration connected to it. *)
Definition busy_server : Redis :=
  {| entries := [ (py "fingerprint:old", (RJson robot_fingerprint, 100000%Z)) ];
     faults := fun _ => false; issued := 5 |}.

Definition busy_engine : Engine :=
  {| config := default_config; redis_client := Some busy_server; content_hashes := [];
     content_fingerprints := []; processed_items := [] |}.

(** A server that holds the hash of the text "robot" and no longer
    answers, and an engine whose connection to it was made earlier. *)
Definition dead_server : Redis :=
  {| entries := [ (py "hash:robot", (RStr (py "__robot"), 100000%Z)) ];
     faults := fun _ => true; issued := 0 |}.

Definition dead_engine : Engine :=
  {| config := default_config; redis_client := Some dead_server; content_hashes := [];
     content_fingerprints := []; processed_items := [] |}.

(* ================================================================== *)
(** * Properties: strings and sets *)
(* ================================================================== *)

Lemma str_eqb_refl (s : pystr) : str_eqb s s = true.
Proof.
  induction s as [|c s IH]; simpl; [reflexivity|].
  now rewrite N.eqb_refl, IH.
Qed.

Lemma str_eqb_eq (s t : pystr) : str_eqb s t = true <-> s = t.
Proof.
  split.
  - revert t. induction s as [|c s IH]; intros [|d t]; simpl; try discriminate; auto.
    intros H. apply andb_prop in H as [Hc Hs].
    apply N.eqb_eq in Hc. subst d. f_equal. auto.
  - intros ->. apply str_eqb_refl.
Qed.

Lemma str_mem_In (x : pystr) (l : list pystr) : str_mem x l = true <-> In x l.
Proof.
  unfold str_mem. rewrite existsb_exists. split.
  - intros (y & Hy & Heq). apply str_eqb_eq in Heq. now subst.
  - intros H. exists x. split; [assumption | apply str_eqb_refl].
Qed.

(* ================================================================== *)
(** * Properties: floats *)
(* ================================================================== *)

(* ------------------------------------------------------------------ *)
(** ** Powers of two *)

Lemma pow2_pos (e : Z) : 0 < 2 ^ e.
Proof. apply Qpower_0_lt. reflexivity. Qed.

Lemma pow2_add (a b : Z) : 2 ^ (a + b) == 2 ^ a * 2 ^ b.
Proof. apply Qpower_plus. discriminate. Qed.

Lemma pow2_succ (a : Z) : 2 ^ (a + 1) == 2 * 2 ^ a.
Proof. rewrite pow2_add. change (2 ^ 1) with 2. ring. Qed.

Lemma pow2_le (a b : Z) : (a <= b)%Z -> 2 ^ a <= 2 ^ b.
Proof. intros H. apply Qpower_le_compat_l; [assumption | discriminate]. Qed.

Lemma pow2_lt_inv (a b : Z) : 2 ^ a < 2 ^ b -> (a < b)%Z.
Proof. intros H. apply Qpower_lt_compat_l_inv with 2; [assumption | reflexivity]. Qed.

Lemma pow2_Z (a : Z) : (0 <= a)%Z -> inject_Z (2 ^ a) == 2 ^ a.
Proof. intros H. now rewrite Zpower_Qpower. Qed.

(* ------------------------------------------------------------------ *)
(** ** The exponent of a rational *)

Lemma Q_as_fraction (q : Q) : q == inject_Z (Qnum q) / inject_Z (Zpos (Qden q)).
Proof. destruct q as [n d]. simpl. rewrite Qmake_Qdiv. reflexivity. Qed.

Lemma binade_spec (q : Q) : 0 < q -> 2 ^ binade q <= q < 2 ^ (binade q + 1).
Proof.
  intros Hq. unfold binade.
  set (n := Qnum q). set (d := Zpos (Qden q)).
  assert (Hn : (0 < n)%Z).
  { destruct q as [qn qd]. unfold Qlt in Hq. simpl in *. subst n. simpl. lia. }
  assert (Hd : (0 < d)%Z) by (subst d; lia).
  set (a := Z.log2 n). set (b := Z.log2 d).
  destruct (Z.log2_spec n Hn) as [Ha1 Ha2]. fold a in Ha1, Ha2.
  destruct (Z.log2_spec d Hd) as [Hb1 Hb2]. fold b in Hb1, Hb2.
  assert (Ha0 : (0 <= a)%Z) by apply Z.log2_nonneg.
  assert (Hb0 : (0 <= b)%Z) by apply Z.log2_nonneg.
  assert (Hqf : q == inject_Z n / inject_Z d) by apply Q_as_fraction.
  assert (HdQ : 0 < inject_Z d) by (change 0 with (inject_Z 0); now rewrite <- Zlt_Qlt).
  assert (Ha1Q : 2 ^ a <= inject_Z n) by (rewrite <- pow2_Z by assumption; now rewrite <- Zle_Qle).
  assert (Ha2Q : inject_Z n < 2 ^ (a + 1))
    by (rewrite <- pow2_Z by lia; rewrite <- Z.add_1_r in Ha2; now rewrite <- Zlt_Qlt).
  assert (Hb1Q : 2 ^ b <= inject_Z d) by (rewrite <- pow2_Z by assumption; now rewrite <- Zle_Qle).
  assert (Hb2Q : inject_Z d < 2 ^ (b + 1))
    by (rewrite <- pow2_Z by lia; rewrite <- Z.add_1_r in Hb2; now rewrite <- Zlt_Qlt).
  assert (Hmul : q * inject_Z d == inject_Z n).
  { rewrite Hqf. field. intros H0. rewrite H0 in HdQ. discriminate. }
  pose proof (pow2_pos a) as Pa. pose proof (pow2_pos b) as Pb.
  pose proof (pow2_pos (a - b)) as Pk.
  assert (Hk : 2 ^ a == 2 ^ (a - b) * 2 ^ b).
  { rewrite <- pow2_add. now replace (a - b + b)%Z with a by lia. }
  destruct (Qle_bool (2 ^ (a - b)) q) eqn:Hle.
  - apply Qle_bool_iff in Hle. split; [assumption|].
    rewrite pow2_succ. rewrite pow2_succ in Ha2Q.
    apply Qmult_lt_r with (inject_Z d); [assumption|].
    rewrite Hmul. eapply Qlt_le_trans; [exact Ha2Q|].
    rewrite Hk. rewrite Qmult_assoc.
    apply Qmult_le_l; [|assumption].
    apply Qmult_lt_0_compat; [reflexivity | assumption]. 
  - assert (Hlt : q < 2 ^ (a - b)).
    { apply Qnot_le_lt. intros H. apply Qle_bool_iff in H. congruence. }
    replace (a - b - 1 + 1)%Z with (a - b)%Z by lia.
    split; [|assumption].
    apply Qmult_le_r with (inject_Z d); [assumption|].
    rewrite Hmul. eapply Qle_trans; [|exact Ha1Q].
    assert (Hk' : 2 ^ a == 2 ^ (a - b - 1) * 2 ^ (b + 1)).
    { rewrite <- pow2_add. now replace (a - b - 1 + (b + 1))%Z with a by lia. }
    rewrite Hk'. apply Qmult_le_l; [apply pow2_pos|]. now apply Qlt_le_weak.
Qed.

Lemma binade_unique (q : Q) (e : Z) :
  2 ^ e <= q < 2 ^ (e + 1) -> binade q = e.
Proof.
  intros [H1 H2].
  assert (Hq : 0 < q) by (eapply Qlt_le_trans; [apply (pow2_pos e) | assumption]).
  destruct (binade_spec Hq) as [B1 B2].
  assert (binade q < e + 1)%Z by (apply pow2_lt_inv; eapply Qle_lt_trans; eassumption).
  assert (e < binade q + 1)%Z by (apply pow2_lt_inv; eapply Qle_lt_trans; eassumption).
  lia.
Qed.

Lemma binade_mono (x y : Q) : 0 < x -> x <= y -> (binade x <= binade y)%Z.
Proof.
  intros Hx Hxy.
  assert (Hy : 0 < y) by (eapply Qlt_le_trans; eassumption).
  destruct (binade_spec Hx) as [X1 _]. destruct (binade_spec Hy) as [_ Y2].
  assert (binade x < binade y + 1)%Z; [|lia].
  apply pow2_lt_inv. eapply Qle_lt_trans; [|exact Y2].
  eapply Qle_trans; eassumption.
Qed.

(* ------------------------------------------------------------------ *)
(** ** The nearest integer *)

Lemma round_half_even_cases (q : Q) :
  round_half_even q = Qfloor q \/ round_half_even q = (Qfloor q + 1)%Z.
Proof.
  unfold round_half_even.
  destruct (Qcompare _ _); [destruct (Z.even _)| |]; auto.
Qed.

Lemma round_half_even_comp (x y : Q) : x == y -> round_half_even x = round_half_even y.
Proof.
  intros H. unfold round_half_even.
  rewrite (Qfloor_comp _ _ H).
  assert (Hc : Qcompare (x - inject_Z (Qfloor y)) (1 # 2)
               = Qcompare (y - inject_Z (Qfloor y)) (1 # 2)) by now rewrite H.
  now rewrite Hc.
Qed.

Lemma round_half_even_Z (z : Z) : round_half_even (inject_Z z) = z.
Proof.
  unfold round_half_even. rewrite Qfloor_Z.
  assert (Hc : Qcompare (inject_Z z - inject_Z z) (1 # 2) = Lt).
  { rewrite <- Qlt_alt. ring_simplify (inject_Z z - inject_Z z). reflexivity. }
  now rewrite Hc.
Qed.

Lemma round_half_even_mono (x y : Q) : x <= y -> (round_half_even x <= round_half_even y)%Z.
Proof.
  intros Hxy. pose proof (Qfloor_resp_le _ _ Hxy) as Hf.
  destruct (Z.eq_dec (Qfloor x) (Qfloor y)) as [Heq | Hne].
  - unfold round_half_even. rewrite Heq.
    assert (Hr : x - inject_Z (Qfloor y) <= y - inject_Z (Qfloor y)) by lra.
    destruct (Qcompare (x - inject_Z (Qfloor y)) (1 # 2)) eqn:Cx;
      destruct (Qcompare (y - inject_Z (Qfloor y)) (1 # 2)) eqn:Cy;
      try rewrite <- Qeq_alt in *; try rewrite <- Qlt_alt in *; try rewrite <- Qgt_alt in *;
      try (destruct (Z.even (Qfloor y))); try lia; exfalso; lra.
  - destruct (round_half_even_cases x) as [-> | ->], (round_half_even_cases y) as [-> | ->];
      lia.
Qed.

Lemma round_half_even_between (q : Q) (a b : Z) :
  inject_Z a <= q -> q <= inject_Z b -> (a <= round_half_even q <= b)%Z.
Proof.
  intros Ha Hb. split.
  - rewrite <- (round_half_even_Z a). now apply round_half_even_mono.
  - rewrite <- (round_half_even_Z b). now apply round_half_even_mono.
Qed.

Lemma round_half_even_opp (q : Q) : round_half_even (- q) = (- round_half_even q)%Z.
Proof.
  unfold round_half_even.
  pose proof (Qfloor_le q) as F1. pose proof (Qlt_floor q) as F2.
  pose proof (Qfloor_le (- q)) as G1. pose proof (Qlt_floor (- q)) as G2.
  rewrite inject_Z_plus in F2, G2. change (inject_Z 1) with 1 in *.
  destruct (Qeq_dec q (inject_Z (Qfloor q))) as [Hint | Hint].
  - assert (Hf : Qfloor (- q) = (- Qfloor q)%Z).
    { rewrite (Qfloor_comp (- q) (inject_Z (- Qfloor q))); [apply Qfloor_Z|].
      rewrite inject_Z_opp. now rewrite <- Hint. }
    rewrite Hf.
    assert (C1 : Qcompare (q - inject_Z (Qfloor q)) (1 # 2) = Lt).
    { rewrite <- Qlt_alt. lra. }
    assert (C2 : Qcompare (- q - inject_Z (- Qfloor q)) (1 # 2) = Lt).
    { rewrite <- Qlt_alt. rewrite inject_Z_opp. lra. }
    now rewrite C1, C2.
  - assert (Hf : Qfloor (- q) = (- Qfloor q - 1)%Z).
    { assert (H1 : (Qfloor (- q) < - Qfloor q)%Z).
      { rewrite Zlt_Qlt, inject_Z_opp. 
        destruct (Qlt_le_dec (inject_Z (Qfloor (- q))) (- inject_Z (Qfloor q))) as [H|H];
          [assumption|]. exfalso. apply Hint. lra. }
      assert (H2 : (- Qfloor q - 1 < Qfloor (- q) + 1)%Z).
      { rewrite Zlt_Qlt. unfold Z.sub. rewrite !inject_Z_plus, !inject_Z_opp.
        change (inject_Z 1) with 1. lra. }
      lia. }
    rewrite Hf. unfold Z.sub. rewrite !inject_Z_plus, !inject_Z_opp.
    change (inject_Z 1) with 1.
    destruct (Qcompare (q - inject_Z (Qfloor q)) (1 # 2)) eqn:C1;
      [rewrite <- Qeq_alt in C1 | rewrite <- Qlt_alt in C1 | rewrite <- Qgt_alt in C1].
    + assert (C2 : Qcompare (- q - (- inject_Z (Qfloor q) + - (1))) (1 # 2) = Eq).
      { rewrite <- Qeq_alt. lra. }
      rewrite C2. change (- Qfloor q + - (1))%Z with (- Qfloor q + -1)%Z.
      replace (- Qfloor q + -1)%Z with (- Qfloor q - 1)%Z by lia.
      rewrite Z.even_sub, Z.even_opp. change (Z.even 1) with false.
      destruct (Z.even (Qfloor q)); simpl; lia.
    + assert (C2 : Qcompare (- q - (- inject_Z (Qfloor q) + - (1))) (1 # 2) = Gt).
      { rewrite <- Qgt_alt. lra. }
      rewrite C2. lia.
    + assert (C2 : Qcompare (- q - (- inject_Z (Qfloor q) + - (1))) (1 # 2) = Lt).
      { rewrite <- Qlt_alt. lra. }
      rewrite C2. lia.
Qed.

(* ------------------------------------------------------------------ *)
(** ** Rounding a positive rational *)

Lemma div_pow2_le (q : Q) (u : Z) (z : Q) :
  q <= z * 2 ^ u -> q / 2 ^ u <= z.
Proof.
  intros H. apply Qle_shift_div_r; [apply pow2_pos | assumption].
Qed.

Lemma div_pow2_ge (q : Q) (u : Z) (z : Q) :
  z * 2 ^ u <= q -> z <= q / 2 ^ u.
Proof.
  intros H. apply Qle_shift_div_l; [apply pow2_pos | assumption].
Qed.

Lemma round64_pos_nonneg (q : Q) : 0 < q -> 0 <= round64_pos q.
Proof.
  intros Hq. unfold round64_pos.
  set (e := Z.max (binade q) (-1022)).
  apply Qmult_le_0_compat; [|apply Qlt_le_weak, pow2_pos].
  change 0 with (inject_Z 0). rewrite <- Zle_Qle.
  apply round_half_even_between with (b := (Qfloor (q / 2 ^ (e - 52)) + 1)%Z).
  - apply div_pow2_ge. change (inject_Z 0) with 0. rewrite Qmult_0_l. now apply Qlt_le_weak.
  - apply Qlt_le_weak, Qlt_floor.
Qed.

Lemma round64_pos_upper (q : Q) :
  0 < q -> round64_pos q <= 2 ^ (Z.max (binade q) (-1022) + 1).
Proof.
  intros Hq. unfold round64_pos.
  set (e := Z.max (binade q) (-1022)).
  destruct (binade_spec Hq) as [_ B2].
  assert (Hq2 : q <= 2 ^ (e + 1)).
  { apply Qlt_le_weak. eapply Qlt_le_trans; [exact B2|]. apply pow2_le. lia. }
  assert (H53 : 2 ^ (e + 1) == inject_Z (2 ^ 53) * 2 ^ (e - 52)).
  { rewrite pow2_Z by lia. rewrite <- pow2_add. now replace (53 + (e - 52))%Z with (e + 1)%Z by lia. }
  rewrite H53. apply Qmult_le_r; [apply pow2_pos|].
  rewrite <- Zle_Qle.
  apply round_half_even_between with (a := 0%Z).
  - apply div_pow2_ge. change (inject_Z 0) with 0. rewrite Qmult_0_l. now apply Qlt_le_weak.
  - apply div_pow2_le. now rewrite <- H53.
Qed.

Lemma round64_pos_lower (q : Q) :
  0 < q -> (-1022 <= binade q)%Z -> 2 ^ binade q <= round64_pos q.
Proof.
  intros Hq Hn. unfold round64_pos.
  rewrite Z.max_l by assumption.
  set (e := binade q).
  destruct (binade_spec Hq) as [B1 _]. fold e in B1.
  assert (H52 : 2 ^ e == inject_Z (2 ^ 52) * 2 ^ (e - 52)).
  { rewrite pow2_Z by lia. rewrite <- pow2_add. now replace (52 + (e - 52))%Z with e by lia. }
  rewrite H52 at 1. apply Qmult_le_r; [apply pow2_pos|].
  rewrite <- Zle_Qle.
  apply round_half_even_between with (b := (Qfloor (q / 2 ^ (e - 52)) + 1)%Z).
  - apply div_pow2_ge. now rewrite <- H52.
  - apply Qlt_le_weak, Qlt_floor.
Qed.

Lemma round64_pos_mono (x y : Q) : 0 < x -> x <= y -> round64_pos x <= round64_pos y.
Proof.
  intros Hx Hxy.
  assert (Hy : 0 < y) by (eapply Qlt_le_trans; eassumption).
  pose proof (binade_mono Hx Hxy) as Hb.
  destruct (Z.eq_dec (Z.max (binade x) (-1022)) (Z.max (binade y) (-1022))) as [Heq | Hne].
  - unfold round64_pos. rewrite Heq.
    set (u := (Z.max (binade y) (-1022) - 52)%Z).
    apply Qmult_le_r; [apply pow2_pos|].
    rewrite <- Zle_Qle. apply round_half_even_mono.
    apply Qmult_le_r; [apply Qinv_lt_0_compat, pow2_pos | assumption].
  - assert (Hlt : (Z.max (binade x) (-1022) < binade y)%Z) by lia.
    eapply Qle_trans; [apply (round64_pos_upper Hx)|].
    eapply Qle_trans; [|apply (round64_pos_lower Hy); lia].
    apply pow2_le. lia.
Qed.

(* ------------------------------------------------------------------ *)
(** ** Rounding *)

Lemma Qnum_pos (q : Q) : 0 < q <-> (0 < Qnum q)%Z.
Proof. destruct q as [n d]. unfold Qlt. simpl. lia. Qed.

Lemma Qnum_neg (q : Q) : q < 0 <-> (Qnum q < 0)%Z.
Proof. destruct q as [n d]. unfold Qlt. simpl. lia. Qed.

Lemma Qnum_zero (q : Q) : q == 0 <-> Qnum q = 0%Z.
Proof. destruct q as [n d]. unfold Qeq. simpl. lia. Qed.

Lemma round64_of_pos (q : Q) : 0 < q -> round64 q = Qred (round64_pos (Qred q)).
Proof.
  intros H. apply Qnum_pos in H. unfold round64.
  destruct (Qnum q); try lia. reflexivity.
Qed.

Lemma round64_of_neg (q : Q) : q < 0 -> round64 q = Qred (- round64_pos (Qred (- q))).
Proof.
  intros H. apply Qnum_neg in H. unfold round64.
  destruct (Qnum q); try lia. reflexivity.
Qed.

Lemma round64_of_zero (q : Q) : q == 0 -> round64 q = 0.
Proof.
  intros H. apply Qnum_zero in H. unfold round64. now rewrite H.
Qed.

Lemma round64_comp (x y : Q) : x == y -> round64 x = round64 y.
Proof.
  intros H.
  destruct (Q_dec x 0) as [[Hx | Hx] | Hx].
  - rewrite (round64_of_neg Hx), (@round64_of_neg y) by now rewrite <- H.
    rewrite (Qred_complete (- x) (- y)); [reflexivity | now rewrite H].
  - rewrite (round64_of_pos Hx), (@round64_of_pos y) by now rewrite <- H.
    now rewrite (Qred_complete x y).
  - rewrite (round64_of_zero Hx), (@round64_of_zero y); [reflexivity | now rewrite <- H].
Qed.

Lemma round64_nonneg (q : Q) : 0 <= q -> 0 <= round64 q.
Proof.
  intros H. destruct (Qle_lt_or_eq _ _ H) as [Hpos | Hz].
  - rewrite (round64_of_pos Hpos), (Qred_correct (round64_pos _)). apply round64_pos_nonneg.
    now rewrite Qred_correct.
  - rewrite round64_of_zero; [apply Qle_refl | now symmetry].
Qed.

Lemma round64_opp (q : Q) : round64 (- q) == - round64 q.
Proof.
  destruct (Q_dec q 0) as [[Hq | Hq] | Hq].
  - assert (Hn : 0 < - q) by lra.
    rewrite (round64_of_pos Hn), (round64_of_neg Hq).
    rewrite (Qred_correct (round64_pos _)), (Qred_correct (- round64_pos _)). ring.
  - assert (Hn : - q < 0) by lra.
    rewrite (round64_of_neg Hn), (round64_of_pos Hq).
    rewrite (Qred_correct (round64_pos _)), (Qred_correct (- round64_pos _)).
    rewrite (Qred_complete (- - q) q) by ring. reflexivity.
  - rewrite (round64_of_zero Hq), round64_of_zero; [reflexivity | lra].
Qed.

Lemma round64_le_pos (x y : Q) : 0 < x -> x <= y -> round64 x <= round64 y.
Proof.
  intros Hx Hxy.
  assert (Hy : 0 < y) by (eapply Qlt_le_trans; eassumption).
  rewrite (round64_of_pos Hx), (round64_of_pos Hy).
  rewrite (Qred_correct (round64_pos (Qred x))), (Qred_correct (round64_pos (Qred y))).
  apply round64_pos_mono; rewrite ?(Qred_correct x), ?(Qred_correct y); assumption.
Qed.

(** Rounding is monotone. *)
Lemma round64_le (x y : Q) : x <= y -> round64 x <= round64 y.
Proof.
  intros Hxy.
  destruct (Qlt_le_dec 0 x) as [Hx | Hx].
  - now apply round64_le_pos.
  - destruct (Qlt_le_dec y 0) as [Hy | Hy].
    + assert (H : round64 (- y) <= round64 (- x)) by (apply round64_le_pos; lra).
      rewrite !round64_opp in H. lra.
    + apply Qle_trans with 0.
      * assert (H : 0 <= round64 (- x)) by (apply round64_nonneg; lra).
        rewrite round64_opp in H. lra.
      * now apply round64_nonneg.
Qed.

Lemma round64_between (q lo hi : Q) :
  round64 lo = lo -> round64 hi = hi -> lo <= q <= hi -> lo <= round64 q <= hi.
Proof.
  intros Hlo Hhi [H1 H2]. split.
  - rewrite <- Hlo. now apply round64_le.
  - rewrite <- Hhi. now apply round64_le.
Qed.

(* ================================================================== *)
(** * Properties: normalization *)
(* ================================================================== *)

(** C8 (idempotent normalization), evaluated on the source.  Normalizing
    [nested_literal] yields [replaced_literal], and normalizing that result
    once more yields a lone apostrophe: on this content
    [normalize (normalize s)] differs from [normalize s]. *)
Theorem normalize_content_twice_differs :
  let n := @_normalize_content simple_env in
  n nested_literal = replaced_literal
  /\ n (n nested_literal) = [39%N]
  /\ n (n nested_literal) <> n nested_literal.
Proof.
  cbv zeta.
  assert (H1 : @_normalize_content simple_env nested_literal = replaced_literal)
    by (vm_compute; reflexivity).
  assert (H2 : @_normalize_content simple_env replaced_literal = [39%N])
    by (vm_compute; reflexivity).
  rewrite H1, H2. repeat split. discriminate.
Qed.

(* ================================================================== *)
(** * Properties: similarity scoring *)
(* ================================================================== *)

Lemma Qltb_lt (a b : Q) : Qltb a b = true <-> a < b.
Proof.
  unfold Qltb. rewrite negb_true_iff. split.
  - intros H. apply Qnot_le_lt. intros Hle. apply Qle_bool_iff in Hle. congruence.
  - intros H. destruct (Qle_bool b a) eqn:Hb; [|reflexivity].
    apply Qle_bool_iff in Hb. exfalso. eapply Qlt_not_le; eauto.
Qed.

Lemma Qltb_ge (a b : Q) : Qltb a b = false <-> b <= a.
Proof.
  unfold Qltb. rewrite negb_false_iff. apply Qle_bool_iff.
Qed.

Lemma int_kind_num (v : pyval) : is_float v = false -> num_of v = inject_Z (int_of v).
Proof. destruct v as [z | q | [|]]; simpl; intros H; try discriminate; reflexivity. Qed.

(** Where the divisor is not zero, [_calculate_structure_similarity] is the
    documented ratio of the two word counts, rounded after the division
    and after the subtraction. *)
Lemma structure_similarity_counts (a b : Z) :
  (0 <= a)%Z -> (0 <= b)%Z -> (0 < Z.max a b)%Z ->
  _calculate_structure_similarity (word_count_only a) (word_count_only b)
  = Ok (fsub 1 (int_truediv (Z.abs (a - b)) (Z.max a b))).
Proof.
  intros Ha Hb Hmax. unfold _calculate_structure_similarity, word_count_only.
  cbn [dict_get]. replace (str_eqb (py "word_count") (py "word_count")) with true
    by (symmetry; apply str_eqb_refl).
  unfold py_sub, py_abs, py_max_val, py_div. cbn [is_float orb int_of num_of].
  destruct (Qltb (inject_Z a) (inject_Z b)) eqn:Hlt; cbn [is_float orb int_of num_of].
  - apply Qltb_lt in Hlt. rewrite <- Zlt_Qlt in Hlt.
    destruct (Qeq_bool (inject_Z b) 0) eqn:Hz.
    + apply Qeq_bool_iff in Hz. unfold Qeq in Hz. simpl in Hz. lia.
    + cbn [rbind]. now rewrite Z.max_r by lia.
  - apply Qltb_ge in Hlt. rewrite <- Zle_Qle in Hlt.
    destruct (Qeq_bool (inject_Z a) 0) eqn:Hz.
    + apply Qeq_bool_iff in Hz. unfold Qeq in Hz. simpl in Hz. lia.
    + cbn [rbind]. now rewrite Z.max_l by lia.
Qed.

(** C7 (structure similarity is total), evaluated on the source.  With both
    word counts present and equal to 0 the divisor
    [max(struct1.get('word_count', 1), struct2.get('word_count', 1))] is 0:
    the default 1 only replaces a missing key.  The division raises instead
    of giving 1.0. *)
Theorem structure_similarity_zero_counts_raises :
  _calculate_structure_similarity (word_count_only 0) (word_count_only 0)
  = Raise ZeroDivisionError.
Proof. reflexivity. Qed.

Section SimilarityFacts.

Context {E : PyEnv}.

(** The weighted combination, whenever the structure component returns:
    each product and each sum is rounded. *)
Lemma calculate_similarity_weighted (fp1 fp2 : Fingerprint) (structure_sim : Q) :
  _calculate_structure_similarity (content_structure fp1) (content_structure fp2)
  = Ok structure_sim ->
  _calculate_similarity fp1 fp2
  = fadd (fadd (fadd (fmul (_calculate_word_similarity (key_words fp1) (key_words fp2))
                        (float 0.4))
                  (fmul (_calculate_sentence_similarity (key_sentences fp1)
                           (key_sentences fp2))
                        (float 0.3)))
            (fmul (_calculate_topic_similarity (topic_indicators fp1)
                     (topic_indicators fp2))
                  (float 0.2)))
      (fmul structure_sim (float 0.1)).
Proof.
  intros H. unfold _calculate_similarity, calculate_similarity_body.
  rewrite H. reflexivity.
Qed.

(** The Jaccard components and the sentence component are 0 as soon as one
    of the two lists is empty. *)
Lemma word_similarity_empty (words1 words2 : list pystr) :
  words1 = [] \/ words2 = [] -> _calculate_word_similarity words1 words2 = 0.
Proof. intros [-> | ->]; [reflexivity | now destruct words1]. Qed.

Lemma topic_similarity_empty (topics1 topics2 : list pystr) :
  topics1 = [] \/ topics2 = [] -> _calculate_topic_similarity topics1 topics2 = 0.
Proof. intros [-> | ->]; [reflexivity | now destruct topics1]. Qed.

Lemma sentence_similarity_empty (sentences1 sentences2 : list pystr) :
  sentences1 = [] \/ sentences2 = [] ->
  _calculate_sentence_similarity sentences1 sentences2 = 0.
Proof. intros [-> | ->]; [reflexivity | now destruct sentences1]. Qed.

End SimilarityFacts.

(** C4 (the weighted formula), evaluated on the source.  For the
    fingerprints of two texts without words, built by the fallback path or
    by the main path, the structure component raises [ZeroDivisionError]
    inside [_calculate_similarity], whose handler returns 0.0: the result is
    not the weighted sum, whose structure term alone would contribute 0.1. *)
Theorem similarity_of_wordless_texts_is_zero :
  (forall E : PyEnv,
      @calculate_similarity_body E empty_text_fingerprint empty_text_fingerprint
      = Raise ZeroDivisionError
      /\ @_calculate_similarity E empty_text_fingerprint empty_text_fingerprint = 0)
  /\ @calculate_similarity_body simple_env empty_fingerprint empty_fingerprint
     = Raise ZeroDivisionError
  /\ @_calculate_similarity simple_env empty_fingerprint empty_fingerprint = 0.
Proof.
  split; [|split].
  - intros E. split; reflexivity.
  - vm_compute. reflexivity.
  - vm_compute. reflexivity.
Qed.

(* ------------------------------------------------------------------ *)
(** ** Symmetry *)

Lemma set_inter_length_comm (s1 s2 : list pystr) :
  NoDup s1 -> NoDup s2 -> length (set_inter s1 s2) = length (set_inter s2 s1).
Proof.
  intros H1 H2. apply Permutation_length, NoDup_Permutation.
  - now apply NoDup_filter.
  - now apply NoDup_filter.
  - intros x. unfold set_inter. rewrite !filter_In, !str_mem_In. tauto.
Qed.

Lemma set_union_length_comm (s1 s2 : list pystr) :
  length (set_union s1 s2) = length (set_union s2 s1).
Proof.
  apply Permutation_length, NoDup_Permutation; try apply NoDup_nodup.
  intros x. unfold set_union. rewrite !nodup_In, !in_app_iff. tauto.
Qed.

Lemma jaccard_comm (l1 l2 : list pystr) :
  (let intersection := len (set_inter (to_set l1) (to_set l2)) in
   let union := len (set_union (to_set l1) (to_set l2)) in
   if (0 <? union)%Z then int_truediv intersection union else 0)
  = (let intersection := len (set_inter (to_set l2) (to_set l1)) in
     let union := len (set_union (to_set l2) (to_set l1)) in
     if (0 <? union)%Z then int_truediv intersection union else 0).
Proof.
  cbv zeta. unfold len, to_set.
  rewrite (set_inter_length_comm (NoDup_nodup str_eq_dec l1) (NoDup_nodup str_eq_dec l2)).
  rewrite (set_union_length_comm (nodup str_eq_dec l1) (nodup str_eq_dec l2)).
  reflexivity.
Qed.

Lemma word_similarity_comm (words1 words2 : list pystr) :
  _calculate_word_similarity words1 words2 = _calculate_word_similarity words2 words1.
Proof.
  destruct words1 as [|a l1], words2 as [|b l2]; try reflexivity.
  unfold _calculate_word_similarity. apply jaccard_comm.
Qed.

Lemma topic_similarity_comm (topics1 topics2 : list pystr) :
  _calculate_topic_similarity topics1 topics2 = _calculate_topic_similarity topics2 topics1.
Proof.
  destruct topics1 as [|a l1], topics2 as [|b l2]; try reflexivity.
  unfold _calculate_topic_similarity. apply jaccard_comm.
Qed.

(** The running maximum kept by a loop. *)
Lemma py_max_ge_l (a b : Q) : a <= py_max a b.
Proof.
  unfold py_max. destruct (Qltb a b) eqn:H.
  - apply Qltb_lt in H. now apply Qlt_le_weak.
  - apply Qle_refl.
Qed.

Lemma py_max_ge_r (a b : Q) : b <= py_max a b.
Proof.
  unfold py_max. destruct (Qltb a b) eqn:H.
  - apply Qle_refl.
  - now apply Qltb_ge in H.
Qed.

Lemma py_max_cases (a b : Q) : py_max a b = a \/ py_max a b = b.
Proof. unfold py_max. destruct (Qltb a b); auto. Qed.

Lemma fold_max_ge_init (l : list Q) (m : Q) : m <= fold_left py_max l m.
Proof.
  revert m. induction l as [|x l IH]; intros m; simpl; [apply Qle_refl|].
  eapply Qle_trans; [apply (py_max_ge_l m x) | apply IH].
Qed.

Lemma fold_max_ge_elem (l : list Q) (m x : Q) : In x l -> x <= fold_left py_max l m.
Proof.
  revert m. induction l as [|y l IH]; intros m Hin; simpl; [contradiction|].
  destruct Hin as [-> | Hin].
  - eapply Qle_trans; [apply (py_max_ge_r m x) | apply fold_max_ge_init].
  - now apply IH.
Qed.

Lemma fold_max_attained (l : list Q) (m : Q) :
  fold_left py_max l m = m \/ In (fold_left py_max l m) l.
Proof.
  revert m. induction l as [|y l IH]; intros m; simpl; [now left|].
  destruct (IH (py_max m y)) as [H | H].
  - rewrite H. destruct (py_max_cases m y) as [-> | ->]; auto.
  - auto.
Qed.

Section Symmetry.

Context {E : PyEnv}.

Lemma inner_loop_fold (s1 : pystr) (sentences2 : list pystr) (m : Q) :
  fold_left
    (fun max_similarity s2 =>
       py_max max_similarity (sequence_ratio (str_lower s1) (str_lower s2)))
    sentences2 m
  = fold_left py_max
      (map (fun s2 => sequence_ratio (str_lower s1) (str_lower s2)) sentences2) m.
Proof.
  revert m. induction sentences2 as [|s2 l IH]; intros m; simpl; [reflexivity|].
  apply IH.
Qed.

Lemma nested_loops_fold (sentences1 sentences2 : list pystr) (m : Q) :
  fold_left
    (fun max_similarity s1 =>
       fold_left
         (fun max_similarity s2 =>
            py_max max_similarity (sequence_ratio (str_lower s1) (str_lower s2)))
         sentences2 max_similarity)
    sentences1 m
  = fold_left py_max (pair_ratios sentences1 sentences2) m.
Proof.
  revert m. induction sentences1 as [|s1 l IH]; intros m; simpl; [reflexivity|].
  rewrite fold_left_app, IH, inner_loop_fold. reflexivity.
Qed.

Lemma in_pair_ratios (q : Q) (sentences1 sentences2 : list pystr) :
  In q (pair_ratios sentences1 sentences2) <->
  exists s1 s2, In s1 sentences1 /\ In s2 sentences2
                /\ q = sequence_ratio (str_lower s1) (str_lower s2).
Proof.
  unfold pair_ratios. rewrite in_flat_map. split.
  - intros (s1 & H1 & Hq). apply in_map_iff in Hq as (s2 & Hq & H2).
    exists s1, s2. auto.
  - intros (s1 & s2 & H1 & H2 & ->). exists s1. split; [assumption|].
    apply in_map_iff. exists s2. auto.
Qed.

Lemma fold_pairs_le (sentences1 sentences2 : list pystr) :
  (forall s1 s2, In s1 sentences1 -> In s2 sentences2 ->
     sequence_ratio (str_lower s1) (str_lower s2)
     == sequence_ratio (str_lower s2) (str_lower s1)) ->
  fold_left py_max (pair_ratios sentences1 sentences2) 0
  <= fold_left py_max (pair_ratios sentences2 sentences1) 0.
Proof.
  intros Hsym.
  destruct (fold_max_attained (pair_ratios sentences1 sentences2) 0) as [H | H].
  - rewrite H. apply fold_max_ge_init.
  - apply in_pair_ratios in H as (s1 & s2 & H1 & H2 & Hq). rewrite Hq.
    rewrite (Hsym s1 s2 H1 H2). apply fold_max_ge_elem.
    apply in_pair_ratios. exists s2, s1. auto.
Qed.

Lemma sentence_similarity_comm (sentences1 sentences2 : list pystr) :
  (forall s1 s2, In s1 sentences1 -> In s2 sentences2 ->
     sequence_ratio (str_lower s1) (str_lower s2)
     == sequence_ratio (str_lower s2) (str_lower s1)) ->
  _calculate_sentence_similarity sentences1 sentences2
  == _calculate_sentence_similarity sentences2 sentences1.
Proof.
  intros Hsym. unfold _calculate_sentence_similarity.
  destruct sentences1 as [|a l1] eqn:E1, sentences2 as [|b l2] eqn:E2;
    try reflexivity.
  rewrite <- E1, <- E2 in *. rewrite !nested_loops_fold.
  apply Qle_antisym; apply fold_pairs_le; [assumption|].
  intros s2 s1 H2 H1. symmetry. now apply Hsym.
Qed.

End Symmetry.

(** The two arguments of [max] may be swapped as far as the number goes. *)
Lemma py_max_val_comm (a b : pyval) :
  num_of (py_max_val a b) == num_of (py_max_val b a).
Proof.
  unfold py_max_val.
  destruct (Qltb (num_of a) (num_of b)) eqn:Hab, (Qltb (num_of b) (num_of a)) eqn:Hba;
    try reflexivity.
  - apply Qltb_lt in Hab, Hba. exfalso. apply (Qlt_irrefl (num_of a)).
    now apply Qlt_trans with (num_of b).
  - apply Qltb_ge in Hab, Hba. now apply Qle_antisym.
Qed.

Lemma py_max_val_kind (a b : pyval) :
  is_float (py_max_val a b) = is_float a \/ is_float (py_max_val a b) = is_float b.
Proof. unfold py_max_val. destruct (Qltb _ _); auto. Qed.

Lemma abs_sub_kind (a b : pyval) :
  is_float (py_abs (py_sub a b)) = is_float a || is_float b.
Proof. unfold py_sub. now destruct (is_float a || is_float b). Qed.

Lemma abs_sub_comm (a b : pyval) :
  num_of (py_abs (py_sub a b)) == num_of (py_abs (py_sub b a)).
Proof.
  unfold py_sub. rewrite (orb_comm (is_float b)).
  destruct (is_float a || is_float b); cbn [py_abs num_of int_of].
  - unfold fsub.
    assert (H : float_of b - float_of a == - (float_of a - float_of b)) by ring.
    now rewrite (round64_comp H), round64_opp, Qabs_opp.
  - now rewrite <- Z.abs_opp, Z.opp_sub_distr, Z.add_comm, Z.add_opp_r.
Qed.

Lemma dict_get_kind (key : pystr) (d : dict) (a b : pyval) :
  is_float a = is_float b -> is_float (dict_get key d a) = is_float (dict_get key d b).
Proof.
  intros H. induction d as [|[k v] d IH]; cbn [dict_get]; [exact H|].
  now destruct (str_eqb k key).
Qed.

(** Division by the larger of two counts, after their difference: the
    counts may be swapped. *)
Lemma py_div_comm (x0 y0 x1 y1 : pyval) :
  is_float x1 = is_float x0 -> is_float y1 = is_float y0 ->
  py_div (py_abs (py_sub x0 y0)) (py_max_val x1 y1)
  = py_div (py_abs (py_sub y0 x0)) (py_max_val y1 x1).
Proof.
  intros Hx Hy. unfold py_div.
  rewrite (Qeqb_comp _ _ (py_max_val_comm y1 x1) 0 0 (Qeq_refl 0)).
  destruct (Qeq_bool (num_of (py_max_val x1 y1)) 0); [reflexivity|].
  rewrite !abs_sub_kind.
  assert (Hkind : forall m, (is_float m = is_float x1 \/ is_float m = is_float y1) ->
            is_float x0 || is_float y0 || is_float m = is_float x0 || is_float y0).
  { intros m [-> | ->]; rewrite ?Hx, ?Hy; destruct (is_float x0), (is_float y0); reflexivity. }
  rewrite (Hkind _ (py_max_val_kind x1 y1)).
  rewrite (orb_comm (is_float y0)).
  rewrite (Hkind (py_max_val y1 x1)) by (destruct (py_max_val_kind y1 x1); auto).
  destruct (is_float x0 || is_float y0) eqn:Hfloat.
  - f_equal. unfold float_of. apply round64_comp.
    rewrite (round64_comp (abs_sub_comm x0 y0)).
    now rewrite (round64_comp (py_max_val_comm x1 y1)).
  - f_equal. f_equal.
    + pose proof (abs_sub_comm x0 y0) as H.
      rewrite !int_kind_num in H
        by (rewrite abs_sub_kind; first [exact Hfloat | rewrite orb_comm; exact Hfloat]).
      unfold Qeq in H. simpl in H. lia.
    + apply orb_false_iff in Hfloat as [H0 H1].
      pose proof (py_max_val_comm x1 y1) as H.
      rewrite !int_kind_num in H
        by (unfold py_max_val; destruct (Qltb _ _); congruence).
      unfold Qeq in H. simpl in H. lia.
Qed.

Lemma structure_similarity_comm (struct1 struct2 : dict) :
  _calculate_structure_similarity struct1 struct2
  = _calculate_structure_similarity struct2 struct1.
Proof.
  destruct struct1 as [|kv1 d1], struct2 as [|kv2 d2]; try reflexivity.
  unfold _calculate_structure_similarity.
  rewrite (@py_div_comm (dict_get (py "word_count") (kv1 :: d1) (PInt 0))
             (dict_get (py "word_count") (kv2 :: d2) (PInt 0))
             (dict_get (py "word_count") (kv1 :: d1) (PInt 1))
             (dict_get (py "word_count") (kv2 :: d2) (PInt 1)));
    [reflexivity | |]; now apply dict_get_kind.
Qed.

(** Rounded sums and products of equal numbers are equal. *)
Lemma fadd_comp (a a' b b' : Q) : a == a' -> b == b' -> fadd a b = fadd a' b'.
Proof. intros Ha Hb. apply round64_comp. now rewrite Ha, Hb. Qed.

Lemma fmul_comp (a a' b : Q) : a == a' -> fmul a b = fmul a' b.
Proof. intros Ha. apply round64_comp. now rewrite Ha. Qed.

(** C9 (symmetry of the score), as the code has it: the score is symmetric
    for every pair of fingerprints on whose key sentences the sequence
    ratio is symmetric.  The word, topic and structure components are
    symmetric without condition. *)
Theorem similarity_symmetric_when_ratio_is
    {E : PyEnv} (fpA fpB : Fingerprint) :
  (forall s1 s2, In s1 (key_sentences fpA) -> In s2 (key_sentences fpB) ->
     sequence_ratio (str_lower s1) (str_lower s2)
     == sequence_ratio (str_lower s2) (str_lower s1)) ->
  _calculate_similarity fpA fpB == _calculate_similarity fpB fpA.
Proof.
  intros Hsym. unfold _calculate_similarity, calculate_similarity_body.
  rewrite (word_similarity_comm (key_words fpB) (key_words fpA)).
  rewrite (topic_similarity_comm (topic_indicators fpB) (topic_indicators fpA)).
  pose proof (sentence_similarity_comm (key_sentences fpA) (key_sentences fpB) Hsym) as Hs.
  rewrite (structure_similarity_comm (content_structure fpB) (content_structure fpA)).
  destruct (_calculate_structure_similarity (content_structure fpA) (content_structure fpB));
    cbn [rbind try_except]; [|reflexivity].
  rewrite (fmul_comp (float 0.3) Hs). reflexivity.
Qed.

(** The documented example of difflib: the ratio of "tide" to "diet" is
    0.25 and that of "diet" to "tide" is 0.5. *)
Lemma ratio_tide_diet :
  Difflib.ratio (py "tide") (py "diet") == 0.25
  /\ Difflib.ratio (py "diet") (py "tide") == 0.5.
Proof. split; vm_compute; reflexivity. Qed.

(** C9 as stated fails: the fingerprints of the texts "tide" and "diet"
    score 0.175 in one order and 0.25 in the other. *)
Lemma similarity_not_symmetric :
  @_calculate_similarity simple_env tide_fingerprint diet_fingerprint == float 0.175
  /\ @_calculate_similarity simple_env diet_fingerprint tide_fingerprint == 0.25
  /\ ~ (@_calculate_similarity simple_env tide_fingerprint diet_fingerprint
        == @_calculate_similarity simple_env diet_fingerprint tide_fingerprint).
Proof.
  assert (H1 : @_calculate_similarity simple_env tide_fingerprint diet_fingerprint
               == float 0.175)
    by (vm_compute; reflexivity).
  assert (H2 : @_calculate_similarity simple_env diet_fingerprint tide_fingerprint == 0.25)
    by (vm_compute; reflexivity).
  repeat split; try assumption.
  rewrite H1, H2. intros H. vm_compute in H. discriminate.
Qed.

(** The symmetric case at work: "abcd" and "bcde" have ratio 0.75 in both
    orders. *)
Lemma similarity_symmetric_witness :
  @_calculate_similarity simple_env abcd_fingerprint bcde_fingerprint
  == @_calculate_similarity simple_env bcde_fingerprint abcd_fingerprint.
Proof.
  apply (@similarity_symmetric_when_ratio_is simple_env abcd_fingerprint bcde_fingerprint).
  intros s1 s2 H1 H2. vm_compute in H1, H2.
  destruct H1 as [<- | []], H2 as [<- | []]. vm_compute. reflexivity.
Defined.

(* ================================================================== *)
(** * Properties: the semantic check *)
(* ================================================================== *)

Section SemanticCheck.

Context {E : PyEnv}.

(** The loop returns at the first entry that reaches the threshold, as long
    as the running maximum is still below it. *)
Lemma scan_stored_first_crossing (threshold : Q) (fingerprint : Fingerprint)
    (before : list (pystr * Fingerprint)) (stored_id : pystr) (stored : Fingerprint)
    (after : list (pystr * Fingerprint)) (max_similarity : Q) (most_similar_id : pystr) :
  max_similarity < threshold ->
  Forall (fun kv => _calculate_similarity fingerprint (snd kv) < threshold) before ->
  threshold <= _calculate_similarity fingerprint stored ->
  scan_stored threshold fingerprint (before ++ (stored_id, stored) :: after)
    max_similarity most_similar_id
  = (true, py "semantic_similar_to_" ++ stored_id,
     _calculate_similarity fingerprint stored).
Proof.
  revert max_similarity most_similar_id.
  induction before as [|[k fp] before IH]; intros m mid Hm Hbefore Hcross.
  - cbn [app scan_stored].
    replace (Qltb m (_calculate_similarity fingerprint stored)) with true.
    + replace (Qle_bool threshold (_calculate_similarity fingerprint stored)) with true;
        [reflexivity|]. symmetry. now apply Qle_bool_iff.
    + symmetry. apply Qltb_lt. now apply Qlt_le_trans with threshold.
  - inversion Hbefore as [|? ? Hk Hrest]; subst. cbn [snd] in Hk.
    cbn [app scan_stored].
    replace (Qle_bool threshold (_calculate_similarity fingerprint fp)) with false.
    + destruct (Qltb m (_calculate_similarity fingerprint fp)); now apply IH.
    + symmetry. destruct (Qle_bool threshold (_calculate_similarity fingerprint fp)) eqn:Hle;
        [|reflexivity].
      apply Qle_bool_iff in Hle. exfalso. eapply Qlt_not_le; eauto.
Qed.

Lemma keeps_config_ret {A} (a : A) : keeps_config (ret a).
Proof. intros eng. reflexivity. Qed.

Lemma keeps_config_lift {A} (r : result A) : keeps_config (lift r).
Proof. intros eng. reflexivity. Qed.

Lemma keeps_config_get : keeps_config get.
Proof. intros eng. reflexivity. Qed.

Lemma keeps_config_redis {A} (cmd : Redis -> result A * Redis) : keeps_config (redis cmd).
Proof.
  intros eng. unfold redis. destruct (redis_client eng) as [r|]; [|reflexivity].
  destruct (cmd r). reflexivity.
Qed.

Lemma keeps_config_bind {A B} (m : M A) (k : A -> M B) :
  keeps_config m -> (forall a, keeps_config (k a)) -> keeps_config (bind m k).
Proof.
  intros Hm Hk eng. unfold bind. specialize (Hm eng).
  destruct (m eng) as [[a | e] eng']; cbn [snd] in *.
  - now rewrite Hk.
  - assumption.
Qed.

Lemma keeps_config_try {A} (m : M A) (h : exn -> M A) :
  keeps_config m -> (forall e, keeps_config (h e)) -> keeps_config (try_ m h).
Proof.
  intros Hm Hh eng. unfold try_. specialize (Hm eng).
  destruct (m eng) as [[a | e] eng']; cbn [snd] in *.
  - assumption.
  - now rewrite Hh.
Qed.

Lemma keeps_config_load (now : Z) (keys : list pystr)
    (fingerprints : list (pystr * Fingerprint)) :
  keeps_config (load_fingerprints now keys fingerprints).
Proof.
  revert fingerprints. induction keys as [|key keys IH]; intros fps; cbn [load_fingerprints].
  - apply keeps_config_ret.
  - apply keeps_config_bind; [apply keeps_config_redis|]. intros data.
    destruct (truthy data); [|apply IH].
    apply keeps_config_bind; [apply keeps_config_lift|]. intros cid.
    apply keeps_config_bind; [apply keeps_config_lift|]. intros fp. apply IH.
Qed.

Lemma keeps_config_get_stored (now : Z) : keeps_config (_get_stored_fingerprints now).
Proof.
  apply keeps_config_try; [|intros; apply keeps_config_ret].
  intros eng. unfold bind, get. cbn [snd].
  destruct (redis_client eng) eqn:Hr.
  - pose proof (@keeps_config_bind _ _ (redis (redis_keys now (py "fingerprint:")))
                  (fun keys => load_fingerprints now keys [])
                  (keeps_config_redis _) (fun keys => keeps_config_load now keys [])) as H.
    apply H.
  - reflexivity.
Qed.

(** C3 (threshold boundary), as the code has it: for a positive threshold,
    the first stored entry whose similarity to the incoming fingerprint
    reaches the threshold (equality included) is reported as the duplicate,
    with its identifier and its score. *)
Theorem semantic_check_reports_first_crossing
    (now : Z) (fingerprint : Fingerprint) (content_id : pystr) (eng : Engine)
    (before : list (pystr * Fingerprint)) (stored_id : pystr) (stored : Fingerprint)
    (after : list (pystr * Fingerprint)) :
  0 < similarity_threshold (config eng) ->
  fst (_get_stored_fingerprints now eng) = Ok (before ++ (stored_id, stored) :: after) ->
  Forall (fun kv => _calculate_similarity fingerprint (snd kv)
                    < similarity_threshold (config eng)) before ->
  similarity_threshold (config eng) <= _calculate_similarity fingerprint stored ->
  fst (_check_semantic_similarity now fingerprint content_id eng)
  = Ok (true, py "semantic_similar_to_" ++ stored_id,
        _calculate_similarity fingerprint stored).
Proof.
  intros Hpos Hstored Hbefore Hcross.
  pose proof (keeps_config_get_stored now eng) as Hcfg.
  unfold _check_semantic_similarity, try_, bind, get, ret.
  destruct (_get_stored_fingerprints now eng) as [[l | e] eng'];
    cbn [fst snd] in *; [|discriminate].
  injection Hstored as ->. rewrite Hcfg.
  now rewrite scan_stored_first_crossing.
Qed.

End SemanticCheck.

(** The theorem at work: with the default threshold 0.8 a second text
    "robot" scores 0.9999999999999999 against the stored one, the four
    weights added in doubles. *)
Lemma semantic_check_witness :
  fst (@_check_semantic_similarity simple_env 1 robot_fingerprint (py "__robot")
         robot_engine)
  = Ok (true, py "semantic_similar_to___robot",
        @_calculate_similarity simple_env robot_fingerprint robot_fingerprint).
Proof.
  apply (@semantic_check_reports_first_crossing simple_env 1 robot_fingerprint
           (py "__robot") robot_engine [] (py "__robot") robot_fingerprint []).
  - vm_compute. reflexivity.
  - vm_compute. reflexivity.
  - constructor.
  - vm_compute. discriminate.
Defined.

(** C3 as stated fails for the threshold 0: the stored text "a b c d e" and
    the incoming empty text have similarity 0, equal to the threshold, and
    the check answers "semantically_unique". *)
Lemma zero_threshold_pair_not_flagged :
  (exists stored_id stored,
      content_fingerprints zero_threshold_engine = [(stored_id, stored)]
      /\ @_calculate_similarity simple_env empty_fingerprint stored
         == similarity_threshold (config zero_threshold_engine))
  /\ fst (@_check_semantic_similarity simple_env 1 empty_fingerprint (py "__")
            zero_threshold_engine)
     = Ok (false, py "semantically_unique", 0).
Proof.
  split.
  - eexists. eexists. split; [vm_compute; reflexivity|]. vm_compute. reflexivity.
  - vm_compute. reflexivity.
Qed.

(* ================================================================== *)
(** * Properties: the fingerprint *)
(* ================================================================== *)

Section FingerprintFacts.

Context {E : PyEnv}.

(** C10 (substring matching of topic indicators), as the code has it: a
    vocabulary term that occurs anywhere in the lower-cased text, inside a
    longer word or not, is a topic indicator, provided fewer than ten
    vocabulary terms listed before it occur in the text as well. *)
Theorem topic_indicator_by_substring
    (content : pystr) (earlier : list pystr) (term : pystr) (later : list pystr) :
  tech_indicators = earlier ++ term :: later ->
  str_contains term (str_lower content) = true ->
  (length (filter (fun indicator => str_contains indicator (str_lower content)) earlier)
   < 10)%nat ->
  In term (_extract_topic_indicators content).
Proof.
  intros Hvocab Hin Hfew. unfold _extract_topic_indicators. rewrite Hvocab.
  rewrite filter_app. cbn [filter]. rewrite Hin.
  set (found := filter _ earlier) in *.
  rewrite firstn_app. apply in_or_app. right.
  destruct (10 - length found)%nat eqn:Hn; [lia|].
  cbn [firstn]. now left.
Qed.

(** C6 (the readability field), as the code has it: the field is 50 when
    the analysis fails, 0 for an empty or blank text whose analysis
    succeeds, and the readability score otherwise. *)
Theorem reading_ease_by_case (content : pystr) :
  (forall e, sent_tokenize content = Raise e ->
     reading_ease (create_semantic_fingerprint content) = 50)
  /\ (forall e, str_strip content <> [] -> flesch_reading_ease content = Raise e ->
        reading_ease (create_semantic_fingerprint content) = 50)
  /\ (forall sentences, sent_tokenize content = Ok sentences -> str_strip content = [] ->
        reading_ease (create_semantic_fingerprint content) = 0)
  /\ (forall sentences score, sent_tokenize content = Ok sentences ->
        str_strip content <> [] -> flesch_reading_ease content = Ok score ->
        reading_ease (create_semantic_fingerprint content) = score).
Proof.
  unfold create_semantic_fingerprint, semantic_fingerprint_body.
  repeat split.
  - intros e He. rewrite He. reflexivity.
  - intros e Hne He. destruct (sent_tokenize content); [|reflexivity].
    cbn [rbind]. destruct (str_strip content); [contradiction|].
    rewrite He. reflexivity.
  - intros sentences Hs Hblank. rewrite Hs, Hblank. reflexivity.
  - intros sentences score Hs Hne Hscore. rewrite Hs. cbn [rbind].
    destruct (str_strip content); [contradiction|]. rewrite Hscore. reflexivity.
Qed.

End FingerprintFacts.

(** The example of the claim: "ai" inside "said". *)
Lemma topic_indicator_witness :
  In (py "ai") (@_extract_topic_indicators simple_env (py "She said hello")).
Proof.
  apply (@topic_indicator_by_substring simple_env (py "She said hello") [] (py "ai")
           (tl tech_indicators)).
  - reflexivity.
  - vm_compute. reflexivity.
  - simpl. lia.
Defined.

(** C10 as stated fails: "server" occurs in the text, inside "observers",
    and is a vocabulary term, but ten earlier terms fill the list. *)
Lemma eleventh_indicator_dropped :
  In (py "server") tech_indicators
  /\ str_contains (py "server") (@str_lower simple_env crowded_text) = true
  /\ ~ In (py "server") (@_extract_topic_indicators simple_env crowded_text).
Proof.
  split; [|split].
  - apply str_mem_In. vm_compute. reflexivity.
  - vm_compute. reflexivity.
  - intros H. apply str_mem_In in H. vm_compute in H. discriminate.
Qed.

(** The two defaults at work: 50 without the NLTK data, 0 for a blank text
    with working analysis. *)
Lemma reading_ease_witness :
  reading_ease (@create_semantic_fingerprint no_nltk_env (py "Breaking news.")) = 50
  /\ reading_ease (@create_semantic_fingerprint simple_env (py "   ")) = 0.
Proof.
  split.
  - apply (proj1 (@reading_ease_by_case no_nltk_env (py "Breaking news.")) LookupError).
    reflexivity.
  - apply (proj1 (proj2 (proj2 (@reading_ease_by_case simple_env (py "   ")))) []).
    + vm_compute. reflexivity.
    + vm_compute. reflexivity.
Defined.

(** C6 as stated fails: the empty text, analysed without any failure, has
    readability 0, not 50. *)
Lemma empty_text_reading_ease :
  @semantic_fingerprint_body simple_env [] = Ok empty_fingerprint
  /\ reading_ease (@create_semantic_fingerprint simple_env []) = 0
  /\ ~ (reading_ease (@create_semantic_fingerprint simple_env []) == 50).
Proof.
  split; [|split].
  - vm_compute. reflexivity.
  - vm_compute. reflexivity.
  - vm_compute. discriminate.
Qed.

(* ================================================================== *)
(** * Properties: the duplicate check *)
(* ================================================================== *)

(** Symbolic execution of engine methods on a state whose shape is known. *)
Ltac run := cbn -[create_semantic_fingerprint create_content_hash url_md5 firstn
                  timedelta_hours].

Ltac exec :=
  cbv beta iota zeta delta
    [bind get ret lift try_ modify redis redis_exists redis_setex redis_get
     redis_command take_fault _is_hash_duplicate _store_content_hash
     _get_stored_fingerprints _check_semantic_similarity _store_fingerprint
     _is_url_duplicate _store_processed_url _record_processed_item
     url_stage semantic_stage set_redis set_content_hashes set_content_fingerprints
     set_processed_items config redis_client content_hashes content_fingerprints
     processed_items entries faults issued];
  run.

(** ** The sweep *)

Lemma timedelta_hours_seconds (hours seconds : Z) :
  timedelta_hours hours = Ok seconds -> seconds = (hours * 3600)%Z.
Proof.
  unfold timedelta_hours. destruct (_ || _); [discriminate|]. now intros [= <-].
Qed.

Lemma unexpired_fits (now hours seconds : Z) (items : list (pystr * Z)) :
  timedelta_hours hours = Ok seconds ->
  unexpired now hours items
  = Ok (filter (fun kv => negb (seconds <? now - snd kv)%Z) items).
Proof.
  intros Hfits. induction items as [|[key timestamp] items IH]; [reflexivity|].
  cbn [unexpired filter snd]. rewrite Hfits, IH. cbn [rbind].
  now destruct (seconds <? now - timestamp)%Z.
Qed.

Lemma unexpired_overflow (now hours : Z) (item : pystr * Z) (items : list (pystr * Z))
    (e : exn) :
  timedelta_hours hours = Raise e -> unexpired now hours (item :: items) = Raise e.
Proof. intros Hraise. destruct item as [key timestamp]. cbn [unexpired]. now rewrite Hraise. Qed.

Section DuplicateCheck.

Context {E : PyEnv}.

(** In memory the sweep drops the expired URLs and trims the fingerprint
    table, or, when the comprehension raises, leaves everything as it
    is. *)
Lemma clean_local (cfg : Config) (hs : list pystr) (fps : list (pystr * Fingerprint))
    (pis : list (pystr * Z)) (now : Z) :
  _clean_expired_entries now
    {| config := cfg; redis_client := None; content_hashes := hs;
       content_fingerprints := fps; processed_items := pis |}
  = (Ok tt,
     match unexpired now (time_window_hours cfg) pis with
     | Ok kept =>
         {| config := cfg; redis_client := None; content_hashes := hs;
            content_fingerprints :=
              if (10000 <? len fps)%Z then skipn (Z.to_nat 5000) fps else fps;
            processed_items := kept |}
     | Raise _ =>
         {| config := cfg; redis_client := None; content_hashes := hs;
            content_fingerprints := fps; processed_items := pis |}
     end).
Proof.
  unfold _clean_expired_entries, bind, get, try_, modify, ret, lift.
  cbn [redis_client config processed_items content_fingerprints set_processed_items
       set_content_fingerprints content_hashes].
  destruct (unexpired now (time_window_hours cfg) pis); [|reflexivity].
  destruct (10000 <? len fps)%Z; reflexivity.
Qed.

(** Whatever the sweep does, it returns, and it leaves the configuration,
    the backend and the hash set alone. *)
Lemma clean_local_hashes (cfg : Config) (hs : list pystr) (fps : list (pystr * Fingerprint))
    (pis : list (pystr * Z)) (now : Z) :
  exists fps' pis',
    _clean_expired_entries now
      {| config := cfg; redis_client := None; content_hashes := hs;
         content_fingerprints := fps; processed_items := pis |}
    = (Ok tt,
       {| config := cfg; redis_client := None; content_hashes := hs;
          content_fingerprints := fps'; processed_items := pis' |}).
Proof.
  rewrite clean_local. destruct (unexpired now (time_window_hours cfg) pis); eauto.
Qed.

(** The first submission to an empty in-memory engine. *)
Lemma local_first_call (cfg : Config) (now : Z) (content title url h : pystr) :
  content_hash_enabled cfg = true ->
  create_content_hash content = Ok h ->
  let eng := {| config := cfg; redis_client := None; content_hashes := [];
                content_fingerprints := []; processed_items := [] |} in
  fst (is_duplicate now content title url eng) = (false, py "unique", 0)
  /\ config (snd (is_duplicate now content title url eng)) = cfg
  /\ redis_client (snd (is_duplicate now content title url eng)) = None
  /\ content_hashes (snd (is_duplicate now content title url eng)) = [h].
Proof.
  intros Hen Hh eng. subst eng.
  unfold is_duplicate, is_duplicate_body.
  set (cid := title ++ _).
  run. rewrite Hen, Hh. run.
  destruct (semantic_analysis cfg); run.
  - destruct url as [|c url]; run.
    + repeat split.
    + destruct (url_md5 (c :: url)) as [uh|e] eqn:Hu; exec; rewrite ?Hu; run;
        repeat split.
  - destruct url as [|c url]; run.
    + repeat split.
    + destruct (url_md5 (c :: url)) as [uh|e] eqn:Hu; exec; rewrite ?Hu; run;
        repeat split.
Qed.

(** A hash held by the in-memory set is found whatever the clock says: the
    sweep of [_clean_expired_entries] does not touch [content_hashes]. *)
Lemma local_hash_hit (eng : Engine) (now : Z) (content title url h : pystr) :
  content_hash_enabled (config eng) = true ->
  redis_client eng = None ->
  create_content_hash content = Ok h ->
  str_mem h (content_hashes eng) = true ->
  fst (is_duplicate now content title url eng) = (true, py "exact_duplicate", 1).
Proof.
  intros Hen Hr Hh Hmem.
  destruct eng as [cfg rc hs fps pis]. cbn in Hen, Hr, Hmem. subst rc.
  unfold is_duplicate, is_duplicate_body.
  set (cid := title ++ _).
  unfold bind at 1.
  destruct (clean_local_hashes cfg hs fps pis now) as (fps' & pis' & ->).
  run. rewrite Hen, Hh. run. rewrite Hmem. reflexivity.
Qed.

(** A hash key that is alive on a healthy server is found. *)
Lemma redis_hash_hit (eng : Engine) (r : Redis) (now : Z) (content title url h : pystr) :
  content_hash_enabled (config eng) = true ->
  redis_client eng = Some r ->
  (forall n, faults r n = false) ->
  create_content_hash content = Ok h ->
  existsb (fun e => str_eqb (fst e) (py "hash:" ++ h) && live now e) (entries r) = true ->
  fst (is_duplicate now content title url eng) = (true, py "exact_duplicate", 1).
Proof.
  intros Hen Hr Hf Hh Hlive.
  destruct eng as [cfg rc hs fps pis]. cbn in Hen, Hr. subst rc.
  destruct r as [ents f n]. cbn in Hf, Hlive.
  unfold is_duplicate, is_duplicate_body.
  set (cid := title ++ _).
  run. rewrite Hen, Hh.
  exec. rewrite Hf. exec. rewrite Hlive. reflexivity.
Qed.

(* ------------------------------------------------------------------ *)
(** ** Failing open *)

Lemma total_ret {A} (a : A) : total (ret a).
Proof. intros eng. now exists a, eng. Qed.

Lemma total_get : total get.
Proof. intros eng. now exists eng, eng. Qed.

Lemma total_bind {A B} (m : M A) (k : A -> M B) :
  total m -> (forall a, total (k a)) -> total (bind m k).
Proof.
  intros Hm Hk eng. unfold bind. destruct (Hm eng) as (a & eng' & ->). apply Hk.
Qed.

(** A method whose whole body sits in a [try] with a returning handler. *)
Lemma total_try {A} (m : M A) (fallback : A) : total (try_ m (fun _ => ret fallback)).
Proof.
  intros eng. unfold try_, ret. destruct (m eng) as [[a | e] eng']; eauto.
Qed.

Lemma total_clean (now : Z) : total (_clean_expired_entries now).
Proof.
  apply total_bind; [apply total_get|]. intros eng.
  destruct (redis_client eng); [apply total_ret | apply total_try].
Qed.

Lemma total_url_stage (now : Z) (url content_id : pystr) :
  total (url_stage now url content_id).
Proof.
  assert (Hfinish : total (bind (_record_processed_item now content_id)
                             (fun _ => ret (false, py "unique", 0)))).
  { apply total_bind; [apply total_try | intros; apply total_ret]. }
  unfold url_stage. destruct url as [|c url]; [exact Hfinish|].
  apply total_bind; [apply total_try|]. intros [|]; [apply total_ret|].
  apply total_bind; [apply total_try | intros; exact Hfinish].
Qed.

Lemma total_semantic_stage (now : Z) (content url content_id : pystr) :
  total (semantic_stage now content url content_id).
Proof.
  apply total_bind; [apply total_get|]. intros eng.
  destruct (semantic_analysis (config eng)); [|apply total_url_stage].
  apply total_bind; [apply total_try|]. intros v.
  destruct (fst (fst v)); [apply total_ret|].
  apply total_bind; [apply total_try | intros; apply total_url_stage].
Qed.

Lemma total_is_hash_duplicate (now : Z) (content_hash : pystr) :
  total (_is_hash_duplicate now content_hash).
Proof. apply total_try. Qed.

Lemma total_store_content_hash (now : Z) (content_hash content_id : pystr) :
  total (_store_content_hash now content_hash content_id).
Proof. apply total_try. Qed.

Lemma keeps_config_clean (now : Z) : keeps_config (_clean_expired_entries now).
Proof.
  intros [cfg [r|] hs fps pis]; [reflexivity|].
  now destruct (clean_local_hashes cfg hs fps pis now) as (fps' & pis' & ->).
Qed.

(** The only exception that reaches the handler of [is_duplicate] comes
    from hashing the content; every other step recovers by itself. *)
Lemma body_raises_only_from_hash
    (now : Z) (content title url : pystr) (eng eng' : Engine) (e : exn) :
  is_duplicate_body now content title url eng = (Raise e, eng') ->
  content_hash_enabled (config eng) = true /\ create_content_hash content = Raise e.
Proof.
  unfold is_duplicate_body. set (cid := title ++ _).
  unfold bind at 1.
  pose proof (keeps_config_clean now eng) as Hcfg.
  destruct (total_clean now eng) as ([] & eng1 & Hclean).
  rewrite Hclean in *. cbn [snd] in Hcfg.
  unfold bind at 1, get. cbv beta. rewrite Hcfg.
  destruct (content_hash_enabled (config eng)).
  - unfold bind at 1, lift. destruct (create_content_hash content) as [h|e0].
    + unfold bind at 1.
      destruct (total_is_hash_duplicate now h eng1) as (dup & eng2 & ->).
      destruct dup; [discriminate|].
      unfold bind at 1.
      destruct (total_store_content_hash now h cid eng2) as ([] & eng3 & ->).
      destruct (total_semantic_stage now content url cid eng3) as (v & eng4 & ->).
      discriminate.
    + intros H. injection H as -> _. auto.
  - destruct (total_semantic_stage now content url cid eng1) as (v & eng4 & ->).
    discriminate.
Qed.

(** An exception raised while hashing does escape. *)
Lemma hash_failure_escapes
    (now : Z) (content title url : pystr) (eng : Engine) (e : exn) :
  content_hash_enabled (config eng) = true ->
  create_content_hash content = Raise e ->
  exists eng', is_duplicate_body now content title url eng = (Raise e, eng').
Proof.
  intros Hen Hh. unfold is_duplicate_body. unfold bind at 1.
  pose proof (keeps_config_clean now eng) as Hcfg.
  destruct (total_clean now eng) as ([] & eng1 & Hclean).
  rewrite Hclean in *. cbn [snd] in Hcfg.
  unfold bind at 1, get. cbv beta. rewrite Hcfg, Hen.
  unfold bind at 1, lift. rewrite Hh. eauto.
Qed.

(** Content that cannot be hashed yields the fallback verdict. *)
Lemma unhashable_content_falls_back
    (now : Z) (content title url : pystr) (eng : Engine) (e : exn) :
  content_hash_enabled (config eng) = true ->
  create_content_hash content = Raise e ->
  fst (is_duplicate now content title url eng) = (false, py "error_fallback", 0).
Proof.
  intros Hen Hh.
  destruct (hash_failure_escapes now content title url eng Hen Hh) as (eng' & H).
  unfold is_duplicate. now rewrite H.
Qed.

End DuplicateCheck.

(* ================================================================== *)
(** * Properties: the program logic *)
(* ================================================================== *)

Lemma hoare_ret {A} (P : Engine -> Prop) (a : A) (Q : result A -> Engine -> Prop) :
  (forall eng, P eng -> Q (Ok a) eng) -> hoare P (ret a) Q.
Proof. intros H eng HP. now apply H. Qed.

Lemma hoare_lift {A} (P : Engine -> Prop) (r : result A) (Q : result A -> Engine -> Prop) :
  (forall eng, P eng -> Q r eng) -> hoare P (lift r) Q.
Proof. intros H eng HP. now apply H. Qed.

Lemma hoare_modify (P : Engine -> Prop) (f : Engine -> Engine)
    (Q : result unit -> Engine -> Prop) :
  (forall eng, P eng -> Q (Ok tt) (f eng)) -> hoare P (modify f) Q.
Proof. intros H eng HP. now apply H. Qed.

Lemma hoare_bind {A B} (P : Engine -> Prop) (m : M A) (k : A -> M B)
    (R : result A -> Engine -> Prop) (Q : result B -> Engine -> Prop) :
  hoare P m R ->
  (forall a, hoare (R (Ok a)) (k a) Q) ->
  (forall e eng, R (Raise e) eng -> Q (Raise e) eng) ->
  hoare P (bind m k) Q.
Proof.
  intros Hm Hk Hraise eng HP. specialize (Hm eng HP). unfold bind.
  destruct (m eng) as [[a | e] eng1]; cbn [fst snd] in *.
  - now apply Hk.
  - now apply Hraise.
Qed.

Lemma hoare_try {A} (P : Engine -> Prop) (m : M A) (h : exn -> M A)
    (R : result A -> Engine -> Prop) (Q : result A -> Engine -> Prop) :
  hoare P m R ->
  (forall a eng, R (Ok a) eng -> Q (Ok a) eng) ->
  (forall e, hoare (R (Raise e)) (h e) Q) ->
  hoare P (try_ m h) Q.
Proof.
  intros Hm Hok Hh eng HP. specialize (Hm eng HP). unfold try_.
  destruct (m eng) as [[a | e] eng1]; cbn [fst snd] in *.
  - now apply Hok.
  - now apply Hh.
Qed.

(** Reading the state: the continuation runs in the state it was given. *)
Lemma hoare_read {A} (P : Engine -> Prop) (k : Engine -> M A)
    (Q : result A -> Engine -> Prop) :
  (forall eng0, P eng0 -> Q (fst (k eng0 eng0)) (snd (k eng0 eng0))) ->
  hoare P (bind get k) Q.
Proof. intros H eng HP. unfold bind, get. now apply H. Qed.

Lemma hoare_redis {A} (P : Engine -> Prop) (cmd : Redis -> result A * Redis)
    (Q : result A -> Engine -> Prop) :
  (forall eng r, P eng -> redis_client eng = Some r ->
     Q (fst (cmd r)) (set_redis (Some (snd (cmd r))) eng)) ->
  (forall eng, P eng -> redis_client eng = None -> Q (Raise RuntimeError) eng) ->
  hoare P (redis cmd) Q.
Proof.
  intros Hsome Hnone eng HP. unfold redis.
  destruct (redis_client eng) as [r|] eqn:Hr.
  - specialize (Hsome eng r HP Hr). now destruct (cmd r).
  - now apply Hnone.
Qed.

Lemma hoare_weaken {A} (P P' : Engine -> Prop) (m : M A)
    (Q Q' : result A -> Engine -> Prop) :
  hoare P' m Q' ->
  (forall eng, P eng -> P' eng) ->
  (forall r eng, Q' r eng -> Q r eng) ->
  hoare P m Q.
Proof. intros H HP HQ eng Hpre. apply HQ, H, HP, Hpre. Qed.

(** ** Invariants *)

Lemma invariant_ret {A} (I : Engine -> Prop) (a : A) : invariant I (ret a).
Proof. now apply hoare_ret. Qed.

Lemma invariant_lift {A} (I : Engine -> Prop) (r : result A) : invariant I (lift r).
Proof. now apply hoare_lift. Qed.

Lemma invariant_get (I : Engine -> Prop) : invariant I get.
Proof. intros eng HI. exact HI. Qed.

Lemma invariant_modify (I : Engine -> Prop) (f : Engine -> Engine) :
  (forall eng, I eng -> I (f eng)) -> invariant I (modify f).
Proof. intros H. now apply hoare_modify. Qed.

Lemma invariant_bind {A B} (I : Engine -> Prop) (m : M A) (k : A -> M B) :
  invariant I m -> (forall a, invariant I (k a)) -> invariant I (bind m k).
Proof.
  intros Hm Hk. apply hoare_bind with (R := fun _ eng => I eng); auto.
Qed.

Lemma invariant_try {A} (I : Engine -> Prop) (m : M A) (h : exn -> M A) :
  invariant I m -> (forall e, invariant I (h e)) -> invariant I (try_ m h).
Proof.
  intros Hm Hh. apply hoare_try with (R := fun _ eng => I eng); auto.
Qed.

Lemma invariant_read {A} (I : Engine -> Prop) (k : Engine -> M A) :
  (forall eng0, I eng0 -> I (snd (k eng0 eng0))) -> invariant I (bind get k).
Proof. intros H. now apply hoare_read. Qed.

Lemma invariant_redis {A} (I : Engine -> Prop) (cmd : Redis -> result A * Redis) :
  (forall eng r r', I eng -> redis_client eng = Some r -> I (set_redis (Some r') eng)) ->
  invariant I (redis cmd).
Proof. intros H. apply hoare_redis; eauto. Qed.

(** ** The commands of the duplicate check, as steps of the server *)

Lemma invariant_command {A} (I : Engine -> Prop) (K : pystr -> Prop)
    (cmd : Redis -> result A * Redis) :
  (forall r, server_step K r (snd (cmd r))) ->
  (forall eng r r', I eng -> redis_client eng = Some r -> server_step K r r' ->
     I (set_redis (Some r') eng)) ->
  invariant I (redis cmd).
Proof. intros Hcmd H. apply hoare_redis; eauto. Qed.

Lemma step_exists (K : pystr -> Prop) (now : Z) (key : pystr) (r : Redis) :
  server_step K r (snd (redis_exists now key r)).
Proof.
  unfold redis_exists, redis_command, take_fault.
  destruct (faults r (issued r)); apply step_counted.
Qed.

Lemma step_keys {E : PyEnv} (K : pystr -> Prop) (now : Z) (prefix : pystr) (r : Redis) :
  server_step K r (snd (redis_keys now prefix r)).
Proof.
  unfold redis_keys, redis_command, take_fault.
  destruct (faults r (issued r)); apply step_counted.
Qed.

Lemma step_get (K : pystr -> Prop) (now : Z) (key : pystr) (r : Redis) :
  server_step K r (snd (redis_get now key r)).
Proof.
  unfold redis_get, redis_command, take_fault.
  destruct (faults r (issued r)); apply step_counted.
Qed.

Lemma step_setex (K : pystr -> Prop) (now : Z) (key : pystr) (seconds : Z)
    (value : redis_value) (r : Redis) :
  K key -> server_step K r (snd (redis_setex now key seconds value r)).
Proof.
  intros HK. unfold redis_setex, redis_command, take_fault.
  destruct (encodable key && sendable value);
    [|destruct r; apply step_counted].
  destruct (faults r (issued r)); [apply step_counted|].
  destruct (expiry_accepted now seconds); cbn [snd entries faults issued];
    [now apply step_stored | apply step_counted].
Qed.

(* ------------------------------------------------------------------ *)
(** ** Invariants of the helpers of [is_duplicate] *)

Section Frame.

Context {E : PyEnv}.

(** An invariant [I] that every step of the server on the keys [K] keeps,
    and every write of one of the three in-memory caches, is kept by each
    helper of the engine that writes keys of [K] only. *)
Section Helpers.

Variable I : Engine -> Prop.
Variable K : pystr -> Prop.
Hypothesis K_hash : forall content_hash, K (py "hash:" ++ content_hash).
Hypothesis K_fingerprint : forall content_id, K (py "fingerprint:" ++ content_id).
Hypothesis K_url : forall url_hash, K (py "url:" ++ url_hash).
Hypothesis K_processed : forall content_id, K (py "processed:" ++ content_id).
Hypothesis I_redis : forall eng r r',
  I eng -> redis_client eng = Some r -> server_step K r r' -> I (set_redis (Some r') eng).
Hypothesis I_hashes : forall eng h,
  I eng -> redis_client eng = None -> I (set_content_hashes h eng).
Hypothesis I_fingerprints_set : forall eng key fp,
  I eng -> redis_client eng = None ->
  I (set_content_fingerprints (dict_set key fp (content_fingerprints eng)) eng).
Hypothesis I_urls_set : forall eng key seen,
  I eng -> redis_client eng = None ->
  I (set_processed_items (dict_set key seen (processed_items eng)) eng).

Lemma invariant_is_hash_duplicate now h : invariant I (_is_hash_duplicate now h).
Proof.
  apply invariant_try; [|intros; apply invariant_ret].
  apply invariant_read. intros eng HI.
  destruct (redis_client eng) eqn:Hr.
  - now apply (@invariant_command _ I K _ (@step_exists K now _) I_redis).
  - exact HI.
Qed.

Lemma invariant_store_content_hash now h cid : invariant I (_store_content_hash now h cid).
Proof.
  apply invariant_try; [|intros; apply invariant_ret].
  apply invariant_read. intros eng HI. cbv zeta.
  destruct (redis_client eng) eqn:Hr.
  - now apply (@invariant_command _ I K _ (fun r => @step_setex K now _ _ _ r (K_hash _)) I_redis).
  - now apply I_hashes.
Qed.

Lemma invariant_load now keys fps : invariant I (load_fingerprints now keys fps).
Proof.
  revert fps. induction keys as [|key keys IH]; intros fps; cbn [load_fingerprints].
  - apply invariant_ret.
  - apply invariant_bind; [apply (@invariant_command _ I K _ (@step_get K now _) I_redis)|]. intros data.
    destruct (truthy data); [|apply IH].
    apply invariant_bind; [apply invariant_lift|]. intros cid.
    apply invariant_bind; [apply invariant_lift|]. intros fp. apply IH.
Qed.

Lemma invariant_get_stored now : invariant I (_get_stored_fingerprints now).
Proof.
  apply invariant_try; [|intros; apply invariant_ret].
  apply invariant_read. intros eng HI.
  destruct (redis_client eng) eqn:Hr.
  - apply (@invariant_bind _ _ I (redis (redis_keys now (py "fingerprint:")))
             (fun keys => load_fingerprints now keys [])); auto.
    + apply (@invariant_command _ I K _ (@step_keys E K now _) I_redis).
    + intros keys. apply invariant_load.
  - exact HI.
Qed.

Lemma invariant_check_semantic now fp cid :
  invariant I (_check_semantic_similarity now fp cid).
Proof.
  apply invariant_try; [|intros; apply invariant_ret].
  apply invariant_bind; [apply invariant_get_stored|]. intros stored.
  apply invariant_bind; [apply invariant_get | intros; apply invariant_ret].
Qed.

Lemma invariant_store_fingerprint now cid fp : invariant I (_store_fingerprint now cid fp).
Proof.
  apply invariant_try; [|intros; apply invariant_ret].
  apply invariant_read. intros eng HI. cbv zeta.
  destruct (redis_client eng) eqn:Hr.
  - now apply (@invariant_command _ I K _ (fun r => @step_setex K now _ _ _ r (K_fingerprint _)) I_redis).
  - now apply I_fingerprints_set.
Qed.

Lemma invariant_is_url_duplicate now url : invariant I (_is_url_duplicate now url).
Proof.
  apply invariant_try; [|intros; apply invariant_ret].
  apply invariant_read. intros eng HI.
  destruct (redis_client eng) eqn:Hr.
  - apply (@invariant_bind _ _ I (lift (url_md5 url))
             (fun url_hash => redis (redis_exists now (py "url:" ++ url_hash)))); auto.
    + apply invariant_lift.
    + intros uh. apply (@invariant_command _ I K _ (@step_exists K now _) I_redis).
  - apply (@invariant_bind _ _ I (lift (url_md5 url))
             (fun url_hash =>
                ret (existsb (fun kv => str_eqb (fst kv) url_hash) (processed_items eng))));
      auto.
    + apply invariant_lift.
    + intros uh. apply invariant_ret.
Qed.

Lemma invariant_store_processed_url now url cid :
  invariant I (_store_processed_url now url cid).
Proof.
  apply invariant_try; [|intros; apply invariant_ret].
  apply invariant_bind; [apply invariant_lift|]. intros uh.
  apply invariant_read. intros eng HI. cbv zeta.
  destruct (redis_client eng) eqn:Hr.
  - now apply (@invariant_command _ I K _ (fun r => @step_setex K now _ _ _ r (K_url _)) I_redis).
  - now apply I_urls_set.
Qed.

Lemma invariant_record_processed_item now cid :
  invariant I (_record_processed_item now cid).
Proof.
  apply invariant_try; [|intros; apply invariant_ret].
  apply invariant_read. intros eng HI. cbv zeta.
  destruct (redis_client eng) eqn:Hr.
  - now apply (@invariant_command _ I K _ (fun r => @step_setex K now _ _ _ r (K_processed _)) I_redis).
  - exact HI.
Qed.

Lemma invariant_url_stage now url cid : invariant I (url_stage now url cid).
Proof.
  assert (Hfinish : invariant I (bind (_record_processed_item now cid)
                                   (fun _ => ret (false, py "unique", 0)))).
  { apply invariant_bind; [apply invariant_record_processed_item|].
    intros; apply invariant_ret. }
  unfold url_stage. destruct url as [|c url]; [exact Hfinish|].
  apply invariant_bind; [apply invariant_is_url_duplicate|]. intros [|].
  - apply invariant_ret.
  - apply invariant_bind; [apply invariant_store_processed_url | intros; exact Hfinish].
Qed.

(** Stage 3 without a URL. *)
Lemma invariant_finish now cid : invariant I (url_stage now [] cid).
Proof.
  apply invariant_bind; [apply invariant_record_processed_item|].
  intros; apply invariant_ret.
Qed.

(** Stage 2, given stage 3. *)
Lemma invariant_semantic_stage_with now content url cid :
  invariant I (url_stage now url cid) ->
  invariant I (semantic_stage now content url cid).
Proof.
  intros Hurl. apply invariant_read. intros eng HI.
  destruct (semantic_analysis (config eng)).
  - apply (@invariant_bind _ _ I
             (_check_semantic_similarity now (create_semantic_fingerprint content) cid)
             (fun similarity_result =>
                if fst (fst similarity_result) then ret similarity_result
                else bind (_store_fingerprint now cid (create_semantic_fingerprint content))
                       (fun _ => url_stage now url cid))); auto.
    + apply invariant_check_semantic.
    + intros v. destruct (fst (fst v)); [apply invariant_ret|].
      apply invariant_bind; [apply invariant_store_fingerprint|].
      intros; exact Hurl.
  - now apply Hurl.
Qed.

Lemma invariant_semantic_stage now content url cid :
  invariant I (semantic_stage now content url cid).
Proof. apply invariant_semantic_stage_with, invariant_url_stage. Qed.

(** The three stages, given stage 2. *)
Lemma invariant_stages_with now content url cid :
  invariant I (semantic_stage now content url cid) ->
  invariant I (stages now content url cid).
Proof.
  intros Hsem. apply invariant_read. intros eng HI.
  destruct (content_hash_enabled (config eng)).
  - apply (@invariant_bind _ _ I (lift (create_content_hash content))
             (fun content_hash =>
                bind (_is_hash_duplicate now content_hash) (fun dup =>
                if dup then ret (true, py "exact_duplicate", 1)
                else bind (_store_content_hash now content_hash cid)
                       (fun _ => semantic_stage now content url cid)))); auto.
    + apply invariant_lift.
    + intros h. apply invariant_bind; [apply invariant_is_hash_duplicate|].
      intros [|]; [apply invariant_ret|].
      apply invariant_bind; [apply invariant_store_content_hash|].
      intros; exact Hsem.
  - now apply Hsem.
Qed.

Lemma invariant_after_sweep now content url cid :
  invariant I (stages now content url cid).
Proof. apply invariant_stages_with, invariant_semantic_stage. Qed.

End Helpers.
End Frame.

(* ================================================================== *)
(** * Properties: what a call never changes *)
(* ================================================================== *)

Section Unchanged.

Context {E : PyEnv}.

Lemma clean_redis (now : Z) (eng : Engine) (r : Redis) :
  redis_client eng = Some r -> _clean_expired_entries now eng = (Ok tt, eng).
Proof.
  intros Hr. unfold _clean_expired_entries, bind, get. now rewrite Hr.
Qed.

Lemma clean_local_state (now : Z) (eng : Engine) :
  redis_client eng = None ->
  _clean_expired_entries now eng
  = (Ok tt,
     match unexpired now (time_window_hours (config eng)) (processed_items eng) with
     | Ok kept =>
         set_content_fingerprints
           (if (10000 <? len (content_fingerprints eng))%Z
            then skipn (Z.to_nat 5000) (content_fingerprints eng)
            else content_fingerprints eng)
           (set_processed_items kept eng)
     | Raise _ => eng
     end).
Proof.
  intros Hr. destruct eng as [cfg rc hs fps pis]. cbn in Hr. subst rc.
  rewrite clean_local. cbn [config processed_items].
  now destruct (unexpired now (time_window_hours cfg) pis).
Qed.

Section Whole.

Variable I : Engine -> Prop.
Variable K : pystr -> Prop.
Hypothesis K_hash : forall content_hash, K (py "hash:" ++ content_hash).
Hypothesis K_fingerprint : forall content_id, K (py "fingerprint:" ++ content_id).
Hypothesis K_url : forall url_hash, K (py "url:" ++ url_hash).
Hypothesis K_processed : forall content_id, K (py "processed:" ++ content_id).
Hypothesis I_redis : forall eng r r',
  I eng -> redis_client eng = Some r -> server_step K r r' -> I (set_redis (Some r') eng).
Hypothesis I_hashes : forall eng h,
  I eng -> redis_client eng = None -> I (set_content_hashes h eng).
Hypothesis I_fingerprints : forall eng f,
  I eng -> redis_client eng = None -> I (set_content_fingerprints f eng).
Hypothesis I_urls : forall eng p,
  I eng -> redis_client eng = None -> I (set_processed_items p eng).

Lemma invariant_clean now : invariant I (_clean_expired_entries now).
Proof.
  intros eng HI. destruct (redis_client eng) as [r|] eqn:Hr.
  - now rewrite (@clean_redis now eng r Hr).
  - rewrite (@clean_local_state now eng Hr). cbn [snd].
    destruct (unexpired now (time_window_hours (config eng)) (processed_items eng));
      [|exact HI].
    apply I_fingerprints; [apply I_urls; assumption | exact Hr].
Qed.

Lemma invariant_is_duplicate_body now content title url :
  invariant I (is_duplicate_body now content title url).
Proof.
  unfold is_duplicate_body.
  apply invariant_bind; [apply invariant_clean|]. intros _.
  apply invariant_after_sweep with (K := K); auto.
Qed.

Lemma invariant_is_duplicate now content title url eng :
  I eng -> I (snd (is_duplicate now content title url eng)).
Proof.
  intros HI. pose proof (@invariant_is_duplicate_body now content title url eng HI) as H.
  unfold is_duplicate. now destruct (is_duplicate_body now content title url eng) as [[v|e] eng'].
Qed.

End Whole.

Lemma invariant_clear_cache (I : Engine -> Prop) now :
  (forall eng r r', I eng -> redis_client eng = Some r -> I (set_redis (Some r') eng)) ->
  (forall eng, I eng -> I (set_content_hashes [] eng)) ->
  (forall eng, I eng -> I (set_content_fingerprints [] eng)) ->
  (forall eng, I eng -> I (set_processed_items [] eng)) ->
  invariant I (clear_cache now).
Proof.
  intros Hr Hh Hf Hp. unfold clear_cache.
  apply invariant_try; [|intros; apply invariant_ret].
  apply invariant_read. intros eng HI.
  apply (@invariant_bind _ _ I
           (match redis_client eng with
            | Some _ =>
                bind (redis (redis_keys now (py "hash:"))) (fun keys1 =>
                bind (redis (redis_keys now (py "fingerprint:"))) (fun keys2 =>
                bind (redis (redis_keys now (py "url:"))) (fun keys3 =>
                bind (redis (redis_keys now (py "processed:"))) (fun keys4 =>
                match keys1 ++ keys2 ++ keys3 ++ keys4 with
                | [] => ret tt
                | _ => bind (redis (redis_delete now (keys1 ++ keys2 ++ keys3 ++ keys4)))
                         (fun _ => ret tt)
                end))))
            | None => ret tt
            end)
           (fun _ => bind (modify (set_content_hashes []))
                       (fun _ => bind (modify (set_content_fingerprints []))
                                   (fun _ => modify (set_processed_items []))))); auto.
  - destruct (redis_client eng); [|apply invariant_ret].
    repeat (apply invariant_bind; [now apply invariant_redis | intros ?]).
    destruct (_ ++ _); [apply invariant_ret|].
    apply invariant_bind; [now apply invariant_redis | intros; apply invariant_ret].
  - intros _. repeat (apply invariant_bind; [now apply invariant_modify | intros ?]).
    now apply invariant_modify.
Qed.

Lemma invariant_get_stats_body (I : Engine -> Prop) now :
  (forall eng r r', I eng -> redis_client eng = Some r -> I (set_redis (Some r') eng)) ->
  invariant I (get_stats_body now).
Proof.
  intros Hr. unfold get_stats_body.
  apply invariant_read. intros eng HI.
  apply (@invariant_bind _ _ I
           (match redis_client eng with
            | Some _ =>
                bind (redis (redis_count_keys now (py "hash:"))) (fun hash_count =>
                bind (redis (redis_count_keys now (py "fingerprint:"))) (fun fingerprint_count =>
                bind (redis (redis_count_keys now (py "url:"))) (fun url_count =>
                ret (hash_count, fingerprint_count, url_count))))
            | None =>
                ret (len (content_hashes eng), len (content_fingerprints eng),
                     len (processed_items eng))
            end)
           (fun counts =>
              bind get (fun eng =>
              ret (Stats (fst (fst counts)) (snd (fst counts)) (snd counts)
                     (similarity_threshold (config eng)) (time_window_hours (config eng))
                     (match redis_client eng with Some _ => true | None => false end)))));
    auto.
  - destruct (redis_client eng); [|apply invariant_ret].
    repeat (apply invariant_bind; [now apply invariant_redis | intros ?]).
    apply invariant_ret.
  - intros counts. apply invariant_bind; [apply invariant_get | intros; apply invariant_ret].
Qed.

(** [is_duplicate] leaves the configuration and the choice of backend as
    they were. *)
Lemma is_duplicate_keeps_backend (now : Z) (content title url : pystr) (eng : Engine) :
  config (snd (is_duplicate now content title url eng)) = config eng
  /\ uses_redis (snd (is_duplicate now content title url eng)) = uses_redis eng.
Proof.
  set (I := fun e : Engine => config e = config eng /\ uses_redis e = uses_redis eng).
  assert (HI : I eng) by (split; reflexivity).
  apply (@invariant_is_duplicate I any_key); auto; try (intros; exact Logic.I).
  intros e r r' [Hc Hu] Hs _. split; [exact Hc|].
    rewrite <- Hu. unfold uses_redis. cbn. now rewrite Hs.
Qed.

(** X1 (configuration and backend are fixed at construction): no call of
    [is_duplicate], [clear_cache] or [get_stats] changes the configuration
    of the engine or moves it from Redis to the in-memory caches or back,
    whatever the arguments, the state and the failures of the server. *)
Theorem engine_keeps_configuration_and_backend
    (now : Z) (content title url : pystr) (eng : Engine) :
  let same eng' := config eng' = config eng /\ uses_redis eng' = uses_redis eng in
  same (snd (is_duplicate now content title url eng))
  /\ same (snd (clear_cache now eng))
  /\ same (snd (get_stats now eng)).
Proof.
  cbv zeta.
  set (I := fun e : Engine => config e = config eng /\ uses_redis e = uses_redis eng).
  assert (Hr : forall e r r', I e -> redis_client e = Some r -> I (set_redis (Some r') e)).
  { intros e r r' [Hc Hu] Hs. split; [exact Hc|].
    rewrite <- Hu. unfold uses_redis. cbn. now rewrite Hs. }
  assert (HI : I eng) by (split; reflexivity).
  split; [|split].
  - apply is_duplicate_keeps_backend.
  - apply (@invariant_clear_cache I now); auto; intros e [Hc Hu]; split; assumption.
  - pose proof (@invariant_get_stats_body I now Hr eng HI) as H.
    unfold get_stats. now destruct (get_stats_body now eng) as [[v|e] eng'].
Qed.

(** X2 (an engine on Redis never writes its in-memory caches): with a
    server connected, a call of [is_duplicate] leaves [content_hashes],
    [content_fingerprints] and [processed_items] as they were, whether the
    commands sent to the server succeed or fail. *)
Theorem redis_engine_leaves_memory_alone
    (now : Z) (content title url : pystr) (eng : Engine) :
  uses_redis eng = true ->
  caches (snd (is_duplicate now content title url eng)) = caches eng.
Proof.
  intros Hu.
  set (I := fun e : Engine => uses_redis e = true /\ caches e = caches eng).
  assert (HI : I eng) by (split; [exact Hu | reflexivity]).
  assert (Hnone : forall e, I e -> redis_client e = None -> False).
  { intros e [H _] Hn. unfold uses_redis in H. rewrite Hn in H. discriminate. }
  apply (@invariant_is_duplicate I any_key); auto; try (intros; exact Logic.I).
  - intros e r r' [H1 H2] Hs _. split; [reflexivity | exact H2].
  - intros e h He Hn. destruct (Hnone e He Hn).
  - intros e h He Hn. destruct (Hnone e He Hn).
  - intros e h He Hn. destruct (Hnone e He Hn).
Qed.

End Unchanged.

(** X2 at work: the text "robot" submitted to the engine connected to the
    busy server. *)
Lemma redis_engine_leaves_memory_alone_witness :
  caches (snd (@is_duplicate simple_env 0 (py "robot") (py "Robots") [] busy_engine))
  = caches busy_engine.
Proof.
  apply (@redis_engine_leaves_memory_alone simple_env 0 (py "robot") (py "Robots") []
           busy_engine).
  reflexivity.
Defined.

(* ================================================================== *)
(** * Properties: the verdicts of [is_duplicate] *)
(* ================================================================== *)

(** ** Postconditions on the value returned *)

Lemma hoare_after {A B} (I : Engine -> Prop) (m : M A) (k : A -> M B) (S : B -> Prop) :
  invariant I m ->
  (forall a, hoare I (k a) (returns S)) ->
  hoare I (bind m k) (returns S).
Proof.
  intros Hm Hk. apply hoare_bind with (R := fun _ eng => I eng); auto.
  intros e eng _. exact Logic.I.
Qed.

Lemma hoare_after_value {A B} (I : Engine -> Prop) (m : M A) (k : A -> M B)
    (R : A -> Prop) (S : B -> Prop) :
  invariant I m ->
  hoare I m (returns R) ->
  (forall a, R a -> hoare I (k a) (returns S)) ->
  hoare I (bind m k) (returns S).
Proof.
  intros Hinv Hm Hk.
  apply hoare_bind with (R := fun r eng => I eng /\ returns R r eng).
  - intros eng HI. split; [now apply Hinv | now apply Hm].
  - intros a eng [HI HR]. now apply Hk.
  - intros e eng _. exact Logic.I.
Qed.

Lemma hoare_returns_ret {A} (I : Engine -> Prop) (a : A) (S : A -> Prop) :
  S a -> hoare I (ret a) (returns S).
Proof. intros H eng _. exact H. Qed.

Lemma any_key_holds (key : pystr) : any_key key.
Proof. exact Logic.I. Qed.

(** ** The shape of each stage's verdict *)

Section Verdicts.

Context {E : PyEnv}.

Lemma scan_stored_shape (threshold : Q) (fingerprint : Fingerprint)
    (items : list (pystr * Fingerprint)) (max_similarity : Q) (most_similar_id : pystr) :
  0 <= max_similarity ->
  fst (fst (scan_stored threshold fingerprint items max_similarity most_similar_id)) = true ->
  exists stored_id score,
    In stored_id (map fst items)
    /\ scan_stored threshold fingerprint items max_similarity most_similar_id
       = (true, py "semantic_similar_to_" ++ stored_id, score)
    /\ threshold <= score /\ 0 < score.
Proof.
  revert max_similarity most_similar_id.
  induction items as [|[k fp] items IH]; intros m mid Hm Hflag; [discriminate|].
  cbn [scan_stored] in *.
  destruct (Qltb m (_calculate_similarity fingerprint fp)) eqn:Hlt.
  - apply Qltb_lt in Hlt.
    destruct (Qle_bool threshold (_calculate_similarity fingerprint fp)) eqn:Hle.
    + exists k, (_calculate_similarity fingerprint fp). repeat split.
      * now left.
      * now apply Qle_bool_iff.
      * now apply Qle_lt_trans with m.
    + destruct (IH _ k (Qlt_le_weak _ _ (Qle_lt_trans _ _ _ Hm Hlt)) Hflag)
        as (sid & s & Hin & Heq & H1 & H2).
      exists sid, s. repeat split; auto. now right.
  - destruct (IH _ mid Hm Hflag) as (sid & s & Hin & Heq & H1 & H2).
    exists sid, s. repeat split; auto. now right.
Qed.

Variable cfg : Config.

Lemma configured_redis eng r r' :
  configured cfg eng -> redis_client eng = Some r -> server_step any_key r r' ->
  configured cfg (set_redis (Some r') eng).
Proof. intros H _ _. exact H. Qed.

Lemma check_semantic_returns now fp cid :
  hoare (configured cfg) (_check_semantic_similarity now fp cid) (returns (semantic_hit cfg)).
Proof.
  unfold _check_semantic_similarity.
  apply hoare_try with (R := fun r eng => returns (semantic_hit cfg) r eng).
  - apply hoare_after_value with (R := fun _ => True).
    + apply invariant_get_stored with (K := any_key). apply configured_redis.
    + intros eng _. unfold returns. now destruct (fst _).
    + intros stored _. apply hoare_read. intros eng Hc. cbn.
      intros Hflag. rewrite Hc in *.
      destruct (scan_stored_shape _ _ _ _ (Qle_refl 0) Hflag)
        as (sid & s & _ & Heq & H1 & H2).
      exists sid, s. auto.
  - auto.
  - intros e. apply hoare_returns_ret. intros H. discriminate.
Qed.

Lemma url_stage_returns now url cid :
  hoare (configured cfg) (url_stage now url cid) (returns late_shape).
Proof.
  assert (Hfinish : hoare (configured cfg)
                      (bind (_record_processed_item now cid)
                         (fun _ => ret (false, py "unique", 0)))
                      (returns late_shape)).
  { apply hoare_after.
    - apply invariant_record_processed_item with (K := any_key);
        [apply any_key_holds | apply configured_redis].
    - intros _. apply hoare_returns_ret. now left. }
  unfold url_stage. destruct url as [|c url]; [exact Hfinish|].
  apply hoare_after.
  - apply invariant_is_url_duplicate with (K := any_key). apply configured_redis.
  - intros [|]; [apply hoare_returns_ret; now right|].
    apply hoare_after; [|intros; exact Hfinish].
    apply invariant_store_processed_url with (K := any_key);
      [apply any_key_holds | apply configured_redis | now intros].
Qed.

Lemma stage_shape_verdict v :
  stage_shape cfg v -> verdict_shape (similarity_threshold cfg) v.
Proof.
  unfold verdict_shape. intros [[-> | ->] | H]; auto 10.
Qed.

Lemma stage_shape_not_exact v : stage_shape cfg v -> v <> (true, py "exact_duplicate", 1).
Proof.
  intros [[-> | ->] | (sid & s & -> & _)]; discriminate.
Qed.

Lemma semantic_stage_returns now content url cid :
  hoare (configured cfg) (semantic_stage now content url cid) (returns (stage_shape cfg)).
Proof.
  assert (Hurl : hoare (configured cfg) (url_stage now url cid) (returns (stage_shape cfg))).
  { eapply hoare_weaken; [apply url_stage_returns | auto |].
    intros [v|e] eng H; cbn in *; auto. now left. }
  apply hoare_read. intros eng Hc.
  destruct (semantic_analysis (config eng)); [|now apply Hurl].
  apply (@hoare_after_value _ _ (configured cfg)
           (_check_semantic_similarity now (create_semantic_fingerprint content) cid)
           (fun similarity_result =>
              if fst (fst similarity_result) then ret similarity_result
              else bind (_store_fingerprint now cid (create_semantic_fingerprint content))
                     (fun _ => url_stage now url cid))
           (semantic_hit cfg)); auto.
  - apply invariant_check_semantic with (K := any_key). apply configured_redis.
  - apply check_semantic_returns.
  - intros v Hv. destruct (fst (fst v)) eqn:Hflag.
    + apply hoare_returns_ret. destruct (Hv Hflag) as (sid & s & -> & H1 & H2).
      right. eauto.
    + apply hoare_after; [|intros; exact Hurl].
      apply invariant_store_fingerprint with (K := any_key);
        [apply any_key_holds | apply configured_redis | now intros].
Qed.

Lemma semantic_stage_verdict now content url cid :
  hoare (configured cfg) (semantic_stage now content url cid)
    (returns (verdict_shape (similarity_threshold cfg))).
Proof.
  eapply hoare_weaken; [apply semantic_stage_returns | auto |].
  intros [v|e] eng H; cbn in *; auto. now apply stage_shape_verdict.
Qed.

Lemma is_duplicate_body_returns now content title url :
  hoare (configured cfg) (is_duplicate_body now content title url)
    (returns (verdict_shape (similarity_threshold cfg))).
Proof.
  unfold is_duplicate_body.
  apply hoare_after.
  - apply invariant_clean; now intros.
  - intros _. apply hoare_read. intros eng Hc.
    destruct (content_hash_enabled (config eng)).
    + apply (@hoare_after _ _ (configured cfg) (lift (create_content_hash content))
               (fun content_hash =>
                  bind (_is_hash_duplicate now content_hash) (fun dup =>
                  if dup then ret (true, py "exact_duplicate", 1)
                  else bind (_store_content_hash now content_hash
                               (title ++ py "_" ++ url ++ py "_" ++ firstn 100 content))
                         (fun _ => semantic_stage now content url
                               (title ++ py "_" ++ url ++ py "_" ++ firstn 100 content))))
               (verdict_shape (similarity_threshold cfg))); auto.
      * apply invariant_lift.
      * intros h. apply hoare_after.
        -- apply invariant_is_hash_duplicate with (K := any_key). apply configured_redis.
        -- intros [|].
           ++ apply hoare_returns_ret. unfold verdict_shape. auto.
           ++ apply hoare_after; [|intros; apply semantic_stage_verdict].
              apply invariant_store_content_hash with (K := any_key);
                [apply any_key_holds | apply configured_redis | now intros].
    + now apply semantic_stage_verdict.
Qed.

End Verdicts.

(** X3 (the verdicts of [is_duplicate]): every call returns one of
    [(False, "unique", 0.0)], [(False, "error_fallback", 0.0)],
    [(True, "exact_duplicate", 1.0)], [(True, "url_duplicate", 0.9)] or
    [(True, "semantic_similar_to_<id>", score)] with a positive score at or
    above the configured threshold.  The verdicts "semantically_unique" and
    "similarity_error" of the semantic check never leave [is_duplicate]. *)
Theorem verdict_has_a_known_shape {E : PyEnv}
    (now : Z) (content title url : pystr) (eng : Engine) :
  verdict_shape (similarity_threshold (config eng))
    (fst (is_duplicate now content title url eng)).
Proof.
  pose proof (@is_duplicate_body_returns E (config eng) now content title url eng eq_refl) as H.
  unfold is_duplicate.
  destruct (is_duplicate_body now content title url eng) as [[v|e] eng']; cbn in *.
  - exact H.
  - unfold verdict_shape. auto.
Qed.

(* ================================================================== *)
(** * Properties: the later stages of the duplicate check *)
(* ================================================================== *)

(** Symbolic execution that leaves the similarity of two fingerprints and
    the comparisons on it folded. *)
Ltac run_folded :=
  cbn -[create_semantic_fingerprint create_content_hash url_md5 firstn
        _calculate_similarity Qle_bool Qltb timedelta_hours redis_keys].

Ltac run_folded_in H :=
  cbn -[create_semantic_fingerprint create_content_hash url_md5 firstn
        _calculate_similarity Qle_bool Qltb timedelta_hours redis_keys] in H.

Ltac exec_folded :=
  cbv beta iota zeta delta
    [bind get ret lift try_ modify redis redis_exists redis_setex redis_get
     redis_command take_fault _is_hash_duplicate _store_content_hash
     _get_stored_fingerprints _check_semantic_similarity _store_fingerprint
     _is_url_duplicate _store_processed_url _record_processed_item
     _clean_expired_entries
     url_stage semantic_stage set_redis set_content_hashes set_content_fingerprints
     set_processed_items config redis_client content_hashes content_fingerprints
     processed_items entries faults issued];
  run_folded.

Lemma str_eqb_neq (s t : pystr) : s <> t -> str_eqb s t = false.
Proof.
  intros H. destruct (str_eqb s t) eqn:Heq; [|reflexivity].
  apply str_eqb_eq in Heq. contradiction.
Qed.

(** ** What [KEYS] returns *)

Lemma filter_permutation {A} (p : A -> bool) (l l' : list A) :
  Permutation l l' -> Permutation (filter p l) (filter p l').
Proof.
  induction 1 as [|x l l' _ IH|x y l|l l' l'' _ IH1 _ IH2]; cbn [filter].
  - constructor.
  - destruct (p x); [now constructor | exact IH].
  - destruct (p x), (p y); try reflexivity. apply perm_swap.
  - now transitivity (filter p l').
Qed.

Lemma encodable_cons (c : char) (s : pystr) :
  encodable (c :: s) = encodable [c] && encodable s.
Proof.
  unfold encodable, encode_utf8. cbn [rmap_list].
  destruct (utf8_char c); cbn [rbind]; [|reflexivity].
  now destruct (rmap_list utf8_char s).
Qed.

Lemma encodable_app (s t : pystr) : encodable (s ++ t) = encodable s && encodable t.
Proof.
  induction s as [|c s IH]; [reflexivity|].
  cbn [app]. rewrite (encodable_cons c (s ++ t)), (encodable_cons c s), IH.
  apply andb_assoc.
Qed.

(** A key made of an ASCII prefix of the engine and a text. *)
Lemma encodable_key (prefix : string) (s : pystr) :
  encodable (py prefix) = true -> encodable s = true -> encodable (py prefix ++ s) = true.
Proof. intros Hp Hs. now rewrite encodable_app, Hp, Hs. Qed.

Lemma encodable_content_id (content title url : pystr) :
  encodable (content_id_of content title url)
  = encodable title && encodable url && encodable (firstn 100 content).
Proof.
  unfold content_id_of. rewrite !encodable_app.
  change (encodable (py "_")) with true. cbn [andb]. now rewrite andb_assoc.
Qed.

Section Keys.

Context {E : PyEnv}.

(** The order of the server does not matter where at most one key
    matches. *)
Lemma redis_keys_few (now : Z) (prefix : pystr) (ents : list (pystr * (redis_value * Z)))
    (f : nat -> bool) (n : nat) :
  f n = false ->
  (length (filter (fun e => startswith prefix (fst e) && live now e) ents) <= 1)%nat ->
  redis_keys now prefix {| entries := ents; faults := f; issued := n |}
  = (Ok (map fst (filter (fun e => startswith prefix (fst e) && live now e) ents)),
     {| entries := ents; faults := f; issued := S n |}).
Proof.
  intros Hf Hfew. unfold redis_keys, redis_command, take_fault.
  cbn [faults issued entries]. rewrite Hf. f_equal. f_equal. f_equal.
  pose proof (filter_permutation (fun e => startswith prefix (fst e) && live now e)
                (keyspace_order_perm ents)) as Hperm.
  destruct (filter _ ents) as [|e [|e' rest]] eqn:Hfilter.
  - now apply Permutation_nil, Permutation_sym.
  - now apply Permutation_length_1_inv, Permutation_sym.
  - cbn [length] in Hfew. lia.
Qed.

Lemma redis_keys_down (now : Z) (prefix : pystr) (ents : list (pystr * (redis_value * Z)))
    (f : nat -> bool) (n : nat) :
  f n = true ->
  redis_keys now prefix {| entries := ents; faults := f; issued := n |}
  = (Raise ConnectionError, {| entries := ents; faults := f; issued := S n |}).
Proof.
  intros Hf. unfold redis_keys, redis_command, take_fault.
  cbn [faults issued entries]. now rewrite Hf.
Qed.

End Keys.

(** At most one entry of a short list of entries passes a test. *)
Ltac few_keys :=
  cbn -[live];
  repeat match goal with
         | |- context [if ?c then _ else _] => destruct c
         end;
  cbn [length]; lia.

Section LaterStages.

Context {E : PyEnv}.

(** ** The URL check *)

Lemma local_shared_url (cfg : Config) (now1 now2 : Z)
    (content1 content2 title1 title2 url h1 h2 url_hash : pystr) :
  url <> [] ->
  url_md5 url = Ok url_hash ->
  create_content_hash content1 = Ok h1 ->
  create_content_hash content2 = Ok h2 ->
  h1 <> h2 ->
  _calculate_similarity (create_semantic_fingerprint content2)
    (create_semantic_fingerprint content1) < similarity_threshold cfg ->
  (now2 - now1 <= time_window_hours cfg * 3600)%Z ->
  let eng := {| config := cfg; redis_client := None; content_hashes := [];
                content_fingerprints := []; processed_items := [] |} in
  fst (is_duplicate now1 content1 title1 url eng) = (false, py "unique", 0)
  /\ fst (is_duplicate now2 content2 title2 url
            (snd (is_duplicate now1 content1 title1 url eng)))
     = (true, py "url_duplicate", float 0.9).
Proof.
  intros Hurl Hmd5 Hh1 Hh2 Hneq Hsim Hwin eng. subst eng.
  destruct url as [|c url]; [contradiction|].
  assert (Hle : Qle_bool (similarity_threshold cfg)
                  (_calculate_similarity (create_semantic_fingerprint content2)
                     (create_semantic_fingerprint content1)) = false).
  { destruct (Qle_bool _ _) eqn:H; [|reflexivity].
    apply Qle_bool_iff in H. exfalso. eapply Qlt_not_le; eauto. }
  assert (Hne : str_eqb h2 h1 = false) by (apply str_eqb_neq; congruence).
  unfold is_duplicate, is_duplicate_body.
  set (cid1 := title1 ++ _). set (cid2 := title2 ++ _).
  destruct (timedelta_hours (time_window_hours cfg)) as [seconds|e] eqn:Hdelta.
  - assert (Hfresh : (seconds <? now2 - now1)%Z = false).
    { apply timedelta_hours_seconds in Hdelta. subst seconds. apply Z.ltb_ge; lia. }
    destruct (content_hash_enabled cfg) eqn:Hen, (semantic_analysis cfg) eqn:Hsem;
      repeat (exec_folded;
              rewrite ?Hen, ?Hsem, ?Hh1, ?Hh2, ?Hmd5, ?Hdelta, ?Hfresh, ?Hne, ?Hle,
                ?str_eqb_refl);
      try (destruct (Qltb 0 _));
      repeat (exec_folded;
              rewrite ?Hen, ?Hsem, ?Hh1, ?Hh2, ?Hmd5, ?Hdelta, ?Hfresh, ?Hne, ?Hle,
                ?str_eqb_refl);
      split; reflexivity.
  - destruct (content_hash_enabled cfg) eqn:Hen, (semantic_analysis cfg) eqn:Hsem;
      repeat (exec_folded;
              rewrite ?Hen, ?Hsem, ?Hh1, ?Hh2, ?Hmd5, ?Hdelta, ?Hne, ?Hle, ?str_eqb_refl);
      try (destruct (Qltb 0 _));
      repeat (exec_folded;
              rewrite ?Hen, ?Hsem, ?Hh1, ?Hh2, ?Hmd5, ?Hdelta, ?Hne, ?Hle, ?str_eqb_refl);
      split; reflexivity.
Qed.

(** ** The first submission to an empty server *)

Lemma redis_first_call (cfg : Config) (f : nat -> bool) (n : nat) (now : Z)
    (content title url h url_hash : pystr) :
  (forall k, f k = false) ->
  create_content_hash content = Ok h ->
  url_md5 url = Ok url_hash ->
  expiry_accepted now (time_window_hours cfg * 3600) = true ->
  encodable h = true ->
  encodable url_hash = true ->
  encodable (content_id_of content title url) = true ->
  exists n',
    is_duplicate now content title url
      {| config := cfg;
         redis_client := Some {| entries := []; faults := f; issued := n |};
         content_hashes := []; content_fingerprints := []; processed_items := [] |}
    = ((false, py "unique", 0),
       {| config := cfg;
          redis_client :=
            Some {| entries := first_records cfg now content title url h url_hash;
                    faults := f; issued := n' |};
          content_hashes := []; content_fingerprints := []; processed_items := [] |}).
Proof.
  intros Hf Hh Hmd5 Hacc He Heu Hec.
  unfold is_duplicate, is_duplicate_body, first_records.
  unfold content_id_of in *.
  set (cid := title ++ _) in *.
  assert (Hk1 : encodable (py "hash:" ++ h) = true) by (now apply encodable_key).
  assert (Hk2 : encodable (py "fingerprint:" ++ cid) = true) by (now apply encodable_key).
  assert (Hk3 : encodable (py "url:" ++ url_hash) = true) by (now apply encodable_key).
  assert (Hk4 : encodable (py "processed:" ++ cid) = true) by (now apply encodable_key).
  run_folded_in Hk1. run_folded_in Hk2. run_folded_in Hk3. run_folded_in Hk4.
  destruct (content_hash_enabled cfg) eqn:Hen, (semantic_analysis cfg) eqn:Hsem;
    destruct url as [|c url];
    repeat (exec_folded;
            rewrite ?Hen, ?Hsem, ?Hh, ?Hmd5, ?Hf, ?Hacc, ?Hec, ?Hk1, ?Hk2, ?Hk3, ?Hk4;
            rewrite ?redis_keys_few by (try apply Hf; few_keys));
    eexists; reflexivity.
Qed.

(** ** The semantic check, from storing to finding *)

Lemma local_similar_content (cfg : Config) (now1 now2 : Z)
    (content1 content2 title1 title2 url1 url2 h1 h2 : pystr) :
  semantic_analysis cfg = true ->
  create_content_hash content1 = Ok h1 ->
  create_content_hash content2 = Ok h2 ->
  h1 <> h2 ->
  0 < similarity_threshold cfg ->
  similarity_threshold cfg
  <= _calculate_similarity (create_semantic_fingerprint content2)
       (create_semantic_fingerprint content1) ->
  let eng := {| config := cfg; redis_client := None; content_hashes := [];
                content_fingerprints := []; processed_items := [] |} in
  fst (is_duplicate now1 content1 title1 url1 eng) = (false, py "unique", 0)
  /\ fst (is_duplicate now2 content2 title2 url2
            (snd (is_duplicate now1 content1 title1 url1 eng)))
     = (true,
        py "semantic_similar_to_" ++ content_id_of content1 title1 url1,
        _calculate_similarity (create_semantic_fingerprint content2)
          (create_semantic_fingerprint content1)).
Proof.
  intros Hsem Hh1 Hh2 Hneq Hpos Hsim eng. subst eng.
  assert (Hlt : Qltb 0 (_calculate_similarity (create_semantic_fingerprint content2)
                          (create_semantic_fingerprint content1)) = true).
  { apply Qltb_lt. eapply Qlt_le_trans; eauto. }
  assert (Hle : Qle_bool (similarity_threshold cfg)
                  (_calculate_similarity (create_semantic_fingerprint content2)
                     (create_semantic_fingerprint content1)) = true)
    by (now apply Qle_bool_iff).
  assert (Hne : str_eqb h2 h1 = false) by (apply str_eqb_neq; congruence).
  unfold is_duplicate, is_duplicate_body, content_id_of.
  set (cid1 := title1 ++ _). set (cid2 := title2 ++ _).
  destruct (content_hash_enabled cfg) eqn:Hen;
    destruct url1 as [|c url1];
    try (destruct (url_md5 (c :: url1)) as [uh|e] eqn:Hu);
    repeat (exec_folded;
            rewrite ?Hen, ?Hsem, ?Hh1, ?Hh2, ?Hu, ?Hne, ?Hle, ?Hlt, ?str_eqb_refl);
    try (destruct (timedelta_hours (time_window_hours cfg)) as [seconds|e0] eqn:Hdelta;
         run_folded;
         try (destruct (seconds <? now2 - now1)%Z));
    repeat (exec_folded;
            rewrite ?Hen, ?Hsem, ?Hh1, ?Hh2, ?Hu, ?Hne, ?Hle, ?Hlt, ?str_eqb_refl);
    split; reflexivity.
Qed.

(** ** The second submission to a healthy server

    Whether the server takes what the second submission stores is not
    known: its content id may be one the client cannot encode. *)

Lemma store_content_hash_healthy (cfg : Config)
    (ents : list (pystr * (redis_value * Z))) (f : nat -> bool) (n : nat)
    (now : Z) (h cid : pystr) :
  (forall k, f k = false) ->
  exists (stored : bool) (n' : nat),
    _store_content_hash now h cid
      {| config := cfg;
         redis_client := Some {| entries := ents; faults := f; issued := n |};
         content_hashes := []; content_fingerprints := []; processed_items := [] |}
    = (Ok tt,
       {| config := cfg;
          redis_client :=
            Some {| entries :=
                      if stored
                      then filter (fun e => negb (str_eqb (fst e) (py "hash:" ++ h))) ents
                           ++ [(py "hash:" ++ h,
                                (RStr cid, (now + time_window_hours cfg * 3600)%Z))]
                      else ents;
                    faults := f; issued := n' |};
          content_hashes := []; content_fingerprints := []; processed_items := [] |}).
Proof.
  intros Hf.
  unfold _store_content_hash, try_, bind, get, redis, redis_setex, redis_command,
    take_fault, ret, set_redis.
  cbn [config redis_client faults issued entries content_hashes content_fingerprints
       processed_items].
  destruct (encodable (py "hash:" ++ h) && sendable (RStr cid));
    [|exists false; eauto].
  rewrite Hf.
  destruct (expiry_accepted now (time_window_hours cfg * 3600));
    [exists true | exists false]; eauto.
Qed.

Lemma store_fingerprint_healthy (cfg : Config)
    (ents : list (pystr * (redis_value * Z))) (f : nat -> bool) (n : nat)
    (now : Z) (cid : pystr) (fp : Fingerprint) :
  (forall k, f k = false) ->
  exists (stored : bool) (n' : nat),
    _store_fingerprint now cid fp
      {| config := cfg;
         redis_client := Some {| entries := ents; faults := f; issued := n |};
         content_hashes := []; content_fingerprints := []; processed_items := [] |}
    = (Ok tt,
       {| config := cfg;
          redis_client :=
            Some {| entries :=
                      if stored
                      then filter (fun e => negb (str_eqb (fst e) (py "fingerprint:" ++ cid)))
                             ents
                           ++ [(py "fingerprint:" ++ cid,
                                (RJson fp, (now + time_window_hours cfg * 3600)%Z))]
                      else ents;
                    faults := f; issued := n' |};
          content_hashes := []; content_fingerprints := []; processed_items := [] |}).
Proof.
  intros Hf.
  unfold _store_fingerprint, try_, bind, get, redis, redis_setex, redis_command,
    take_fault, ret, set_redis.
  cbn [config redis_client faults issued entries content_hashes content_fingerprints
       processed_items].
  destruct (encodable (py "fingerprint:" ++ cid) && sendable (RJson fp));
    [|exists false; eauto].
  rewrite Hf.
  destruct (expiry_accepted now (time_window_hours cfg * 3600));
    [exists true | exists false]; eauto.
Qed.

End LaterStages.

(** Symbolic execution of a submission whose stores may fail. *)
Ltac run_second :=
  cbn -[create_semantic_fingerprint create_content_hash url_md5 firstn
        _calculate_similarity Qle_bool Qltb timedelta_hours redis_keys
        _store_content_hash _store_fingerprint].

Ltac exec_second Hf :=
  cbv beta iota zeta delta
    [bind get ret lift try_ modify redis redis_exists redis_get
     redis_command take_fault _is_hash_duplicate
     _get_stored_fingerprints _check_semantic_similarity
     _is_url_duplicate _clean_expired_entries
     url_stage semantic_stage set_redis set_content_hashes set_content_fingerprints
     set_processed_items config redis_client content_hashes content_fingerprints
     processed_items entries faults issued];
  run_second;
  rewrite ?Hf;
  rewrite ?redis_keys_few by (try apply Hf; few_keys);
  try match goal with
      | |- context [_store_content_hash ?now ?h ?cid
                      {| config := ?cfg;
                         redis_client :=
                           Some {| entries := ?ents; faults := ?f; issued := ?n |};
                         content_hashes := []; content_fingerprints := [];
                         processed_items := [] |}] =>
          let n' := fresh "n" in
          let Heq := fresh "Heq" in
          destruct (@store_content_hash_healthy cfg ents f n now h cid Hf)
            as ([|] & n' & Heq);
          rewrite Heq; clear Heq
      | |- context [_store_fingerprint ?now ?cid ?fp
                      {| config := ?cfg;
                         redis_client :=
                           Some {| entries := ?ents; faults := ?f; issued := ?n |};
                         content_hashes := []; content_fingerprints := [];
                         processed_items := [] |}] =>
          let n' := fresh "n" in
          let Heq := fresh "Heq" in
          destruct (@store_fingerprint_healthy cfg ents f n now cid fp Hf)
            as ([|] & n' & Heq);
          rewrite Heq; clear Heq
      end.

Section TwoSubmissions.

Context {E : PyEnv}.

Lemma redis_shared_url (cfg : Config) (r : Redis) (now1 now2 : Z)
    (content1 content2 title1 title2 url h1 h2 url_hash : pystr) :
  url <> [] ->
  url_md5 url = Ok url_hash ->
  create_content_hash content1 = Ok h1 ->
  create_content_hash content2 = Ok h2 ->
  h1 <> h2 ->
  _calculate_similarity (create_semantic_fingerprint content2)
    (create_semantic_fingerprint content1) < similarity_threshold cfg ->
  entries r = [] ->
  (forall n, faults r n = false) ->
  (now1 <= now2 < now1 + time_window_hours cfg * 3600)%Z ->
  expiry_accepted now1 (time_window_hours cfg * 3600) = true ->
  encodable h1 = true ->
  encodable url_hash = true ->
  encodable (content_id_of content1 title1 url) = true ->
  let eng := {| config := cfg; redis_client := Some r; content_hashes := [];
                content_fingerprints := []; processed_items := [] |} in
  fst (is_duplicate now1 content1 title1 url eng) = (false, py "unique", 0)
  /\ fst (is_duplicate now2 content2 title2 url
            (snd (is_duplicate now1 content1 title1 url eng)))
     = (true, py "url_duplicate", float 0.9).
Proof.
  intros Hurl Hmd5 Hh1 Hh2 Hneq Hsim Hentries Hf Hwin Hacc He1 Heu Hec eng. subst eng.
  destruct r as [ents f n]. cbn in Hentries, Hf. subst ents.
  destruct (@redis_first_call E cfg f n now1 content1 title1 url h1 url_hash
              Hf Hh1 Hmd5 Hacc He1 Heu Hec) as [n1 ->].
  split; [reflexivity|]. cbn [snd].
  destruct url as [|c url]; [contradiction|].
  assert (Hlive : (now2 <? now1 + time_window_hours cfg * 3600)%Z = true)
    by (apply Z.ltb_lt; lia).
  assert (Hle : Qle_bool (similarity_threshold cfg)
                  (_calculate_similarity (create_semantic_fingerprint content2)
                     (create_semantic_fingerprint content1)) = false).
  { destruct (Qle_bool _ _) eqn:H; [|reflexivity].
    apply Qle_bool_iff in H. exfalso. eapply Qlt_not_le; eauto. }
  assert (Hne : str_eqb h1 h2 = false) by (now apply str_eqb_neq).
  unfold is_duplicate, is_duplicate_body, first_records, content_id_of.
  set (cid1 := title1 ++ _). set (cid2 := title2 ++ _).
  destruct (content_hash_enabled cfg) eqn:Hen, (semantic_analysis cfg) eqn:Hsem,
    (str_eqb cid1 cid2) eqn:Hcid;
    repeat (exec_second Hf; unfold live;
            rewrite ?Hen, ?Hsem, ?Hh2, ?Hmd5, ?Hlive, ?Hne, ?Hle, ?Hcid, ?str_eqb_refl);
    try (destruct (Qltb 0 _));
    repeat (exec_second Hf; unfold live;
            rewrite ?Hen, ?Hsem, ?Hh2, ?Hmd5, ?Hlive, ?Hne, ?Hle, ?Hcid, ?str_eqb_refl);
    reflexivity.
Qed.

(** X4 (URL duplicates): on an empty store and a backend that does not
    fail and, when it is a server, takes what the first item stores (its
    hash, the digest of the URL and its content id can be encoded, the
    window is an accepted expiry), a first item is unique, and within the
    time window a second item with the same non-empty URL, whose content
    has another hash and is not similar enough to the first to be a
    semantic duplicate, is reported as [(True, "url_duplicate", 0.9)],
    whatever its title. *)
Theorem shared_url_is_duplicate
    (eng : Engine) (now1 now2 : Z)
    (content1 content2 title1 title2 url h1 h2 url_hash : pystr) :
  empty_store eng ->
  fault_free eng ->
  url <> [] ->
  url_md5 url = Ok url_hash ->
  create_content_hash content1 = Ok h1 ->
  create_content_hash content2 = Ok h2 ->
  h1 <> h2 ->
  _calculate_similarity (create_semantic_fingerprint content2)
    (create_semantic_fingerprint content1) < similarity_threshold (config eng) ->
  within_window eng now1 now2 ->
  storable eng now1 [h1; url_hash; content_id_of content1 title1 url] ->
  fst (is_duplicate now1 content1 title1 url eng) = (false, py "unique", 0)
  /\ fst (is_duplicate now2 content2 title2 url
            (snd (is_duplicate now1 content1 title1 url eng)))
     = (true, py "url_duplicate", float 0.9).
Proof.
  intros (Hhs & Hfps & Hpis & Hents) Hfree Hurl Hmd5 Hh1 Hh2 Hneq Hsim Hwin Hstore.
  destruct eng as [cfg rc hs fps pis]. cbn in Hhs, Hfps, Hpis, Hents, Hfree, Hsim.
  unfold within_window in Hwin. unfold storable in Hstore. cbn in Hwin, Hstore.
  subst hs fps pis.
  destruct rc as [r|].
  - destruct Hstore as [Hacc Henc].
    apply andb_prop in Henc as [He Henc]. apply andb_prop in Henc as [Heu Henc].
    apply andb_prop in Henc as [Hec _].
    now apply redis_shared_url with h1 h2 url_hash.
  - apply local_shared_url with h1 h2 url_hash; auto. lia.
Qed.

Lemma redis_similar_content (cfg : Config) (r : Redis) (now1 now2 : Z)
    (content1 content2 title1 title2 url1 url2 h1 h2 url_hash1 : pystr) :
  semantic_analysis cfg = true ->
  create_content_hash content1 = Ok h1 ->
  create_content_hash content2 = Ok h2 ->
  url_md5 url1 = Ok url_hash1 ->
  h1 <> h2 ->
  0 < similarity_threshold cfg ->
  similarity_threshold cfg
  <= _calculate_similarity (create_semantic_fingerprint content2)
       (create_semantic_fingerprint content1) ->
  entries r = [] ->
  (forall n, faults r n = false) ->
  (now1 <= now2 < now1 + time_window_hours cfg * 3600)%Z ->
  expiry_accepted now1 (time_window_hours cfg * 3600) = true ->
  encodable h1 = true ->
  encodable url_hash1 = true ->
  encodable (content_id_of content1 title1 url1) = true ->
  let eng := {| config := cfg; redis_client := Some r; content_hashes := [];
                content_fingerprints := []; processed_items := [] |} in
  fst (is_duplicate now1 content1 title1 url1 eng) = (false, py "unique", 0)
  /\ fst (is_duplicate now2 content2 title2 url2
            (snd (is_duplicate now1 content1 title1 url1 eng)))
     = (true,
        py "semantic_similar_to_" ++ content_id_of content1 title1 url1,
        _calculate_similarity (create_semantic_fingerprint content2)
          (create_semantic_fingerprint content1)).
Proof.
  intros Hsem Hh1 Hh2 Hmd5 Hneq Hthr Hsim Hentries Hf Hwin Hacc He1 Heu Hec eng.
  subst eng.
  destruct r as [ents f n]. cbn in Hentries, Hf. subst ents.
  destruct (@redis_first_call E cfg f n now1 content1 title1 url1 h1 url_hash1
              Hf Hh1 Hmd5 Hacc He1 Heu Hec) as [n1 ->].
  split; [reflexivity|]. cbn [snd].
  assert (Hlive : (now2 <? now1 + time_window_hours cfg * 3600)%Z = true)
    by (apply Z.ltb_lt; lia).
  assert (Hlt : Qltb 0 (_calculate_similarity (create_semantic_fingerprint content2)
                          (create_semantic_fingerprint content1)) = true).
  { apply Qltb_lt. eapply Qlt_le_trans; eauto. }
  assert (Hle : Qle_bool (similarity_threshold cfg)
                  (_calculate_similarity (create_semantic_fingerprint content2)
                     (create_semantic_fingerprint content1)) = true)
    by (now apply Qle_bool_iff).
  assert (Hne : str_eqb h1 h2 = false) by (now apply str_eqb_neq).
  unfold is_duplicate, is_duplicate_body, first_records, content_id_of.
  set (cid1 := title1 ++ _). set (cid2 := title2 ++ _).
  destruct (content_hash_enabled cfg) eqn:Hen;
    destruct url1 as [|c url1];
    repeat (exec_second Hf; unfold live;
            rewrite ?Hen, ?Hsem, ?Hh2, ?Hlive, ?Hne, ?Hle, ?Hlt, ?str_eqb_refl);
    reflexivity.
Qed.

(** X5 (a stored fingerprint is found again): on an empty store and a
    backend that does not fail and, when it is a server, takes what the
    first item stores (its hash, the digest of its URL and its content id
    can be encoded, the window is an accepted expiry), with the semantic
    analysis enabled and a positive threshold, a first item is unique and
    stores its fingerprint under its content id
    [f"{title}_{url}_{content[:100]}"]; within the time window a second
    item with another hash whose similarity to the first, as the engine
    computes it, reaches the threshold is reported as
    [(True, "semantic_similar_to_<content id of the first>", similarity)].
    On Redis the content id is read back from the key by
    [key.split(':', 1)[1]], colons in the URL included. *)
Theorem similar_content_is_flagged
    (eng : Engine) (now1 now2 : Z)
    (content1 content2 title1 title2 url1 url2 h1 h2 url_hash1 : pystr) :
  empty_store eng ->
  fault_free eng ->
  semantic_analysis (config eng) = true ->
  create_content_hash content1 = Ok h1 ->
  create_content_hash content2 = Ok h2 ->
  url_md5 url1 = Ok url_hash1 ->
  h1 <> h2 ->
  0 < similarity_threshold (config eng) ->
  similarity_threshold (config eng)
  <= _calculate_similarity (create_semantic_fingerprint content2)
       (create_semantic_fingerprint content1) ->
  within_window eng now1 now2 ->
  storable eng now1 [h1; url_hash1; content_id_of content1 title1 url1] ->
  fst (is_duplicate now1 content1 title1 url1 eng) = (false, py "unique", 0)
  /\ fst (is_duplicate now2 content2 title2 url2
            (snd (is_duplicate now1 content1 title1 url1 eng)))
     = (true,
        py "semantic_similar_to_" ++ content_id_of content1 title1 url1,
        _calculate_similarity (create_semantic_fingerprint content2)
          (create_semantic_fingerprint content1)).
Proof.
  intros (Hhs & Hfps & Hpis & Hents) Hfree Hsem Hh1 Hh2 Hmd5 Hneq Hthr Hsim Hwin Hstore.
  destruct eng as [cfg rc hs fps pis].
  cbn in Hhs, Hfps, Hpis, Hents, Hfree, Hsem, Hthr, Hsim.
  unfold within_window in Hwin. unfold storable in Hstore. cbn in Hwin, Hstore.
  subst hs fps pis.
  destruct rc as [r|].
  - destruct Hstore as [Hacc Henc].
    apply andb_prop in Henc as [He Henc]. apply andb_prop in Henc as [Heu Henc].
    apply andb_prop in Henc as [Hec _].
    now apply redis_similar_content with h1 h2 url_hash1.
  - now apply local_similar_content with h1 h2.
Qed.

End TwoSubmissions.

(** X4 at work: two different articles published under one URL, sent to
    an engine on a healthy server at clock readings 0 and 60. *)
Lemma shared_url_is_duplicate_witness :
  let eng := new_engine default_config (Some healthy_server) in
  fst (@is_duplicate simple_env 0 (py "breaking news") (py "News")
         (py "http://example.org/a") eng)
  = (false, py "unique", 0)
  /\ fst (@is_duplicate simple_env 60 (py "weather report") (py "Weather")
            (py "http://example.org/a")
            (snd (@is_duplicate simple_env 0 (py "breaking news") (py "News")
                    (py "http://example.org/a") eng)))
     = (true, py "url_duplicate", float 0.9).
Proof.
  apply (@shared_url_is_duplicate simple_env
           (new_engine default_config (Some healthy_server)) 0 60
           (py "breaking news") (py "weather report") (py "News") (py "Weather")
           (py "http://example.org/a") (py "breaking news") (py "weather report")
           (py "http://example.org/a")).
  - repeat split.
  - intros n. reflexivity.
  - discriminate.
  - vm_compute. reflexivity.
  - vm_compute. reflexivity.
  - vm_compute. reflexivity.
  - intros H. vm_compute in H. discriminate.
  - vm_compute. reflexivity.
  - unfold within_window. cbn. lia.
  - split; vm_compute; reflexivity.
Defined.

(** X5 at work: the doubles of the similarity of "robot robot" to "robot"
    add up to a number above the default threshold; the second text is
    sent a minute after the first, under another title and URL. *)
Lemma similar_content_is_flagged_witness :
  let eng := new_engine default_config (Some healthy_server) in
  fst (@is_duplicate simple_env 0 (py "robot") (py "One") (py "http://example.org/1") eng)
  = (false, py "unique", 0)
  /\ fst (@is_duplicate simple_env 60 (py "robot robot") (py "Two")
            (py "http://example.org/2")
            (snd (@is_duplicate simple_env 0 (py "robot") (py "One")
                    (py "http://example.org/1") eng)))
     = (true,
        py "semantic_similar_to_"
        ++ content_id_of (py "robot") (py "One") (py "http://example.org/1"),
        @_calculate_similarity simple_env
          (@create_semantic_fingerprint simple_env (py "robot robot"))
          (@create_semantic_fingerprint simple_env (py "robot"))).
Proof.
  apply (@similar_content_is_flagged simple_env
           (new_engine default_config (Some healthy_server)) 0 60
           (py "robot") (py "robot robot") (py "One") (py "Two")
           (py "http://example.org/1") (py "http://example.org/2")
           (py "robot") (py "robot robot") (py "http://example.org/1")).
  - repeat split.
  - intros n. reflexivity.
  - reflexivity.
  - vm_compute. reflexivity.
  - vm_compute. reflexivity.
  - vm_compute. reflexivity.
  - intros H. vm_compute in H. discriminate.
  - vm_compute. reflexivity.
  - vm_compute. discriminate.
  - unfold within_window. cbn. lia.
  - split; vm_compute; reflexivity.
Defined.

(* ================================================================== *)
(** * Properties: the in-memory caches *)
(* ================================================================== *)

(** ** The size of the fingerprint table *)

Lemma dict_set_length {V} (key : pystr) (value : V) (d : list (pystr * V)) :
  (length (dict_set key value d) <= S (length d))%nat.
Proof.
  induction d as [|[k v] d IH]; cbn [dict_set length]; [lia|].
  destruct (str_eqb k key); cbn [length]; lia.
Qed.

Lemma set_add_mem (x : pystr) (s : list pystr) : str_mem x (set_add x s) = true.
Proof.
  unfold set_add. destruct (str_mem x s) eqn:Hm; [assumption|].
  apply str_mem_In, in_or_app. right. now left.
Qed.

Section Memory.

Context {E : PyEnv}.

Lemma table_within_mono (n m : Z) (eng : Engine) :
  (n <= m)%Z -> table_within n eng -> table_within m eng.
Proof. intros Hnm [Hr Hl]. split; [exact Hr | lia]. Qed.

Lemma sweep_bounds_table (now : Z) (eng : Engine) :
  window_fits eng ->
  table_within 10001 eng -> table_within 10000 (snd (_clean_expired_entries now eng)).
Proof.
  intros [seconds Hfits] [Hr Hl]. rewrite (clean_local_state now eng Hr).
  rewrite (@unexpired_fits now _ _ (processed_items eng) Hfits). cbn [snd].
  split; [exact Hr|]. cbn [content_fingerprints set_content_fingerprints].
  destruct (10000 <? len (content_fingerprints eng))%Z eqn:Hbig.
  - unfold len in *. rewrite length_skipn. lia.
  - apply Z.ltb_ge in Hbig. exact Hbig.
Qed.

Lemma table_within_redis n eng r r' :
  table_within n eng -> redis_client eng = Some r -> server_step any_key r r' ->
  table_within n (set_redis (Some r') eng).
Proof. intros [Hr _] Hs. congruence. Qed.

Lemma table_within_hashes n eng h :
  table_within n eng -> redis_client eng = None -> table_within n (set_content_hashes h eng).
Proof. intros H _. exact H. Qed.

Lemma table_within_urls n eng key seen :
  table_within n eng -> redis_client eng = None ->
  table_within n (set_processed_items (dict_set key seen (processed_items eng)) eng).
Proof. intros H _. exact H. Qed.

Lemma store_fingerprint_grows_by_one now cid fp :
  hoare (table_within 10000) (_store_fingerprint now cid fp)
    (fun _ eng => table_within 10001 eng).
Proof.
  apply hoare_try with (R := fun _ eng => table_within 10001 eng); auto.
  - apply hoare_read. intros eng [Hr Hl]. cbv zeta. rewrite Hr.
    unfold modify. cbn [fst snd]. split; [exact Hr|].
    cbn [content_fingerprints set_content_fingerprints]. unfold len in *.
    pose proof (dict_set_length cid fp (content_fingerprints eng)). lia.
  - intros e. apply hoare_ret. auto.
Qed.

Lemma semantic_stage_table now content url cid :
  hoare (table_within 10000) (semantic_stage now content url cid)
    (fun _ eng => table_within 10001 eng).
Proof.
  assert (Hurl : invariant (table_within 10001) (url_stage now url cid)).
  { apply invariant_url_stage with (K := any_key);
      [apply any_key_holds | apply any_key_holds | apply table_within_redis
      | apply table_within_urls]. }
  apply hoare_read. intros eng Hin.
  destruct (semantic_analysis (config eng)).
  - apply (@hoare_bind _ _ (table_within 10000)
             (_check_semantic_similarity now (create_semantic_fingerprint content) cid)
             (fun similarity_result =>
                if fst (fst similarity_result) then ret similarity_result
                else bind (_store_fingerprint now cid (create_semantic_fingerprint content))
                       (fun _ => url_stage now url cid))
             (fun _ eng => table_within 10000 eng)
             (fun _ eng => table_within 10001 eng)); auto.
    + apply invariant_check_semantic with (K := any_key). apply table_within_redis.
    + intros v. destruct (fst (fst v)).
      * apply hoare_ret. intros e. apply table_within_mono. lia.
      * apply hoare_bind with (R := fun _ eng => table_within 10001 eng).
        -- apply store_fingerprint_grows_by_one.
        -- intros _. exact Hurl.
        -- auto.
    + intros e eng0. apply table_within_mono. lia.
  - apply Hurl. revert Hin. apply table_within_mono. lia.
Qed.

(** X6 (the in-memory fingerprint table is bounded): an in-memory engine
    whose window is a [timedelta] (between -23999999976 and 23999999999
    hours) and whose table holds at most 10001 fingerprints still holds at
    most 10001 after any call of [is_duplicate]: the sweep at the start of
    the call cuts a table of more than 10000 entries down by 5000, and the
    call adds at most one. *)
Theorem fingerprint_table_stays_bounded
    (now : Z) (content title url : pystr) (eng : Engine) :
  redis_client eng = None ->
  window_fits eng ->
  (len (content_fingerprints eng) <= 10001)%Z ->
  (len (content_fingerprints (snd (is_duplicate now content title url eng))) <= 10001)%Z.
Proof.
  intros Hr Hfits Hl.
  assert (Hbody : table_within 10001 (snd (is_duplicate_body now content title url eng))).
  { unfold is_duplicate_body.
    apply (@hoare_bind _ _ (fun eng => window_fits eng /\ table_within 10001 eng)
             (_clean_expired_entries now) _
             (fun _ eng => table_within 10000 eng)
             (fun _ eng => table_within 10001 eng)).
    - intros e [Hw He]. now apply sweep_bounds_table.
    - intros _. apply hoare_read. intros eng0 Hin.
      destruct (content_hash_enabled (config eng0)).
      + apply (@hoare_bind _ _ (table_within 10000) (lift (create_content_hash content)) _
                 (fun _ eng => table_within 10000 eng)
                 (fun _ eng => table_within 10001 eng)); auto.
        * apply invariant_lift.
        * intros h.
          apply hoare_bind with (R := fun _ eng => table_within 10000 eng).
          -- apply invariant_is_hash_duplicate with (K := any_key). apply table_within_redis.
          -- intros [|].
             ++ apply hoare_ret. intros e. apply table_within_mono. lia.
             ++ apply hoare_bind with (R := fun _ eng => table_within 10000 eng).
                ** apply invariant_store_content_hash with (K := any_key);
                     [apply any_key_holds | apply table_within_redis
                     | apply table_within_hashes].
                ** intros _. apply semantic_stage_table.
                ** intros e eng1. apply table_within_mono. lia.
          -- intros e eng1. apply table_within_mono. lia.
        * intros e eng1. apply table_within_mono. lia.
      + now apply semantic_stage_table.
    - intros e eng1. apply table_within_mono. lia.
    - split; [exact Hfits | split; assumption]. }
  unfold is_duplicate.
  destruct (is_duplicate_body now content title url eng) as [[v|e] eng']; apply Hbody.
Qed.

End Memory.

(** X6 at work: the in-memory engine that has seen "robot" is sent another
    text. *)
Lemma fingerprint_table_stays_bounded_witness :
  (len (content_fingerprints
          (snd (@is_duplicate simple_env 1 (py "breaking news") [] [] robot_engine)))
   <= 10001)%Z.
Proof.
  apply (@fingerprint_table_stays_bounded simple_env 1 (py "breaking news") [] []
           robot_engine).
  - reflexivity.
  - exists 86400%Z. reflexivity.
  - vm_compute. discriminate.
Defined.

(* ================================================================== *)
(** * Properties: the record of content hashes *)
(* ================================================================== *)

Lemma existsb_filter {A} (p q : A -> bool) (l : list A) :
  (forall x, p x = true -> q x = true) ->
  existsb p l = true -> existsb p (filter q l) = true.
Proof.
  intros Hpq H. apply existsb_exists in H as (x & Hin & Hp).
  apply existsb_exists. exists x. split; [|exact Hp].
  apply filter_In. auto.
Qed.

Lemma startswith_app (p s : pystr) : startswith p (p ++ s) = true.
Proof.
  induction p as [|c p IH]; [reflexivity|]. cbn [app startswith].
  now rewrite N.eqb_refl, IH.
Qed.

Section Bookkeeping.

Context {E : PyEnv}.

(** ** In memory *)

Lemma semantic_stage_keeps_hashes hs now content url cid :
  invariant (holds_hashes hs) (semantic_stage now content url cid).
Proof.
  apply invariant_semantic_stage with (K := any_key); try apply any_key_holds.
  - intros eng r r' [Hr _] Hs. congruence.
  - intros eng key fp H _. exact H.
  - intros eng key seen H _. exact H.
Qed.

(** What a call does to the in-memory hash set, and when it answers
    "exact_duplicate". *)
Lemma local_hash_step
    (cfg : Config) (hs : list pystr) (fps : list (pystr * Fingerprint))
    (pis : list (pystr * Z)) (now : Z) (content title url h : pystr) :
  content_hash_enabled cfg = true ->
  create_content_hash content = Ok h ->
  let eng := {| config := cfg; redis_client := None; content_hashes := hs;
                content_fingerprints := fps; processed_items := pis |} in
  content_hashes (snd (is_duplicate now content title url eng)) = set_add h hs
  /\ (fst (is_duplicate now content title url eng) = (true, py "exact_duplicate", 1)
      <-> str_mem h hs = true).
Proof.
  intros Hen Hh eng. subst eng.
  remember (is_duplicate now content title url _) as out eqn:Hout.
  unfold is_duplicate, is_duplicate_body in Hout.
  set (cid := title ++ _) in Hout.
  unfold bind at 1 in Hout.
  destruct (clean_local_hashes cfg hs fps pis now) as (fps' & pis' & Hclean).
  rewrite Hclean in Hout. clear Hclean.
  cbn -[semantic_stage create_content_hash firstn] in Hout. rewrite Hen, Hh in Hout.
  cbn -[semantic_stage create_content_hash firstn] in Hout.
  change (existsb (str_eqb h) hs) with (str_mem h hs) in Hout.
  destruct (str_mem h hs) eqn:Hmem.
  - subst out. cbn [fst snd content_hashes]. unfold set_add. rewrite Hmem.
    split; [reflexivity | split; intros _; reflexivity].
  - cbn -[semantic_stage create_content_hash firstn] in Hout.
    match type of Hout with
    | context [semantic_stage now content url cid ?s] => set (state := s) in Hout
    end.
    assert (Hstate : holds_hashes (set_add h hs) state) by (split; reflexivity).
    pose proof (semantic_stage_keeps_hashes now content url cid Hstate) as [_ Hkeep].
    pose proof (@semantic_stage_returns E cfg now content url cid state eq_refl) as Hshape.
    destruct (total_semantic_stage now content url cid state) as (v & eng' & Hrun).
    rewrite Hrun in *. cbn [fst snd returns] in *. subst out. cbn [fst snd].
    split; [exact Hkeep|]. split; [|discriminate].
    intros Hv. exfalso. now apply (stage_shape_not_exact Hshape).
Qed.

(** X7 (the in-memory hash set): on the in-memory backend with the hash
    check enabled, a call of [is_duplicate] on a content with hash [h]
    answers [(True, "exact_duplicate", 1.0)] exactly when [h] is in
    [content_hashes], and leaves [content_hashes] with [h] added and
    nothing else changed. *)
Theorem local_hash_bookkeeping
    (now : Z) (content title url h : pystr) (eng : Engine) :
  redis_client eng = None ->
  content_hash_enabled (config eng) = true ->
  create_content_hash content = Ok h ->
  content_hashes (snd (is_duplicate now content title url eng))
  = set_add h (content_hashes eng)
  /\ (fst (is_duplicate now content title url eng) = (true, py "exact_duplicate", 1)
      <-> str_mem h (content_hashes eng) = true).
Proof.
  intros Hr Hen Hh.
  destruct eng as [cfg rc hs fps pis]. cbn in Hr, Hen. subst rc.
  now apply local_hash_step.
Qed.

(** X8 (the in-memory hash set never forgets): on the in-memory backend
    with the hash check enabled, a content submitted once is an exact
    duplicate at every later submission, whatever the state the engine
    started from, the titles, the URLs and the two clock readings: the
    hash set is neither swept nor bounded. *)
Theorem local_submission_is_remembered
    (now1 now2 : Z) (content title1 url1 title2 url2 h : pystr) (eng : Engine) :
  redis_client eng = None ->
  content_hash_enabled (config eng) = true ->
  create_content_hash content = Ok h ->
  fst (is_duplicate now2 content title2 url2
         (snd (is_duplicate now1 content title1 url1 eng)))
  = (true, py "exact_duplicate", 1).
Proof.
  intros Hr Hen Hh.
  destruct (is_duplicate_keeps_backend now1 content title1 url1 eng) as (Hcfg & Hback).
  assert (Hhs : content_hashes (snd (is_duplicate now1 content title1 url1 eng))
                = set_add h (content_hashes eng)).
  { destruct eng as [cfg rc hs fps pis]. cbn in Hr, Hen. subst rc.
    now apply local_hash_step. }
  apply local_hash_hit with h; auto.
  - now rewrite Hcfg.
  - unfold uses_redis in Hback. rewrite Hr in Hback.
    destruct (redis_client (snd (is_duplicate now1 content title1 url1 eng)));
      [discriminate | reflexivity].
  - rewrite Hhs. apply set_add_mem.
Qed.

(** ** On Redis *)

Lemma holds_key_step f later h eng r r' :
  holds_key f later (py "hash:" ++ h) eng ->
  redis_client eng = Some r ->
  server_step (fun key => startswith (py "hash:") key = false) r r' ->
  holds_key f later (py "hash:" ++ h) (set_redis (Some r') eng).
Proof.
  intros (r0 & Hr0 & Hf & Halive) Hr Hstep. rewrite Hr in Hr0. injection Hr0 as <-.
  destruct Hstep as [n | n key value expiry HK]; eexists; (split; [reflexivity|]);
    (split; [exact Hf|]); [exact Halive|].
  unfold key_alive in *. cbn [entries]. rewrite existsb_app. apply orb_true_iff. left.
  revert Halive. apply existsb_filter. intros e He.
  apply andb_prop in He as [He _]. apply str_eqb_eq in He. rewrite He.
  apply negb_true_iff. apply str_eqb_neq. intros <-.
  now rewrite (startswith_app (py "hash:") h) in HK.
Qed.

Lemma semantic_stage_keeps_hash_key f later h now content url cid :
  invariant (holds_key f later (py "hash:" ++ h)) (semantic_stage now content url cid).
Proof.
  apply invariant_semantic_stage
    with (K := fun key => startswith (py "hash:") key = false);
    try (intros; reflexivity).
  - apply holds_key_step.
  - intros eng key fp (r & Hr & _) Hn. congruence.
  - intros eng key seen (r & Hr & _) Hn. congruence.
Qed.

(** What a call does to the hash key of its content, and when it answers
    "exact_duplicate". *)
Lemma redis_hash_step
    (cfg : Config) (ents : list (pystr * (redis_value * Z))) (f : nat -> bool) (n : nat)
    (hs : list pystr) (fps : list (pystr * Fingerprint)) (pis : list (pystr * Z))
    (now later : Z) (content title url h : pystr) :
  (forall k, f k = false) ->
  content_hash_enabled cfg = true ->
  create_content_hash content = Ok h ->
  let r := {| entries := ents; faults := f; issued := n |} in
  let eng := {| config := cfg; redis_client := Some r; content_hashes := hs;
                content_fingerprints := fps; processed_items := pis |} in
  (fst (is_duplicate now content title url eng) = (true, py "exact_duplicate", 1)
   <-> key_alive now (py "hash:" ++ h) r = true)
  /\ (key_alive now (py "hash:" ++ h) r = false ->
      (now <= later < now + time_window_hours cfg * 3600)%Z ->
      storable eng now [h; content_id_of content title url] ->
      exists r',
        redis_client (snd (is_duplicate now content title url eng)) = Some r'
        /\ faults r' = f
        /\ key_alive later (py "hash:" ++ h) r' = true).
Proof.
  intros Hf Hen Hh r eng. subst r eng.
  remember (is_duplicate now content title url _) as out eqn:Hout.
  unfold is_duplicate, is_duplicate_body in Hout.
  unfold storable, content_id_of. cbn [redis_client config forallb].
  set (cid := title ++ _) in *.
  cbv beta iota zeta delta
    [bind get ret lift try_ redis redis_exists redis_command take_fault
     _is_hash_duplicate _clean_expired_entries set_redis
     config redis_client content_hashes content_fingerprints processed_items
     entries faults issued] in Hout.
  rewrite Hen, Hh, Hf in Hout. cbv beta iota in Hout.
  change (existsb (fun e => str_eqb (fst e) (py "hash:" ++ h) && live now e) ents)
    with (key_alive now (py "hash:" ++ h) {| entries := ents; faults := f; issued := n |})
    in Hout.
  destruct (key_alive now (py "hash:" ++ h) _) eqn:Halive.
  - subst out. split; [split; intros _; reflexivity | discriminate].
  - cbv beta iota zeta delta
      [bind get ret try_ redis redis_setex redis_command take_fault set_redis
       _store_content_hash sendable
       config redis_client content_hashes content_fingerprints processed_items
       entries faults issued] in Hout.
    assert (Hshape : forall state, config state = cfg ->
              stage_shape cfg (fst (match semantic_stage now content url cid state with
                                    | (Ok v, eng') => (v, eng')
                                    | (Raise _, eng') => ((false, py "error_fallback", 0), eng')
                                    end))).
    { intros state Hcfg.
      pose proof (@semantic_stage_returns E cfg now content url cid state Hcfg) as H.
      destruct (total_semantic_stage now content url cid state) as (v & eng' & Hrun).
      rewrite Hrun in *. exact H. }
    assert (Hkeep : forall state, holds_key f later (py "hash:" ++ h) state ->
              holds_key f later (py "hash:" ++ h)
                (snd (match semantic_stage now content url cid state with
                      | (Ok v, eng') => (v, eng')
                      | (Raise _, eng') => ((false, py "error_fallback", 0), eng')
                      end))).
    { intros state Hstate.
      pose proof (@semantic_stage_keeps_hash_key f later h now content url cid state Hstate)
        as H.
      now destruct (semantic_stage now content url cid state) as [[v|e] eng']. }
    assert (Hnot : forall state, config state = cfg ->
              fst (match semantic_stage now content url cid state with
                   | (Ok v, eng') => (v, eng')
                   | (Raise _, eng') => ((false, py "error_fallback", 0), eng')
                   end) = (true, py "exact_duplicate", 1) <-> false = true).
    { intros state Hcfg. split; [|discriminate]. intros Hv. exfalso.
      eapply stage_shape_not_exact; [|exact Hv]. now apply Hshape. }
    assert (Hkey : encodable (py "hash:" ++ h) = encodable h)
      by (rewrite encodable_app; reflexivity).
    rewrite Hkey in Hout.
    destruct (encodable h && encodable cid) eqn:Henc; cbv beta iota in Hout;
      [rewrite Hf in Hout; cbv beta iota in Hout;
       destruct (expiry_accepted now (time_window_hours cfg * 3600)) eqn:Hacc;
       cbv beta iota in Hout|];
      subst out; (split; [now apply Hnot|]); intros _ Hwin [Hacc' Henc'].
    + apply Hkeep. eexists. split; [reflexivity|]. split; [reflexivity|].
      unfold key_alive. cbn [entries]. rewrite existsb_app. apply orb_true_iff. right.
      cbn [existsb fst]. rewrite str_eqb_refl. unfold live. cbn [snd].
      replace (later <? now + time_window_hours cfg * 3600)%Z with true
        by (symmetry; apply Z.ltb_lt; lia).
      reflexivity.
    + congruence.
    + rewrite andb_true_r in Henc'. congruence.
Qed.

(** X9 (the hash keys on Redis): on a server that does not fail, with
    the hash check enabled, a call of [is_duplicate] on a content with
    hash [h] answers [(True, "exact_duplicate", 1.0)] exactly when the key
    ["hash:" + h] is alive; when it is not, and the client can encode the
    hash and the content id of the submission, and the server accepts the
    window as an expiry, the call leaves that key alive for the whole time
    window, whatever the later stages of the call store under other
    keys. *)
Theorem redis_hash_bookkeeping
    (now later : Z) (content title url h : pystr) (eng : Engine) (r : Redis) :
  redis_client eng = Some r ->
  (forall n, faults r n = false) ->
  content_hash_enabled (config eng) = true ->
  create_content_hash content = Ok h ->
  (fst (is_duplicate now content title url eng) = (true, py "exact_duplicate", 1)
   <-> key_alive now (py "hash:" ++ h) r = true)
  /\ (key_alive now (py "hash:" ++ h) r = false ->
      (now <= later < now + time_window_hours (config eng) * 3600)%Z ->
      storable eng now [h; content_id_of content title url] ->
      exists r',
        redis_client (snd (is_duplicate now content title url eng)) = Some r'
        /\ faults r' = faults r
        /\ key_alive later (py "hash:" ++ h) r' = true).
Proof.
  intros Hr Hf Hen Hh.
  destruct eng as [cfg rc hs fps pis]. cbn in Hr, Hen. subst rc.
  destruct r as [ents f n]. cbn in Hf.
  now apply redis_hash_step.
Qed.

End Bookkeeping.

(** X7 at work: the in-memory engine that has seen "robot" is sent "robot"
    again. *)
Lemma local_hash_bookkeeping_witness :
  content_hashes (snd (@is_duplicate simple_env 1 (py "robot") (py "Again") [] robot_engine))
  = set_add (py "robot") (content_hashes robot_engine)
  /\ (fst (@is_duplicate simple_env 1 (py "robot") (py "Again") [] robot_engine)
      = (true, py "exact_duplicate", 1)
      <-> str_mem (py "robot") (content_hashes robot_engine) = true).
Proof.
  apply (@local_hash_bookkeeping simple_env 1 (py "robot") (py "Again") [] (py "robot")
           robot_engine).
  - reflexivity.
  - reflexivity.
  - vm_compute. reflexivity.
Defined.

(** X8 at work: the same text under two titles and URLs, a billion seconds
    apart. *)
Lemma local_submission_is_remembered_witness :
  fst (@is_duplicate simple_env 1000000000 (py "breaking news") (py "Again")
         (py "http://example.org/b")
         (snd (@is_duplicate simple_env 0 (py "breaking news") (py "News")
                 (py "http://example.org/a") (new_engine default_config None))))
  = (true, py "exact_duplicate", 1).
Proof.
  apply (@local_submission_is_remembered simple_env 0 1000000000 (py "breaking news")
           (py "News") (py "http://example.org/a") (py "Again") (py "http://example.org/b")
           (py "breaking news") (new_engine default_config None)).
  - reflexivity.
  - reflexivity.
  - vm_compute. reflexivity.
Defined.

(** X9 at work: the text "robot" is sent to the engine on the busy server
    at clock reading 0; its hash key is looked at a minute later. *)
Lemma redis_hash_bookkeeping_witness :
  (fst (@is_duplicate simple_env 0 (py "robot") (py "Robots") [] busy_engine)
   = (true, py "exact_duplicate", 1)
   <-> key_alive 0 (py "hash:" ++ py "robot") busy_server = true)
  /\ (key_alive 0 (py "hash:" ++ py "robot") busy_server = false ->
      (0 <= 60 < 0 + time_window_hours (config busy_engine) * 3600)%Z ->
      storable busy_engine 0 [py "robot"; content_id_of (py "robot") (py "Robots") []] ->
      exists r',
        redis_client (snd (@is_duplicate simple_env 0 (py "robot") (py "Robots") []
                             busy_engine)) = Some r'
        /\ faults r' = faults busy_server
        /\ key_alive 60 (py "hash:" ++ py "robot") r' = true).
Proof.
  apply (@redis_hash_bookkeeping simple_env 0 60 (py "robot") (py "Robots") [] (py "robot")
           busy_engine busy_server).
  - reflexivity.
  - intros n. reflexivity.
  - reflexivity.
  - vm_compute. reflexivity.
Defined.

(* ================================================================== *)
(** * Properties: statistics *)
(* ================================================================== *)

Ltac exec_stats :=
  cbv beta iota zeta delta
    [bind get ret lift try_ modify redis redis_exists redis_setex redis_get
     redis_count_keys get_stats get_stats_body
     redis_command take_fault _is_hash_duplicate _store_content_hash
     _get_stored_fingerprints _check_semantic_similarity _store_fingerprint
     _is_url_duplicate _store_processed_url _record_processed_item
     _clean_expired_entries
     url_stage semantic_stage set_redis set_content_hashes set_content_fingerprints
     set_processed_items config redis_client content_hashes content_fingerprints
     processed_items entries faults issued];
  run_folded.

Section Statistics.

Context {E : PyEnv}.

Lemma get_stats_local (now : Z) (eng : Engine) :
  redis_client eng = None ->
  get_stats now eng
  = (Stats (len (content_hashes eng)) (len (content_fingerprints eng))
       (len (processed_items eng)) (similarity_threshold (config eng))
       (time_window_hours (config eng)) false,
     eng).
Proof.
  intros Hr. unfold get_stats, get_stats_body, bind, get, ret. rewrite !Hr. reflexivity.
Qed.

(** X11 ([get_stats] counts what [is_duplicate] stored): on the in-memory
    backend with the hash check enabled, the entry ['stored_hashes'] of the
    statistics grows by one with a call of [is_duplicate] on a content
    whose hash is new, and stays as it was, the call answering
    "exact_duplicate", on a content whose hash is held. *)
Theorem stored_hashes_counts_new_content
    (now later : Z) (content title url h : pystr) (eng : Engine) (before : Z) :
  redis_client eng = None ->
  content_hash_enabled (config eng) = true ->
  create_content_hash content = Ok h ->
  reported_hashes (fst (get_stats now eng)) = Some before ->
  reported_hashes
    (fst (get_stats later (snd (is_duplicate now content title url eng))))
  = Some (if str_mem h (content_hashes eng) then before else (before + 1)%Z)
  /\ (fst (is_duplicate now content title url eng) = (true, py "exact_duplicate", 1)
      <-> str_mem h (content_hashes eng) = true).
Proof.
  intros Hr Hen Hh Hbefore.
  destruct (is_duplicate_keeps_backend now content title url eng) as (Hcfg & Hback).
  assert (Hstep : content_hashes (snd (is_duplicate now content title url eng))
                  = set_add h (content_hashes eng)
                  /\ (fst (is_duplicate now content title url eng)
                      = (true, py "exact_duplicate", 1)
                      <-> str_mem h (content_hashes eng) = true)).
  { destruct eng as [cfg rc hs fps pis]. cbn in Hr, Hen. subst rc.
    now apply local_hash_step. }
  destruct Hstep as [Hhs Hiff].
  split; [|exact Hiff].
  rewrite (get_stats_local now eng Hr) in Hbefore. cbn in Hbefore.
  injection Hbefore as <-.
  rewrite get_stats_local.
  - cbn [fst reported_hashes]. rewrite Hhs. unfold set_add, len.
    destruct (str_mem h (content_hashes eng)); [reflexivity|].
    rewrite length_app. cbn [length]. f_equal. lia.
  - unfold uses_redis in Hback. rewrite Hr in Hback.
    destruct (redis_client (snd (is_duplicate now content title url eng)));
      [discriminate | reflexivity].
Qed.

(** X12 (the statistics after a first submission): on an empty store and
    a backend that does not fail and, when it is a server, takes what the
    submission stores (hash, URL digest and content id can be encoded, the
    window is an accepted expiry), after one call of [is_duplicate] the
    statistics read within the time window report one stored hash if the
    hash check is enabled, one stored fingerprint if the semantic analysis
    is enabled, and one processed URL if the URL is not empty; the two
    backends report the same counts. *)
Theorem first_submission_statistics
    (eng : Engine) (now later : Z) (content title url h url_hash : pystr) :
  empty_store eng ->
  fault_free eng ->
  create_content_hash content = Ok h ->
  url_md5 url = Ok url_hash ->
  within_window eng now later ->
  storable eng now [h; url_hash; content_id_of content title url] ->
  fst (get_stats later (snd (is_duplicate now content title url eng)))
  = Stats (if content_hash_enabled (config eng) then 1 else 0)
      (if semantic_analysis (config eng) then 1 else 0)
      (match url with [] => 0 | _ => 1 end)
      (similarity_threshold (config eng)) (time_window_hours (config eng))
      (uses_redis eng).
Proof.
  intros (Hhs & Hfps & Hpis & Hents) Hfree Hh Hmd5 Hwin Hstore.
  destruct eng as [cfg rc hs fps pis]. cbn in Hhs, Hfps, Hpis, Hents, Hfree.
  unfold within_window in Hwin. unfold storable in Hstore. cbn in Hwin, Hstore.
  subst hs fps pis.
  assert (Hlive : (later <? now + time_window_hours cfg * 3600)%Z = true)
    by (apply Z.ltb_lt; lia).
  destruct rc as [[ents f n]|]; [cbn in Hents, Hfree; subst ents|].
  - destruct Hstore as [Hacc Henc].
    apply andb_prop in Henc as [He Henc]. apply andb_prop in Henc as [Heu Henc].
    apply andb_prop in Henc as [Hec _].
    destruct (@redis_first_call E cfg f n now content title url h url_hash
                Hfree Hh Hmd5 Hacc He Heu Hec) as [n' ->].
    unfold first_records, uses_redis.
    destruct (content_hash_enabled cfg) eqn:Hen, (semantic_analysis cfg) eqn:Hsem;
      destruct url as [|c url];
      repeat (exec_stats; unfold live; rewrite ?Hfree, ?Hlive, ?Hen, ?Hsem);
      reflexivity.
  - unfold is_duplicate, is_duplicate_body, uses_redis.
    set (cid := title ++ _).
    destruct (content_hash_enabled cfg) eqn:Hen, (semantic_analysis cfg) eqn:Hsem;
      destruct url as [|c url];
      repeat (exec_stats; rewrite ?Hen, ?Hsem, ?Hh, ?Hmd5, ?str_eqb_refl);
      reflexivity.
Qed.

End Statistics.

(** X11 at work: the in-memory engine that has seen "robot" reports one
    stored hash, and two after it has been sent another text. *)
Lemma stored_hashes_counts_new_content_witness :
  reported_hashes
    (fst (get_stats 5
            (snd (@is_duplicate simple_env 1 (py "breaking news") [] [] robot_engine))))
  = Some (if str_mem (py "breaking news") (content_hashes robot_engine)
          then 1 else (1 + 1))%Z
  /\ (fst (@is_duplicate simple_env 1 (py "breaking news") [] [] robot_engine)
      = (true, py "exact_duplicate", 1)
      <-> str_mem (py "breaking news") (content_hashes robot_engine) = true).
Proof.
  apply (@stored_hashes_counts_new_content simple_env 1 5 (py "breaking news") [] []
           (py "breaking news") robot_engine 1%Z).
  - reflexivity.
  - reflexivity.
  - vm_compute. reflexivity.
  - vm_compute. reflexivity.
Defined.

(** X12 at work: one article sent to an engine on a healthy server; the
    statistics are read a minute later. *)
Lemma first_submission_statistics_witness :
  fst (get_stats 60
         (snd (@is_duplicate simple_env 0 (py "robot") (py "Robots")
                 (py "http://example.org/a")
                 (new_engine default_config (Some healthy_server)))))
  = Stats 1 1 1 (float 0.8) 24 true.
Proof.
  apply (@first_submission_statistics simple_env
           (new_engine default_config (Some healthy_server)) 0 60
           (py "robot") (py "Robots") (py "http://example.org/a") (py "robot")
           (py "http://example.org/a")).
  - repeat split.
  - intros n. reflexivity.
  - vm_compute. reflexivity.
  - vm_compute. reflexivity.
  - unfold within_window. cbn. lia.
  - split; vm_compute; reflexivity.
Defined.

(* ================================================================== *)
(** * Properties: clearing the cache *)
(* ================================================================== *)

Section Clearing.

Context {E : PyEnv}.

(** In memory [clear_cache] gives back the engine as it was constructed. *)
Lemma clear_cache_local (now : Z) (eng : Engine) :
  redis_client eng = None ->
  clear_cache now eng = (Ok tt, new_engine (config eng) None).
Proof.
  intros Hr. destruct eng as [cfg rc hs fps pis]. cbn in Hr. subst rc. reflexivity.
Qed.

(** X13 ([clear_cache] in memory): after [clear_cache] an in-memory
    engine has forgotten everything: with the hash check enabled any
    content that can be hashed is unique again, and the statistics report
    no hash, no fingerprint and no URL. *)
Theorem clear_cache_forgets_in_memory
    (now later : Z) (content title url h : pystr) (eng : Engine) :
  redis_client eng = None ->
  content_hash_enabled (config eng) = true ->
  create_content_hash content = Ok h ->
  fst (is_duplicate later content title url (snd (clear_cache now eng)))
  = (false, py "unique", 0)
  /\ fst (get_stats later (snd (clear_cache now eng)))
     = Stats 0 0 0 (similarity_threshold (config eng)) (time_window_hours (config eng))
         false.
Proof.
  intros Hr Hen Hh. rewrite (clear_cache_local now eng Hr). cbn [snd]. split.
  - apply (local_first_call (config eng) later content title url Hen Hh).
  - reflexivity.
Qed.





End Clearing.

(** X13 at work: the in-memory engine that has seen "robot" is cleared and
    sent "robot" again. *)
Lemma clear_cache_forgets_in_memory_witness :
  fst (@is_duplicate simple_env 2 (py "robot") [] [] (snd (@clear_cache simple_env 1 robot_engine)))
  = (false, py "unique", 0)
  /\ fst (get_stats 2 (snd (@clear_cache simple_env 1 robot_engine)))
     = Stats 0 0 0 (similarity_threshold (config robot_engine))
         (time_window_hours (config robot_engine)) false.
Proof.
  apply (@clear_cache_forgets_in_memory simple_env 1 2 (py "robot") [] [] (py "robot")
           robot_engine).
  - reflexivity.
  - reflexivity.
  - vm_compute. reflexivity.
Defined.


(* ================================================================== *)
(** * Properties: a server that cannot be reached *)
(* ================================================================== *)

(** On a server that does not answer, a [SETEX] raises: in the client,
    which cannot encode what it should send, or on the connection. *)
Lemma setex_down (now : Z) (key : pystr) (seconds : Z) (value : redis_value)
    (ents : list (pystr * (redis_value * Z))) (f : nat -> bool) (n : nat) :
  (forall k, f k = true) ->
  exists e n',
    redis_setex now key seconds value {| entries := ents; faults := f; issued := n |}
    = (Raise e, {| entries := ents; faults := f; issued := n' |}).
Proof.
  intros Hf. unfold redis_setex, redis_command, take_fault. cbn [faults issued entries].
  rewrite Hf. destruct (encodable key && sendable value); eauto.
Qed.

(** Symbolic execution on a server that does not answer. *)
Ltac run_down :=
  cbn -[create_semantic_fingerprint create_content_hash url_md5 firstn
        _calculate_similarity Qle_bool Qltb timedelta_hours redis_keys redis_setex].

Ltac exec_down Hf :=
  cbv beta iota zeta delta
    [bind get ret lift try_ modify redis redis_exists redis_get
     redis_command take_fault _is_hash_duplicate _store_content_hash
     _get_stored_fingerprints _check_semantic_similarity _store_fingerprint
     _is_url_duplicate _store_processed_url _record_processed_item
     _clean_expired_entries
     url_stage semantic_stage set_redis set_content_hashes set_content_fingerprints
     set_processed_items config redis_client content_hashes content_fingerprints
     processed_items entries faults issued];
  run_down;
  rewrite ?Hf, ?redis_keys_down by apply Hf;
  try match goal with
      | |- context [redis_setex ?now ?key ?seconds ?value
                      {| entries := ?ents; faults := ?f; issued := ?n |}] =>
          let e := fresh "e" in
          let n' := fresh "n" in
          let Heq := fresh "Heq" in
          destruct (@setex_down now key seconds value ents f n Hf) as (e & n' & Heq);
          rewrite Heq; clear Heq
      end.

Section Outage.

Context {E : PyEnv}.

(** X15 (a server that stopped answering): when every command sent to
    the connected server fails, [is_duplicate] reports every content that
    can be hashed as [(False, "unique", 0.0)], stores nothing, and does not
    fall back to the in-memory caches: each helper catches the connection
    error and answers "not seen". *)
Theorem dead_server_disables_deduplication
    (now : Z) (content title url h : pystr) (eng : Engine) (r : Redis) :
  redis_client eng = Some r ->
  (forall n, faults r n = true) ->
  create_content_hash content = Ok h ->
  fst (is_duplicate now content title url eng) = (false, py "unique", 0)
  /\ caches (snd (is_duplicate now content title url eng)) = caches eng
  /\ exists r',
       redis_client (snd (is_duplicate now content title url eng)) = Some r'
       /\ entries r' = entries r /\ faults r' = faults r.
Proof.
  intros Hr Hf Hh. destruct eng as [cfg rc hs fps pis]. cbn in Hr. subst rc.
  destruct r as [ents f n]. cbn in Hf.
  unfold is_duplicate, is_duplicate_body.
  set (cid := title ++ _).
  destruct (content_hash_enabled cfg) eqn:Hen, (semantic_analysis cfg) eqn:Hsem;
    destruct url as [|c url];
    try (destruct (url_md5 (c :: url)) as [uh|e] eqn:Hu);
    repeat (exec_down Hf; rewrite ?Hen, ?Hsem, ?Hh, ?Hu);
    (split; [reflexivity|]); (split; [reflexivity|]);
    eexists; (split; [reflexivity|]); split; reflexivity.
Qed.

(** X16 (construction against an unreachable server): when the test
    [ping] of the constructor fails, [create_deduplication_engine] returns
    an engine that works in memory, and that engine deduplicates: with the
    hash check enabled a first submission is unique and the same content
    submitted again is an exact duplicate. *)
Theorem unreachable_server_means_memory
    (cfg : Config) (r : Redis) (now1 now2 : Z)
    (content title1 url1 title2 url2 h : pystr) :
  faults r (issued r) = true ->
  content_hash_enabled cfg = true ->
  create_content_hash content = Ok h ->
  let eng := create_deduplication_engine cfg (Some r) in
  uses_redis eng = false
  /\ fst (is_duplicate now1 content title1 url1 eng) = (false, py "unique", 0)
  /\ fst (is_duplicate now2 content title2 url2
            (snd (is_duplicate now1 content title1 url1 eng)))
     = (true, py "exact_duplicate", 1).
Proof.
  intros Hdown Hen Hh eng.
  assert (Heng : eng = new_engine cfg None).
  { subst eng. unfold create_deduplication_engine, new_engine, redis_ping, redis_command,
      take_fault. now rewrite Hdown. }
  rewrite Heng.
  destruct (@local_first_call E cfg now1 content title1 url1 h Hen Hh)
    as (Hv & Hcfg & Hr & Hhs).
  split; [reflexivity|]. split; [exact Hv|].
  apply (@local_hash_hit E _ now2 content title2 url2 h).
  - unfold new_engine. now rewrite Hcfg.
  - exact Hr.
  - exact Hh.
  - unfold new_engine. rewrite Hhs. cbn. now rewrite str_eqb_refl.
Qed.

End Outage.

(** X15 at work: the dead server holds the hash of "robot", alive until
    clock reading 100000, and "robot" is reported unique at 0. *)
Lemma dead_server_disables_deduplication_witness :
  fst (@is_duplicate simple_env 0 (py "robot") [] [] dead_engine) = (false, py "unique", 0)
  /\ caches (snd (@is_duplicate simple_env 0 (py "robot") [] [] dead_engine))
     = caches dead_engine
  /\ exists r',
       redis_client (snd (@is_duplicate simple_env 0 (py "robot") [] [] dead_engine))
       = Some r'
       /\ entries r' = entries dead_server /\ faults r' = faults dead_server.
Proof.
  apply (@dead_server_disables_deduplication simple_env 0 (py "robot") [] [] (py "robot")
           dead_engine dead_server).
  - reflexivity.
  - intros n. reflexivity.
  - vm_compute. reflexivity.
Defined.

(** X16 at work: an engine constructed while the dead server does not
    answer. *)
Lemma unreachable_server_means_memory_witness :
  let eng := create_deduplication_engine default_config (Some dead_server) in
  uses_redis eng = false
  /\ fst (@is_duplicate simple_env 0 (py "robot") (py "One") [] eng)
     = (false, py "unique", 0)
  /\ fst (@is_duplicate simple_env 60 (py "robot") (py "Two") []
            (snd (@is_duplicate simple_env 0 (py "robot") (py "One") [] eng)))
     = (true, py "exact_duplicate", 1).
Proof.
  apply (@unreachable_server_means_memory simple_env default_config dead_server 0 60
           (py "robot") (py "One") [] (py "Two") [] (py "robot")).
  - reflexivity.
  - reflexivity.
  - vm_compute. reflexivity.
Defined.

(* ================================================================== *)
(** * Properties: what a fingerprint holds *)
(* ================================================================== *)

Lemma in_firstn {A} (n : nat) (l : list A) (x : A) : In x (firstn n l) -> In x l.
Proof.
  intros H. rewrite <- (firstn_skipn n l). apply in_or_app. now left.
Qed.

(** ** Sorting, largest key first *)

Section Sorting.

Variables (A K : Type) (ltb : K -> K -> bool) (key : A -> K).

Lemma insert_desc_perm (x : A) (l : list A) :
  Permutation (insert_desc ltb key x l) (x :: l).
Proof.
  induction l as [|y l IH]; cbn [insert_desc]; [reflexivity|].
  destruct (ltb (key x) (key y)); [|reflexivity].
  rewrite IH. apply perm_swap.
Qed.

Lemma sorted_desc_perm (l : list A) : Permutation (sorted_desc ltb key l) l.
Proof.
  induction l as [|x l IH]; cbn; [reflexivity|].
  unfold sorted_desc in IH. rewrite insert_desc_perm. now constructor.
Qed.

End Sorting.

Section SortingByCount.

Variables (A : Type) (key : A -> Z).

Lemma insert_desc_sorted (x : A) (l : list A) :
  StronglySorted (fun a b => (key b <= key a)%Z) l ->
  StronglySorted (fun a b => (key b <= key a)%Z) (insert_desc Z.ltb key x l).
Proof.
  induction 1 as [|y l Hsorted IH Hy]; cbn [insert_desc].
  - repeat constructor.
  - destruct (key x <? key y)%Z eqn:Hlt.
    + apply Z.ltb_lt in Hlt. constructor; [exact IH|].
      rewrite Forall_forall in *. intros z Hz.
      apply (Permutation_in _ (insert_desc_perm Z.ltb key x l)) in Hz.
      destruct Hz as [<- | Hz]; [lia | now apply Hy].
    + apply Z.ltb_ge in Hlt. constructor; [now constructor|].
      constructor; [exact Hlt|].
      rewrite Forall_forall in *. intros z Hz. specialize (Hy z Hz). lia.
Qed.

Lemma sorted_desc_sorted (l : list A) :
  StronglySorted (fun a b => (key b <= key a)%Z) (sorted_desc Z.ltb key l).
Proof.
  induction l as [|x l IH]; cbn; [constructor|]. now apply insert_desc_sorted.
Qed.

End SortingByCount.

Lemma sorted_prefix {A} (R : A -> A -> Prop) (n : nat) (l : list A) :
  StronglySorted R l -> StronglySorted R (firstn n l).
Proof.
  intros H. revert n. induction H as [|x l Hs IH Hx]; intros [|n]; cbn [firstn];
    try constructor.
  - apply IH.
  - rewrite Forall_forall in *. intros y Hy. apply Hx. now apply in_firstn in Hy.
Qed.

Lemma sorted_split {A} (R : A -> A -> Prop) (l1 l2 : list A) :
  StronglySorted R (l1 ++ l2) -> forall a b, In a l1 -> In b l2 -> R a b.
Proof.
  induction l1 as [|x l1 IH]; intros H a b Ha Hb; [contradiction|].
  cbn [app] in H. inversion H as [|? ? Hs Hx]; subst.
  destruct Ha as [<- | Ha].
  - rewrite Forall_forall in Hx. apply Hx, in_or_app. now right.
  - now apply IH.
Qed.

Lemma sorted_map {A B} (f : A -> B) (R : A -> A -> Prop) (S : B -> B -> Prop) (l : list A) :
  (forall a b, In a l -> In b l -> R a b -> S (f a) (f b)) ->
  StronglySorted R l -> StronglySorted S (map f l).
Proof.
  intros Hf H. induction H as [|x l Hs IH Hx]; cbn [map]; constructor.
  - apply IH. intros a b Ha Hb. apply Hf; now right.
  - rewrite Forall_forall in *. intros y Hy. apply in_map_iff in Hy as (z & <- & Hz).
    apply Hf; [now left | now right | now apply Hx].
Qed.

Lemma nodup_prefix {A} (n : nat) (l : list A) : NoDup l -> NoDup (firstn n l).
Proof.
  intros H. rewrite <- (firstn_skipn n l) in H. now apply NoDup_app_remove_r in H.
Qed.

(** ** The frequency table of [_extract_key_words] *)

Lemma freq_get_count (x w : pystr) (d : list (pystr * Z)) :
  freq_get w (count_word x d)
  = (freq_get w d + if str_eqb x w then 1 else 0)%Z.
Proof.
  induction d as [|[k n] d IH]; cbn [count_word freq_get].
  - destruct (str_eqb x w); lia.
  - destruct (str_eqb k x) eqn:Hkx.
    + apply str_eqb_eq in Hkx. subst k. cbn [freq_get].
      destruct (str_eqb x w); lia.
    + cbn [freq_get]. destruct (str_eqb k w) eqn:Hkw; [|exact IH].
      apply str_eqb_eq in Hkw. subst k. rewrite (str_eqb_neq (s:=x) (t:=w)); [lia|].
      intros ->. rewrite str_eqb_refl in Hkx. discriminate.
Qed.

Lemma count_word_keys (x : pystr) (d : list (pystr * Z)) :
  map fst (count_word x d)
  = map fst d ++ (if str_mem x (map fst d) then [] else [x]).
Proof.
  induction d as [|[k n] d IH]; cbn [count_word map fst app str_mem existsb];
    [reflexivity|].
  destruct (str_eqb k x) eqn:Hkx.
  - apply str_eqb_eq in Hkx. subst k. rewrite str_eqb_refl. cbn [orb map fst].
    now rewrite app_nil_r.
  - rewrite (str_eqb_neq (s:=x) (t:=k)).
    + cbn [orb map fst]. f_equal. exact IH.
    + intros ->. rewrite str_eqb_refl in Hkx. discriminate.
Qed.

Lemma count_word_nodup (x : pystr) (d : list (pystr * Z)) :
  NoDup (map fst d) -> NoDup (map fst (count_word x d)).
Proof.
  intros H. rewrite count_word_keys.
  destruct (str_mem x (map fst d)) eqn:Hm; [now rewrite app_nil_r|].
  apply NoDup_app; [exact H | repeat constructor; intros [] |].
  intros w Hw [<- | []]. apply str_mem_In in Hw. congruence.
Qed.

Lemma tally_get (words : list pystr) (d : list (pystr * Z)) (w : pystr) :
  freq_get w (fold_left (fun d word => count_word word d) words d)
  = (freq_get w d + occurrences words w)%Z.
Proof.
  unfold occurrences. revert d. induction words as [|x words IH]; intros d;
    cbn [fold_left count_occ]; [lia|].
  rewrite IH, freq_get_count.
  destruct (str_eq_dec x w) as [-> | Hne].
  - rewrite str_eqb_refl. lia.
  - rewrite (str_eqb_neq Hne). lia.
Qed.

Lemma tally_nodup (words : list pystr) (d : list (pystr * Z)) :
  NoDup (map fst d) ->
  NoDup (map fst (fold_left (fun d word => count_word word d) words d)).
Proof.
  revert d. induction words as [|x words IH]; intros d H; cbn [fold_left]; [exact H|].
  apply IH. now apply count_word_nodup.
Qed.

Lemma tally_keys (words : list pystr) (d : list (pystr * Z)) (w : pystr) :
  In w (map fst (fold_left (fun d word => count_word word d) words d))
  <-> In w (map fst d) \/ In w words.
Proof.
  revert d. induction words as [|x words IH]; intros d; cbn [fold_left].
  - cbn [In]. tauto.
  - rewrite IH, count_word_keys, in_app_iff. cbn [In].
    destruct (str_mem x (map fst d)) eqn:Hm; cbn [In].
    + apply str_mem_In in Hm. split; [tauto|].
      intros [H | [<- | H]]; auto.
    + tauto.
Qed.

Lemma freq_get_in (d : list (pystr * Z)) (w : pystr) (n : Z) :
  NoDup (map fst d) -> In (w, n) d -> freq_get w d = n.
Proof.
  induction d as [|[k m] d IH]; intros Hnd Hin; [contradiction|].
  cbn [map fst] in Hnd. inversion Hnd as [|? ? Hk Hrest]; subst.
  cbn [freq_get]. destruct Hin as [Heq | Hin].
  - injection Heq as -> ->. now rewrite str_eqb_refl.
  - destruct (str_eqb k w) eqn:Hkw; [|now apply IH].
    apply str_eqb_eq in Hkw. subst k. exfalso. apply Hk.
    apply in_map_iff. exists (w, n). auto.
Qed.

Section Fingerprints.

Context {E : PyEnv}.

(** ** The shape of a fingerprint *)

Lemma key_words_at_most_20 (content : pystr) :
  (length (_extract_key_words content) <= 20)%nat.
Proof.
  unfold _extract_key_words, try_except.
  destruct (word_tokenize (str_lower content)) as [words|e]; cbn [rbind];
    [|apply firstn_le_length].
  destruct (rmap_list stem _) as [key_words|e]; cbn [rbind]; [|apply firstn_le_length].
  rewrite length_map. apply firstn_le_length.
Qed.

Lemma key_sentences_at_most_5 (content : pystr) :
  (length (_extract_key_sentences content) <= 5)%nat.
Proof.
  unfold _extract_key_sentences, try_except.
  destruct (sent_tokenize content) as [sentences|e]; cbn [rbind]; [|apply firstn_le_length].
  rewrite length_map. apply firstn_le_length.
Qed.

Lemma topic_indicators_at_most_10 (content : pystr) :
  (length (_extract_topic_indicators content) <= 10)%nat.
Proof. apply firstn_le_length. Qed.

Lemma analyze_structure_word_count (content : pystr) (default : pyval) :
  _analyze_structure content <> []
  /\ dict_get (py "word_count") (_analyze_structure content) default
     = PInt (len (str_split content)).
Proof.
  unfold _analyze_structure, try_except.
  destruct (sent_tokenize content) as [sentences|e]; cbn [rbind]; split;
    try discriminate; reflexivity.
Qed.

(** The fallback fingerprint. *)
Lemma basic_fingerprint_shape (content : pystr) :
  well_formed (len (str_split content)) (_create_basic_fingerprint content).
Proof.
  unfold well_formed, _create_basic_fingerprint.
  cbn [word_count content_structure key_words key_sentences topic_indicators].
  split; [unfold len; lia|].
  repeat split; try discriminate; try apply firstn_le_length.
  - pose proof (firstn_le_length 3 (str_split_sep (py ".") content)). lia.
  - cbn. lia.
Qed.

(** The fingerprint of the full analysis. *)
Lemma full_fingerprint_shape (content : pystr) (fp : Fingerprint) :
  semantic_fingerprint_body content = Ok fp ->
  well_formed (len (str_split content)) fp.
Proof.
  unfold well_formed, semantic_fingerprint_body.
  destruct (sent_tokenize content) as [toks|e]; cbn [rbind]; [|discriminate].
  destruct (match str_strip content with [] => Ok 0 | _ => flesch_reading_ease content end)
    as [ease|e]; cbn [rbind]; [|discriminate].
  intros H. injection H as <-.
  cbn [word_count content_structure key_words key_sentences topic_indicators].
  split; [unfold len; lia|]. repeat split.
  - apply (analyze_structure_word_count content (PInt 0)).
  - intros default. apply analyze_structure_word_count.
  - apply key_words_at_most_20.
  - apply key_sentences_at_most_5.
  - apply topic_indicators_at_most_10.
Qed.

Lemma semantic_fingerprint_shape (content : pystr) :
  well_formed (len (str_split content)) (create_semantic_fingerprint content).
Proof.
  unfold create_semantic_fingerprint, try_except.
  destruct (semantic_fingerprint_body content) as [fp|e] eqn:Hbody.
  - now apply full_fingerprint_shape.
  - apply basic_fingerprint_shape.
Qed.

(** X17 (every fingerprint is well formed): whichever of its two paths
    [create_semantic_fingerprint] takes, the fingerprint of a text of [n]
    whitespace-separated words has ['word_count'] equal to [n], a
    ['content_structure'] dictionary that holds the key ['word_count'] with
    the same value [n], at most 20 key words, at most 5 key sentences and
    at most 10 topic indicators. *)
Theorem fingerprint_is_well_formed (content : pystr) :
  well_formed (len (str_split content)) (create_semantic_fingerprint content).
Proof.
  destruct (semantic_fingerprint_body content) as [fp|e] eqn:Hbody.
  - replace (create_semantic_fingerprint content) with fp
      by (unfold create_semantic_fingerprint; now rewrite Hbody).
    now apply full_fingerprint_shape.
  - replace (create_semantic_fingerprint content) with (_create_basic_fingerprint content)
      by (unfold create_semantic_fingerprint; now rewrite Hbody).
    apply basic_fingerprint_shape.
Qed.

(** ** Topic indicators *)

Lemma tech_indicators_distinct : NoDup tech_indicators.
Proof.
  assert (H : nodup str_eq_dec tech_indicators = tech_indicators) by (vm_compute; reflexivity).
  rewrite <- H. apply NoDup_nodup.
Qed.

(** X18 (topic indicators are sound): every topic indicator of a text is
    a term of the vocabulary that occurs in the lower-cased text; no term
    is listed twice; at most ten are listed. *)
Theorem topic_indicators_are_sound (content : pystr) :
  (forall term, In term (_extract_topic_indicators content) ->
     In term tech_indicators /\ str_contains term (str_lower content) = true)
  /\ NoDup (_extract_topic_indicators content)
  /\ (length (_extract_topic_indicators content) <= 10)%nat.
Proof.
  unfold _extract_topic_indicators. split; [|split].
  - intros term Hin.
    apply in_firstn in Hin. now apply filter_In in Hin.
  - set (found := filter _ tech_indicators).
    assert (Hfound : NoDup found) by (apply NoDup_filter, tech_indicators_distinct).
    rewrite <- (firstn_skipn 10 found) in Hfound.
    now apply NoDup_app_remove_r in Hfound.
  - apply firstn_le_length.
Qed.

(** ** Key words *)

(** X19 (key words are the most frequent stems): when the tokenizer and
    the stemmer succeed, the key words are distinct stems of the tokens
    that are alphabetic, longer than three characters and no stop words;
    they are listed from the most to the least frequent; a stem that is
    left out is so because twenty are listed, each at least as frequent. *)
Theorem key_words_are_the_most_frequent_stems
    (content : pystr) (tokens stems : list pystr) :
  word_tokenize (str_lower content) = Ok tokens ->
  rmap_list stem (kept_tokens tokens) = Ok stems ->
  let key_words := _extract_key_words content in
  NoDup key_words
  /\ (length key_words <= 20)%nat
  /\ (forall word, In word key_words -> In word stems)
  /\ StronglySorted (fun a b => (occurrences stems b <= occurrences stems a)%Z) key_words
  /\ (forall word, In word stems -> ~ In word key_words ->
        length key_words = 20%nat
        /\ forall kept, In kept key_words ->
             (occurrences stems word <= occurrences stems kept)%Z).
Proof.
  intros Htok Hstems. cbv zeta.
  unfold _extract_key_words. rewrite Htok. cbn [rbind].
  fold (kept_tokens tokens). rewrite Hstems. cbn [rbind try_except].
  set (freq := fold_left (fun d word => count_word word d) stems []).
  set (sorted := sorted_desc Z.ltb snd freq).
  assert (Hperm : Permutation sorted freq) by apply sorted_desc_perm.
  assert (Hnd : NoDup (map fst freq)) by (apply tally_nodup; constructor).
  assert (Hnds : NoDup (map fst sorted)).
  { eapply Permutation_NoDup; [|exact Hnd]. symmetry. now apply Permutation_map. }
  assert (Hocc : forall w n, In (w, n) sorted -> n = occurrences stems w).
  { intros w n Hin. apply (Permutation_in _ Hperm) in Hin.
    rewrite <- (@freq_get_in freq w n Hnd Hin). unfold freq. now rewrite tally_get. }
  assert (Hkeys : forall w, In w (map fst sorted) <-> In w stems).
  { intros w. split.
    - intros H. apply (Permutation_in _ (Permutation_map fst Hperm)) in H.
      apply tally_keys in H as [[] | H]. exact H.
    - intros H. apply (Permutation_in _ (Permutation_sym (Permutation_map fst Hperm))).
      apply tally_keys. now right. }
  assert (Hsorted : StronglySorted (fun a b : pystr * Z => (snd b <= snd a)%Z) sorted)
    by apply sorted_desc_sorted.
  split; [|split; [|split; [|split]]].
  - rewrite <- firstn_map. now apply nodup_prefix.
  - rewrite length_map. apply firstn_le_length.
  - intros w Hw. apply Hkeys. rewrite <- firstn_map in Hw. now apply in_firstn in Hw.
  - apply sorted_map with (R := fun a b : pystr * Z => (snd b <= snd a)%Z);
      [|now apply sorted_prefix].
    intros [a na] [b nb] Ha Hb Hle. apply in_firstn in Ha, Hb. cbn [fst snd] in *.
    now rewrite <- (Hocc a na Ha), <- (Hocc b nb Hb).
  - intros w Hw Hout.
    apply Hkeys in Hw. rewrite <- (firstn_skipn 20 sorted), map_app, in_app_iff in Hw.
    destruct Hw as [Hw | Hw]; [contradiction|].
    apply in_map_iff in Hw as ([w' n] & Heq & Hin). cbn [fst] in Heq. subst w'.
    split.
    + rewrite length_map, length_firstn. apply Nat.min_l.
      destruct (Nat.le_gt_cases 20 (length sorted)) as [H | H]; [exact H|].
      rewrite skipn_all2 in Hin by lia. contradiction.
    + intros k Hk. apply in_map_iff in Hk as ([k' m] & Heq & Hk). cbn [fst] in Heq.
      subst k'. rewrite <- (firstn_skipn 20 sorted) in Hsorted.
      pose proof (@sorted_split _ _ _ _ Hsorted _ _ Hk Hin) as Hle. cbn [snd] in Hle.
      rewrite <- (Hocc w n), <- (Hocc k m); [exact Hle | |].
      * now apply in_firstn in Hk.
      * rewrite <- (firstn_skipn 20 sorted). apply in_or_app. now right.
Qed.

(** ** Key sentences *)

Lemma score_sentences_text (i : Z) (sentences : list pystr) :
  map fst (score_sentences i sentences) = map str_strip sentences.
Proof.
  revert i. induction sentences as [|t l IH]; intros i; cbn [score_sentences map fst];
    [reflexivity|]. now rewrite IH.
Qed.

(** X20 (key sentences are sentences of the text): when the sentence
    tokenizer succeeds, the key sentences are [min(5, number of sentences)]
    of the tokenized sentences, each stripped of surrounding whitespace;
    a text of at most five sentences keeps them all. *)
Theorem key_sentences_are_stripped_sentences (content : pystr) (sentences : list pystr) :
  sent_tokenize content = Ok sentences ->
  let key_sentences := _extract_key_sentences content in
  length key_sentences = Nat.min 5 (length sentences)
  /\ (forall s, In s key_sentences -> exists t, In t sentences /\ s = str_strip t)
  /\ ((length sentences <= 5)%nat ->
      Permutation key_sentences (map str_strip sentences)).
Proof.
  intros Htok. cbv zeta. unfold _extract_key_sentences. rewrite Htok.
  cbn [rbind try_except].
  set (sorted := sorted_desc Qltb snd (score_sentences 0 sentences)).
  assert (Hperm : Permutation (map fst sorted) (map str_strip sentences)).
  { rewrite <- (score_sentences_text 0). apply Permutation_map, sorted_desc_perm. }
  assert (Hlen : length sorted = length sentences).
  { rewrite <- (length_map fst), (Permutation_length Hperm). apply length_map. }
  split; [|split].
  - now rewrite length_map, length_firstn, Hlen.
  - intros s Hs. rewrite <- firstn_map in Hs. apply in_firstn in Hs.
    apply (Permutation_in _ Hperm) in Hs. apply in_map_iff in Hs as (t & <- & Ht).
    exists t. auto.
  - intros Hfew. rewrite firstn_all2 by lia. exact Hperm.
Qed.

End Fingerprints.

(** X19 at work: "robots" occurs twice in the text and is listed first. *)
Lemma key_words_witness :
  let key_words := @_extract_key_words simple_env (py "robots build robots daily") in
  NoDup key_words
  /\ (length key_words <= 20)%nat
  /\ (forall word, In word key_words ->
        In word [py "robots"; py "build"; py "robots"; py "daily"])
  /\ StronglySorted
       (fun a b =>
          (occurrences [py "robots"; py "build"; py "robots"; py "daily"] b
           <= occurrences [py "robots"; py "build"; py "robots"; py "daily"] a)%Z)
       key_words
  /\ (forall word, In word [py "robots"; py "build"; py "robots"; py "daily"] ->
        ~ In word key_words ->
        length key_words = 20%nat
        /\ forall kept, In kept key_words ->
             (occurrences [py "robots"; py "build"; py "robots"; py "daily"] word
              <= occurrences [py "robots"; py "build"; py "robots"; py "daily"] kept)%Z).
Proof.
  apply (@key_words_are_the_most_frequent_stems simple_env
           (py "robots build robots daily")
           [py "robots"; py "build"; py "robots"; py "daily"]
           [py "robots"; py "build"; py "robots"; py "daily"]).
  - vm_compute. reflexivity.
  - vm_compute. reflexivity.
Defined.

(** X20 at work: a text of two sentences. *)
Lemma key_sentences_witness :
  let key_sentences := @_extract_key_sentences simple_env (py "One two. Three four.") in
  length key_sentences = Nat.min 5 (length [py "One two"; py "Three four"])
  /\ (forall s, In s key_sentences ->
        exists t, In t [py "One two"; py "Three four"] /\ s = str_strip t)
  /\ ((length [py "One two"; py "Three four"] <= 5)%nat ->
      Permutation key_sentences (map str_strip [py "One two"; py "Three four"])).
Proof.
  apply (@key_sentences_are_stripped_sentences simple_env (py "One two. Three four.")
           [py "One two"; py "Three four"]).
  vm_compute. reflexivity.
Defined.

(* ================================================================== *)
(** * Properties: when normalization is stable *)
(* ================================================================== *)

(** ** [split], [join], [replace] and [strip] on words *)

Lemma split_ws_words (cur s : pystr) :
  forallb (fun c => negb (isspace c)) cur = true ->
  Forall is_word (split_ws cur s).
Proof.
  revert cur. induction s as [|c s IH]; intros cur Hcur; cbn [split_ws].
  - destruct cur as [|d cur]; [constructor|].
    constructor; [|constructor]. split.
    + intros H. apply (f_equal (@length _)) in H. rewrite length_rev in H. discriminate.
    + rewrite forallb_forall in *. intros x Hx. apply Hcur. now apply in_rev.
  - destruct (isspace c) eqn:Hc.
    + destruct cur as [|d cur]; [now apply IH|].
      constructor; [|now apply IH]. split.
      * intros H. apply (f_equal (@length _)) in H. rewrite length_rev in H. discriminate.
      * rewrite forallb_forall in *. intros x Hx. apply Hcur. now apply in_rev.
    + apply IH. cbn [forallb]. now rewrite Hc, Hcur.
Qed.

Lemma str_split_words (s : pystr) : Forall is_word (str_split s).
Proof. now apply split_ws_words. Qed.

Lemma split_ws_word (w cur rest : pystr) :
  forallb (fun c => negb (isspace c)) w = true ->
  split_ws cur (w ++ rest) = split_ws (rev w ++ cur) rest.
Proof.
  revert cur. induction w as [|c w IH]; intros cur Hw; [reflexivity|].
  cbn [forallb] in Hw. apply andb_prop in Hw as [Hc Hw].
  cbn [app split_ws]. apply negb_true_iff in Hc. rewrite Hc.
  rewrite IH by assumption. cbn [rev]. now rewrite <- app_assoc.
Qed.

(** Splitting the words joined by single spaces gives the words back. *)
Lemma split_join (words : list pystr) :
  Forall is_word words -> str_split (str_join (py " ") words) = words.
Proof.
  unfold str_split. induction 1 as [|w words [Hne Hw] Hrest IH]; [reflexivity|].
  cbn [str_join]. destruct words as [|w' words].
  - rewrite <- (app_nil_r w) at 1. rewrite split_ws_word by assumption.
    rewrite app_nil_r. cbn [split_ws].
    destruct (rev w) eqn:Hr.
    + apply (f_equal (@length _)) in Hr. rewrite length_rev in Hr.
      destruct w; [contradiction | discriminate].
    + now rewrite <- Hr, rev_involutive.
  - rewrite split_ws_word by assumption. rewrite app_nil_r.
    change (py " " ++ str_join (py " ") (w' :: words))
      with (32%N :: str_join (py " ") (w' :: words)).
    cbn [split_ws]. change (isspace 32%N) with true. cbv iota.
    destruct (rev w) eqn:Hr.
    + apply (f_equal (@length _)) in Hr. rewrite length_rev in Hr.
      destruct w; [contradiction | discriminate].
    + rewrite <- Hr, rev_involutive. f_equal. exact IH.
Qed.

(** The characters of the joined words: a space or no whitespace at all. *)
Lemma join_chars (words : list pystr) (c : char) :
  Forall is_word words -> In c (str_join (py " ") words) -> c = 32%N \/ isspace c = false.
Proof.
  induction 1 as [|w words [Hne Hw] Hrest IH]; [contradiction|].
  cbn [str_join]. rewrite forallb_forall in Hw.
  destruct words as [|w' words].
  - intros Hin. right. apply negb_true_iff. now apply Hw.
  - intros Hin. apply in_app_or in Hin as [Hin | Hin].
    + right. apply negb_true_iff. now apply Hw.
    + apply in_app_or in Hin as [[<- | []] | Hin]; [now left | now apply IH].
Qed.

Lemma replace_absent (old new s : pystr) :
  old <> [] -> str_contains old s = false -> str_replace old new s = s.
Proof.
  intros Hold. unfold str_replace. destruct old as [|o old]; [contradiction|].
  induction s as [|c s IH]; [reflexivity|].
  intros H. cbn [str_contains] in H. apply orb_false_iff in H as [H1 H2].
  cbn [replace_from]. rewrite H1. f_equal. now apply IH.
Qed.

Lemma contains_char (c : char) (s : pystr) :
  ~ In c s -> str_contains [c] s = false.
Proof.
  induction s as [|d s IH]; intros Hin; [reflexivity|].
  cbn [str_contains startswith]. rewrite IH by (intros H; apply Hin; now right).
  destruct (N.eqb_spec c d) as [-> | Hne]; [exfalso; apply Hin; now left|].
  reflexivity.
Qed.

Lemma replace_char_by_itself (c : char) (s : pystr) : str_replace [c] [c] s = s.
Proof.
  unfold str_replace. induction s as [|d s IH]; [reflexivity|].
  cbn [replace_from startswith length Nat.sub app].
  destruct (N.eqb_spec c d) as [-> | Hne]; cbn [andb]; now rewrite IH.
Qed.

Lemma lstrip_word_first (w rest : pystr) : is_word w -> lstrip (w ++ rest) = w ++ rest.
Proof.
  intros [Hne Hw]. destruct w as [|c w]; [contradiction|].
  cbn [forallb] in Hw. apply andb_prop in Hw as [Hc _]. apply negb_true_iff in Hc.
  cbn [app lstrip]. now rewrite Hc.
Qed.

Lemma join_first (words : list pystr) :
  Forall is_word words -> lstrip (str_join (py " ") words) = str_join (py " ") words.
Proof.
  intros H. destruct H as [|w words Hw Hrest]; [reflexivity|].
  cbn [str_join]. destruct words.
  - rewrite <- (app_nil_r w). now apply lstrip_word_first.
  - now apply lstrip_word_first.
Qed.

Lemma rev_word (w : pystr) : is_word w -> is_word (rev w).
Proof.
  intros [Hne Hw]. split.
  - intros H. apply (f_equal (@length _)) in H. rewrite length_rev in H.
    destruct w; [contradiction | discriminate].
  - rewrite forallb_forall in *. intros x Hx. apply Hw. now apply in_rev.
Qed.

Lemma join_last (words : list pystr) :
  Forall is_word words ->
  lstrip (rev (str_join (py " ") words)) = rev (str_join (py " ") words).
Proof.
  induction 1 as [|w words Hw Hrest IH]; [reflexivity|].
  cbn [str_join]. destruct words as [|w' words].
  - rewrite <- (app_nil_r (rev w)). apply lstrip_word_first. now apply rev_word.
  - rewrite !rev_app_distr.
    inversion Hrest as [|? ? Hw' Hrest']; subst.
    destruct (rev (str_join (py " ") (w' :: words))) as [|c t] eqn:Hr.
    + apply (f_equal (@length _)) in Hr. rewrite length_rev in Hr.
      cbn [str_join] in Hr. destruct Hw' as [Hne' _].
      destruct w' as [|x w']; [contradiction|]. destruct words; discriminate.
    + cbn [app lstrip] in *. destruct (isspace c) eqn:Hc; [|reflexivity].
      exfalso. assert (Hlen : (length (lstrip t) <= length t)%nat).
      { clear. induction t as [|d t IHt]; cbn [lstrip]; [lia|].
        destruct (isspace d); cbn [length]; lia. }
      apply (f_equal (@length _)) in IH. cbn [length] in IH. lia.
Qed.

Lemma strip_join (words : list pystr) :
  Forall is_word words -> str_strip (str_join (py " ") words) = str_join (py " ") words.
Proof.
  intros H. unfold str_strip. rewrite join_first, join_last by assumption.
  apply rev_involutive.
Qed.

Section Normalization.

Context {E : PyEnv}.

(** On words joined by single spaces the replacements and the final
    [strip] do nothing. *)
Lemma normalize_joined (words : list pystr) :
  Forall is_word words ->
  str_contains replaced_literal (str_join (py " ") words) = false ->
  str_strip
    (str_replace replaced_literal [39%N]
       (str_replace [34%N] [34%N] (str_replace [34%N] [34%N]
          (str_replace [9%N] (py " ") (str_replace [10%N] (py " ")
             (str_join (py " ") words))))))
  = str_join (py " ") words.
Proof.
  intros Hwords Hlit.
  rewrite (@replace_absent [10%N]); [|discriminate|].
  - rewrite (@replace_absent [9%N]); [|discriminate|].
    + rewrite !replace_char_by_itself.
      rewrite replace_absent; [now apply strip_join | discriminate | exact Hlit].
    + apply contains_char. intros Hin.
      destruct (@join_chars words _ Hwords Hin) as [H | H]; discriminate.
  - apply contains_char. intros Hin.
    destruct (@join_chars words _ Hwords Hin) as [H | H]; discriminate.
Qed.

(** X21 (when normalization is stable): if the lower-cased words of a
    text, joined by single spaces, do not contain the text that the third
    replacement of [_normalize_content] removes, and lower-casing leaves
    them as they are, then [_normalize_content] returns exactly these
    joined words, and normalizing its result again changes nothing. *)
Theorem normalize_content_stable (content : pystr) :
  str_contains replaced_literal (collapsed content) = false ->
  str_lower (collapsed content) = collapsed content ->
  _normalize_content content = collapsed content
  /\ _normalize_content (_normalize_content content) = _normalize_content content.
Proof.
  intros Hlit Hlower.
  assert (Hfirst : _normalize_content content = collapsed content).
  { unfold _normalize_content. apply normalize_joined; [apply str_split_words | exact Hlit]. }
  split; [exact Hfirst|]. rewrite Hfirst.
  unfold _normalize_content. rewrite Hlower. unfold collapsed.
  rewrite split_join by apply str_split_words.
  apply normalize_joined; [apply str_split_words | exact Hlit].
Qed.

End Normalization.

(** X21 at work: a text with capitals, a double space and a trailing
    space. *)
Lemma normalize_content_stable_witness :
  @_normalize_content simple_env (py "Hello  World ")
  = @collapsed simple_env (py "Hello  World ")
  /\ @_normalize_content simple_env (@_normalize_content simple_env (py "Hello  World "))
     = @_normalize_content simple_env (py "Hello  World ").
Proof.
  apply (@normalize_content_stable simple_env (py "Hello  World ")).
  - vm_compute. reflexivity.
  - vm_compute. reflexivity.
Defined.

(* ================================================================== *)
(** * Properties: the range of the similarity *)
(* ================================================================== *)

Lemma set_inter_le_union (s1 s2 : list pystr) :
  NoDup s1 -> (length (set_inter s1 s2) <= length (set_union s1 s2))%nat.
Proof.
  intros Hnd. apply Nat.le_trans with (length s1).
  - unfold set_inter. apply filter_length_le.
  - apply NoDup_incl_length; [exact Hnd|].
    intros x Hx. unfold set_union. apply nodup_In, in_or_app. now left.
Qed.

Lemma fraction_range (a b : Z) :
  (0 <= a <= b)%Z -> (0 < b)%Z -> 0 <= inject_Z a / inject_Z b <= 1.
Proof.
  intros [Ha Hab] Hb.
  assert (Hb' : 0 < inject_Z b) by (change (inject_Z 0 < inject_Z b); now rewrite <- Zlt_Qlt).
  split.
  - apply Qle_shift_div_l; [exact Hb'|]. rewrite Qmult_0_l.
    change (inject_Z 0 <= inject_Z a). now rewrite <- Zle_Qle.
  - apply Qle_shift_div_r; [exact Hb'|]. rewrite Qmult_1_l.
    now rewrite <- Zle_Qle.
Qed.

(** ** Rounding between 0 and 1

    0 and 1 are doubles and rounding is monotone: a number between 0 and 1
    is rounded to a double between 0 and 1. *)

Lemma round64_unit (q : Q) : 0 <= q <= 1 -> 0 <= round64 q <= 1.
Proof. apply round64_between; reflexivity. Qed.

Lemma int_truediv_range (a b : Z) :
  (0 <= a <= b)%Z -> (0 < b)%Z -> 0 <= int_truediv a b <= 1.
Proof. intros Hab Hb. apply round64_unit. now apply fraction_range. Qed.

Lemma fsub_from_one (q : Q) : 0 <= q <= 1 -> 0 <= fsub 1 q <= 1.
Proof. intros [H0 H1]. apply round64_unit. split; lra. Qed.

(** A fraction of a weight is at most the weight. *)
Lemma fmul_weight (w c : Q) :
  0 <= w <= 1 -> 0 <= c -> round64 c = c -> 0 <= fmul w c <= c.
Proof.
  intros [H0 H1] Hc Hfix. unfold fmul.
  apply round64_between; [reflexivity | exact Hfix |]. split.
  - now apply Qmult_le_0_compat.
  - rewrite <- (Qmult_1_l c) at 2. now apply Qmult_le_compat_r.
Qed.

Lemma fadd_le (a a' b b' : Q) : a <= a' -> b <= b' -> fadd a b <= fadd a' b'.
Proof. intros Ha Hb. apply round64_le. lra. Qed.

Lemma fadd_nonneg (a b : Q) : 0 <= a -> 0 <= b -> 0 <= fadd a b.
Proof. intros Ha Hb. apply round64_nonneg. lra. Qed.

(** The weighted sum of four components between 0 and 1: the four
    weights add up, in doubles, to 0.9999999999999999. *)
Lemma weighted_sum_range (w s t q : Q) :
  0 <= w <= 1 -> 0 <= s <= 1 -> 0 <= t <= 1 -> 0 <= q <= 1 ->
  0 <= fadd (fadd (fadd (fmul w (float 0.4)) (fmul s (float 0.3))) (fmul t (float 0.2)))
         (fmul q (float 0.1))
  <= 1.
Proof.
  intros Hw Hs Ht Hq.
  destruct (@fmul_weight w (float 0.4) Hw) as [W0 W1];
    [vm_compute; discriminate | vm_compute; reflexivity |].
  destruct (@fmul_weight s (float 0.3) Hs) as [S0 S1];
    [vm_compute; discriminate | vm_compute; reflexivity |].
  destruct (@fmul_weight t (float 0.2) Ht) as [T0 T1];
    [vm_compute; discriminate | vm_compute; reflexivity |].
  destruct (@fmul_weight q (float 0.1) Hq) as [Q0 Q1];
    [vm_compute; discriminate | vm_compute; reflexivity |].
  split.
  - repeat apply fadd_nonneg; assumption.
  - apply Qle_trans
      with (fadd (fadd (fadd (float 0.4) (float 0.3)) (float 0.2)) (float 0.1)).
    + repeat apply fadd_le; assumption.
    + vm_compute. discriminate.
Qed.

(** Without the topic component the weights add up, in doubles, to
    0.7999999999999999. *)
Lemma weighted_sum_without_topics (w s q : Q) :
  0 <= w <= 1 -> 0 <= s <= 1 -> 0 <= q <= 1 ->
  fadd (fadd (fadd (fmul w (float 0.4)) (fmul s (float 0.3))) (fmul 0 (float 0.2)))
    (fmul q (float 0.1))
  <= 0.8.
Proof.
  intros Hw Hs Hq.
  destruct (@fmul_weight w (float 0.4) Hw) as [W0 W1];
    [vm_compute; discriminate | vm_compute; reflexivity |].
  destruct (@fmul_weight s (float 0.3) Hs) as [S0 S1];
    [vm_compute; discriminate | vm_compute; reflexivity |].
  destruct (@fmul_weight q (float 0.1) Hq) as [Q0 Q1];
    [vm_compute; discriminate | vm_compute; reflexivity |].
  apply Qle_trans
    with (fadd (fadd (fadd (float 0.4) (float 0.3)) (fmul 0 (float 0.2))) (float 0.1)).
  - repeat apply fadd_le; try assumption. apply Qle_refl.
  - vm_compute. discriminate.
Qed.

Lemma jaccard_range (l1 l2 : list pystr) :
  0 <= (if (0 <? len (set_union (to_set l1) (to_set l2)))%Z
        then int_truediv (len (set_inter (to_set l1) (to_set l2)))
               (len (set_union (to_set l1) (to_set l2)))
        else 0) <= 1.
Proof.
  destruct (0 <? _)%Z eqn:Hpos; [|split; [apply Qle_refl | discriminate]].
  apply Z.ltb_lt in Hpos. apply int_truediv_range; [|exact Hpos].
  pose proof (@set_inter_le_union (to_set l1) (to_set l2) (NoDup_nodup _ _)).
  unfold len. lia.
Qed.

Section Range.

Context {E : PyEnv}.

Lemma word_similarity_range (words1 words2 : list pystr) :
  0 <= _calculate_word_similarity words1 words2 <= 1.
Proof.
  unfold _calculate_word_similarity.
  destruct words1 as [|a l1] eqn:E1; [split; [apply Qle_refl | discriminate]|].
  destruct words2 as [|b l2] eqn:E2; [split; [apply Qle_refl | discriminate]|].
  apply jaccard_range.
Qed.

Lemma topic_similarity_range (topics1 topics2 : list pystr) :
  0 <= _calculate_topic_similarity topics1 topics2 <= 1.
Proof.
  unfold _calculate_topic_similarity.
  destruct topics1 as [|a l1] eqn:E1; [split; [apply Qle_refl | discriminate]|].
  destruct topics2 as [|b l2] eqn:E2; [split; [apply Qle_refl | discriminate]|].
  apply jaccard_range.
Qed.

Lemma sentence_similarity_range (sentences1 sentences2 : list pystr) :
  Forall (fun q => 0 <= q <= 1) (pair_ratios sentences1 sentences2) ->
  0 <= _calculate_sentence_similarity sentences1 sentences2 <= 1.
Proof.
  intros Hall. unfold _calculate_sentence_similarity.
  destruct sentences1 as [|a l1] eqn:E1; [split; [apply Qle_refl | discriminate]|].
  destruct sentences2 as [|b l2] eqn:E2; [split; [apply Qle_refl | discriminate]|].
  rewrite <- E1, <- E2 in *. rewrite nested_loops_fold. split.
  - apply fold_max_ge_init.
  - destruct (fold_max_attained (pair_ratios sentences1 sentences2) 0) as [H | H].
    + rewrite H. discriminate.
    + rewrite Forall_forall in Hall. now apply Hall.
Qed.

Lemma structure_similarity_range (struct1 struct2 : dict) (n1 n2 : Z) (q : Q) :
  (0 <= n1)%Z -> (0 <= n2)%Z ->
  (forall default, dict_get (py "word_count") struct1 default = PInt n1) ->
  (forall default, dict_get (py "word_count") struct2 default = PInt n2) ->
  _calculate_structure_similarity struct1 struct2 = Ok q ->
  0 <= q <= 1.
Proof.
  intros H1 H2 Hg1 Hg2. unfold _calculate_structure_similarity.
  destruct struct1 as [|a l1] eqn:E1;
    [intros H; injection H as <-; split; [apply Qle_refl | discriminate]|].
  destruct struct2 as [|b l2] eqn:E2;
    [intros H; injection H as <-; split; [apply Qle_refl | discriminate]|].
  rewrite !Hg1, !Hg2.
  unfold py_sub, py_abs, py_div. cbn [is_float orb int_of].
  assert (Hmax : py_max_val (PInt n1) (PInt n2) = PInt (Z.max n1 n2)).
  { unfold py_max_val. cbn [num_of].
    destruct (Qltb (inject_Z n1) (inject_Z n2)) eqn:Hlt.
    - apply Qltb_lt in Hlt. rewrite <- Zlt_Qlt in Hlt. f_equal. lia.
    - apply Qltb_ge in Hlt. rewrite <- Zle_Qle in Hlt. f_equal. lia. }
  rewrite Hmax. cbn [is_float orb int_of num_of].
  destruct (Qeq_bool (inject_Z (Z.max n1 n2)) 0) eqn:Hz; [discriminate|]. cbn [rbind].
  intros H; injection H as <-.
  apply Qeq_bool_neq in Hz.
  assert (Hpos : (0 < Z.max n1 n2)%Z).
  { assert (Z.max n1 n2 <> 0)%Z; [|lia].
    intros H0. apply Hz. now rewrite H0. }
  apply fsub_from_one, int_truediv_range; lia.
Qed.

Lemma similarity_range (fp1 fp2 : Fingerprint) (n1 n2 : Z) :
  well_formed n1 fp1 -> well_formed n2 fp2 ->
  Forall (fun q => 0 <= q <= 1) (pair_ratios (key_sentences fp1) (key_sentences fp2)) ->
  0 <= _calculate_similarity fp1 fp2 <= 1.
Proof.
  intros (H1 & _ & _ & Hg1 & _) (H2 & _ & _ & Hg2 & _) Hall.
  unfold _calculate_similarity, calculate_similarity_body.
  pose proof (word_similarity_range (key_words fp1) (key_words fp2)) as Hw.
  pose proof (topic_similarity_range (topic_indicators fp1) (topic_indicators fp2)) as Ht.
  pose proof (sentence_similarity_range _ _ Hall) as Hs.
  destruct (_calculate_structure_similarity (content_structure fp1) (content_structure fp2))
    as [q|e] eqn:Hq; cbn [rbind try_except].
  - pose proof (structure_similarity_range _ _ H1 H2 Hg1 Hg2 Hq) as Hst.
    now apply weighted_sum_range.
  - split; [apply Qle_refl | discriminate].
Qed.

(** X22 (the similarity is a fraction): for any two texts, if the ratio
    of [SequenceMatcher] lies between 0 and 1 on every pair of their key
    sentences, the similarity of their fingerprints lies between 0 and 1. *)
Theorem similarity_is_a_fraction (content1 content2 : pystr) :
  Forall (fun q => 0 <= q <= 1)
    (pair_ratios (key_sentences (create_semantic_fingerprint content1))
       (key_sentences (create_semantic_fingerprint content2))) ->
  0 <= _calculate_similarity (create_semantic_fingerprint content1)
         (create_semantic_fingerprint content2) <= 1.
Proof.
  apply similarity_range with (len (str_split content1)) (len (str_split content2));
    apply semantic_fingerprint_shape.
Qed.

(** X23 (texts without topic indicators): under the same condition on
    the ratios, if one of the two texts names no term of the vocabulary,
    the similarity of their fingerprints is at most 0.8: the topic
    component carries the weight 0.2. *)
Theorem similarity_without_topics_is_capped (content1 content2 : pystr) :
  Forall (fun q => 0 <= q <= 1)
    (pair_ratios (key_sentences (create_semantic_fingerprint content1))
       (key_sentences (create_semantic_fingerprint content2))) ->
  topic_indicators (create_semantic_fingerprint content1) = []
  \/ topic_indicators (create_semantic_fingerprint content2) = [] ->
  _calculate_similarity (create_semantic_fingerprint content1)
    (create_semantic_fingerprint content2) <= 0.8.
Proof.
  intros Hall Htopics.
  set (fp1 := create_semantic_fingerprint content1) in *.
  set (fp2 := create_semantic_fingerprint content2) in *.
  destruct (semantic_fingerprint_shape content1) as (H1 & _ & _ & Hg1 & _).
  destruct (semantic_fingerprint_shape content2) as (H2 & _ & _ & Hg2 & _).
  fold fp1 in Hg1. fold fp2 in Hg2.
  unfold _calculate_similarity, calculate_similarity_body.
  rewrite (topic_similarity_empty Htopics).
  pose proof (word_similarity_range (key_words fp1) (key_words fp2)) as Hw.
  pose proof (sentence_similarity_range _ _ Hall) as Hs.
  destruct (_calculate_structure_similarity (content_structure fp1) (content_structure fp2))
    as [q|e] eqn:Hq; cbn [rbind try_except].
  - pose proof (structure_similarity_range _ _ H1 H2 Hg1 Hg2 Hq) as Hst.
    now apply weighted_sum_without_topics.
  - discriminate.
Qed.

(** ** The semantic check below the threshold *)

Lemma scan_stored_below_threshold (threshold : Q) (fingerprint : Fingerprint)
    (items : list (pystr * Fingerprint)) (max_similarity : Q) (most_similar_id : pystr) :
  Forall (fun kv => _calculate_similarity fingerprint (snd kv) < threshold) items ->
  scan_stored threshold fingerprint items max_similarity most_similar_id
  = (false, py "semantically_unique",
     fold_left py_max (map (fun kv => _calculate_similarity fingerprint (snd kv)) items)
       max_similarity).
Proof.
  revert max_similarity most_similar_id.
  induction items as [|[k fp] items IH]; intros m mid Hall; [reflexivity|].
  inversion Hall as [|? ? Hk Hrest]; subst. cbn [snd] in Hk.
  cbn [scan_stored map fold_left snd]. unfold py_max at 2.
  destruct (Qltb m (_calculate_similarity fingerprint fp)); [|now apply IH].
  replace (Qle_bool threshold (_calculate_similarity fingerprint fp)) with false;
    [now apply IH|].
  symmetry. destruct (Qle_bool threshold (_calculate_similarity fingerprint fp)) eqn:Hle;
    [|reflexivity].
  apply Qle_bool_iff in Hle. exfalso. eapply Qlt_not_le; eauto.
Qed.

(** X24 (no stored fingerprint reaches the threshold): when every stored
    fingerprint is less similar to the incoming one than the threshold,
    [_check_semantic_similarity] answers
    [(False, "semantically_unique", score)], where [score] is the largest
    of these similarities, or 0 when none is positive. *)
Theorem semantic_check_below_threshold
    (now : Z) (fingerprint : Fingerprint) (content_id : pystr) (eng : Engine)
    (stored : list (pystr * Fingerprint)) :
  fst (_get_stored_fingerprints now eng) = Ok stored ->
  Forall (fun kv => _calculate_similarity fingerprint (snd kv)
                    < similarity_threshold (config eng)) stored ->
  exists score,
    fst (_check_semantic_similarity now fingerprint content_id eng)
    = Ok (false, py "semantically_unique", score)
    /\ 0 <= score
    /\ (forall stored_id fp, In (stored_id, fp) stored ->
          _calculate_similarity fingerprint fp <= score)
    /\ (score = 0
        \/ exists stored_id fp, In (stored_id, fp) stored
             /\ score = _calculate_similarity fingerprint fp).
Proof.
  intros Hstored Hall.
  pose proof (keeps_config_get_stored now eng) as Hcfg.
  unfold _check_semantic_similarity, try_, bind, get, ret.
  destruct (_get_stored_fingerprints now eng) as [[l | e] eng'];
    cbn [fst snd] in *; [|discriminate].
  injection Hstored as ->. rewrite Hcfg.
  rewrite scan_stored_below_threshold by assumption.
  eexists. split; [reflexivity|]. split; [|split].
  - apply fold_max_ge_init.
  - intros sid fp Hin. apply fold_max_ge_elem.
    apply in_map_iff. exists (sid, fp). auto.
  - destruct (fold_max_attained
                (map (fun kv => _calculate_similarity fingerprint (snd kv)) stored) 0)
      as [H | H]; [now left|].
    right. apply in_map_iff in H as ([sid fp] & Heq & Hin).
    exists sid, fp. auto.
Qed.

End Range.

(** X22 at work: the texts "robot" and "robot robot". *)
Lemma similarity_is_a_fraction_witness :
  0 <= @_calculate_similarity simple_env
         (@create_semantic_fingerprint simple_env (py "robot"))
         (@create_semantic_fingerprint simple_env (py "robot robot")) <= 1.
Proof.
  apply (@similarity_is_a_fraction simple_env (py "robot") (py "robot robot")).
  vm_compute. repeat constructor; discriminate.
Defined.

(** X23 at work: two texts that name no term of the vocabulary. *)
Lemma similarity_without_topics_witness :
  @_calculate_similarity simple_env
    (@create_semantic_fingerprint simple_env (py "breaking news"))
    (@create_semantic_fingerprint simple_env (py "breaking news today")) <= 0.8.
Proof.
  apply (@similarity_without_topics_is_capped simple_env (py "breaking news")
           (py "breaking news today")).
  - vm_compute. repeat constructor; discriminate.
  - left. vm_compute. reflexivity.
Defined.

(** X24 at work: the in-memory engine that has seen "robot" is asked about
    the fingerprint of "breaking news". *)
Lemma semantic_check_below_threshold_witness :
  exists score,
    fst (@_check_semantic_similarity simple_env 1
           (@create_semantic_fingerprint simple_env (py "breaking news")) (py "__news")
           robot_engine)
    = Ok (false, py "semantically_unique", score)
    /\ 0 <= score
    /\ (forall stored_id fp, In (stored_id, fp) [(py "__robot", robot_fingerprint)] ->
          @_calculate_similarity simple_env
            (@create_semantic_fingerprint simple_env (py "breaking news")) fp <= score)
    /\ (score = 0
        \/ exists stored_id fp, In (stored_id, fp) [(py "__robot", robot_fingerprint)]
             /\ score = @_calculate_similarity simple_env
                          (@create_semantic_fingerprint simple_env (py "breaking news"))
                          fp).
Proof.
  apply (@semantic_check_below_threshold simple_env 1
           (@create_semantic_fingerprint simple_env (py "breaking news")) (py "__news")
           robot_engine [(py "__robot", robot_fingerprint)]).
  - vm_compute. reflexivity.
  - constructor; [vm_compute; reflexivity | constructor].
Defined.

(* ================================================================== *)
(** * Properties: stages that are switched off *)
(* ================================================================== *)

Lemma filter_absorb {A} (p q : A -> bool) (l : list A) :
  (forall x, p x = true -> q x = true) -> filter p (filter q l) = filter p l.
Proof.
  intros Hpq. induction l as [|x l IH]; [reflexivity|]. cbn [filter].
  destruct (q x) eqn:Hq; cbn [filter].
  - now rewrite IH.
  - destruct (p x) eqn:Hp; [|exact IH]. apply Hpq in Hp. congruence.
Qed.

(** A command on a key outside [prefix] leaves the entries under [prefix]
    as they are. *)
Lemma prefix_entries_step (prefix : pystr) (r r' : Redis) :
  server_step (other_prefix prefix) r r' ->
  prefix_entries prefix r' = prefix_entries prefix r.
Proof.
  intros [n | n key value expiry HK]; unfold prefix_entries; cbn [entries];
    [reflexivity|].
  unfold other_prefix in HK. rewrite filter_app. cbn [filter fst]. rewrite HK, app_nil_r.
  apply filter_absorb. intros e He. apply negb_true_iff, str_eqb_neq.
  intros Heq. rewrite Heq in He. congruence.
Qed.

Lemma stored_under_step (prefix : pystr) (eng : Engine) (r r' : Redis) :
  redis_client eng = Some r ->
  server_step (other_prefix prefix) r r' ->
  stored_under prefix (set_redis (Some r') eng) = stored_under prefix eng.
Proof.
  intros Hr Hstep. unfold stored_under. cbn [redis_client set_redis]. rewrite Hr.
  now apply prefix_entries_step.
Qed.

(** Two verdicts with different reasons are different. *)
Ltac distinct_reasons :=
  let H := fresh "H" in
  intros H; apply (f_equal (fun v : verdict => snd (fst v))) in H;
  vm_compute in H; discriminate H.

Section Switches.

Context {E : PyEnv}.

(** The body of [is_duplicate] is its three stages, run in the state the
    sweep leaves. *)
Lemma body_after_sweep (now : Z) (content title url : pystr) (eng : Engine) :
  is_duplicate_body now content title url eng
  = stages now content url (title ++ py "_" ++ url ++ py "_" ++ firstn 100 content)
      (snd (_clean_expired_entries now eng)).
Proof.
  destruct (total_clean now eng) as (u & e1 & H).
  unfold is_duplicate_body. unfold bind at 1. rewrite H. reflexivity.
Qed.

(** With the hash check disabled stage 1 is skipped. *)
Lemma stages_without_hash (now : Z) (content url cid : pystr) (eng : Engine) :
  content_hash_enabled (config eng) = false ->
  stages now content url cid eng = semantic_stage now content url cid eng.
Proof.
  intros Hoff. unfold stages. unfold bind at 1. unfold get. cbv beta iota.
  now rewrite Hoff.
Qed.

(** The sweep touches neither the configuration, nor the connection, nor
    the hash set. *)
Lemma sweep_keeps (now : Z) (eng : Engine) :
  config (snd (_clean_expired_entries now eng)) = config eng
  /\ redis_client (snd (_clean_expired_entries now eng)) = redis_client eng
  /\ content_hashes (snd (_clean_expired_entries now eng)) = content_hashes eng.
Proof.
  destruct (redis_client eng) as [r|] eqn:Hr.
  - rewrite (clean_redis now eng Hr). cbn [snd]. auto.
  - rewrite (clean_local_state now eng Hr). cbn [snd].
    destruct (unexpired now (time_window_hours (config eng)) (processed_items eng)); auto.
Qed.

(** ** Verdicts, stage by stage *)

Section Returns.

Variable cfg : Config.
Variable S : verdict -> Prop.

(** The three stages, given the verdicts of stage 2. *)
Lemma stages_return_with now content url cid :
  S (true, py "exact_duplicate", 1) ->
  hoare (configured cfg) (semantic_stage now content url cid) (returns S) ->
  hoare (configured cfg) (stages now content url cid) (returns S).
Proof.
  intros Hexact Hsem. apply hoare_read. intros eng Hc.
  destruct (content_hash_enabled (config eng)); [|now apply Hsem].
  apply (@hoare_after _ _ (configured cfg) (lift (create_content_hash content))
           (fun content_hash =>
              bind (_is_hash_duplicate now content_hash) (fun dup =>
              if dup then ret (true, py "exact_duplicate", 1)
              else bind (_store_content_hash now content_hash cid)
                     (fun _ => semantic_stage now content url cid)))
           S); auto.
  - apply invariant_lift.
  - intros h. apply hoare_after.
    + apply invariant_is_hash_duplicate with (K := any_key). apply configured_redis.
    + intros [|]; [now apply hoare_returns_ret|].
      apply hoare_after; [|intros; exact Hsem].
      apply invariant_store_content_hash with (K := any_key);
        [apply any_key_holds | apply configured_redis | now intros].
Qed.

(** Stage 2, given the verdicts of stage 3. *)
Lemma semantic_stage_returns_with now content url cid :
  (forall v, semantic_hit cfg v -> fst (fst v) = true -> S v) ->
  hoare (configured cfg) (url_stage now url cid) (returns S) ->
  hoare (configured cfg) (semantic_stage now content url cid) (returns S).
Proof.
  intros Hhit Hurl. apply hoare_read. intros eng Hc.
  destruct (semantic_analysis (config eng)); [|now apply Hurl].
  apply (@hoare_after_value _ _ (configured cfg)
           (_check_semantic_similarity now (create_semantic_fingerprint content) cid)
           (fun similarity_result =>
              if fst (fst similarity_result) then ret similarity_result
              else bind (_store_fingerprint now cid (create_semantic_fingerprint content))
                     (fun _ => url_stage now url cid))
           (semantic_hit cfg)); auto.
  - apply invariant_check_semantic with (K := any_key). apply configured_redis.
  - apply check_semantic_returns.
  - intros v Hv. destruct (fst (fst v)) eqn:Hflag.
    + apply hoare_returns_ret. now apply Hhit.
    + apply hoare_after; [|intros; exact Hurl].
      apply invariant_store_fingerprint with (K := any_key);
        [apply any_key_holds | apply configured_redis | now intros].
Qed.

End Returns.

(** Stage 3 without a URL answers "unique". *)
Lemma finish_returns (cfg : Config) now cid :
  hoare (configured cfg) (url_stage now [] cid)
    (returns (fun v => v = (false, py "unique", 0))).
Proof.
  apply hoare_after.
  - apply invariant_record_processed_item with (K := any_key);
      [apply any_key_holds | apply configured_redis].
  - intros _. now apply hoare_returns_ret.
Qed.

(** ** The hash check *)

(** X25 (the hash check can be switched off): with [content_hash_enabled]
    false, [is_duplicate] never answers "exact_duplicate" and never falls
    back on an error, adds nothing to the in-memory hash set, and leaves
    the entries of the server under "hash:" as they were. *)
Theorem hash_check_switched_off
    (now : Z) (content title url : pystr) (eng : Engine) :
  content_hash_enabled (config eng) = false ->
  fst (is_duplicate now content title url eng) <> (true, py "exact_duplicate", 1)
  /\ fst (is_duplicate now content title url eng) <> (false, py "error_fallback", 0)
  /\ content_hashes (snd (is_duplicate now content title url eng)) = content_hashes eng
  /\ stored_under (py "hash:") (snd (is_duplicate now content title url eng))
     = stored_under (py "hash:") eng.
Proof.
  intros Hoff. destruct (sweep_keeps now eng) as (Hc & Hr & Hh).
  unfold is_duplicate. rewrite body_after_sweep.
  set (e1 := snd (_clean_expired_entries now eng)) in *.
  set (cid := title ++ _).
  rewrite stages_without_hash by (now rewrite Hc).
  set (I := fun e : Engine =>
              content_hashes e = content_hashes eng
              /\ stored_under (py "hash:") e = stored_under (py "hash:") eng).
  assert (HI : I e1).
  { split; [exact Hh|]. unfold stored_under. now rewrite Hr. }
  assert (Hkeep : I (snd (semantic_stage now content url cid e1))).
  { apply (@invariant_semantic_stage E I (other_prefix (py "hash:")));
      try (intros; reflexivity); try exact HI.
    - intros e r r' [H1 H2] Hs Hstep. split; [exact H1|].
      now rewrite (stored_under_step _ Hs Hstep).
    - intros e key fp H _. exact H.
    - intros e key seen H _. exact H. }
  pose proof (@semantic_stage_returns E (config eng) now content url cid e1 Hc) as Hshape.
  destruct (total_semantic_stage now content url cid e1) as (v & e2 & Hrun).
  rewrite Hrun in *. cbn [fst snd returns] in *.
  destruct Hkeep as [Hk1 Hk2]. split; [|split; [|split]]; try assumption.
  - now apply (stage_shape_not_exact Hshape).
  - destruct Hshape as [[-> | ->] | (sid & s & -> & _)]; distinct_reasons.
Qed.

(** ** The semantic analysis *)

(** X26 (the semantic analysis can be switched off): with
    [semantic_analysis] false, [is_duplicate] never answers
    "semantic_similar_to_...", stores no fingerprint in memory (the table
    is what the sweep at the start of the call left), and leaves the
    entries of the server under "fingerprint:" as they were. *)
Theorem semantic_analysis_switched_off
    (now : Z) (content title url : pystr) (eng : Engine) :
  semantic_analysis (config eng) = false ->
  (forall stored_id score,
     fst (is_duplicate now content title url eng)
     <> (true, py "semantic_similar_to_" ++ stored_id, score))
  /\ content_fingerprints (snd (is_duplicate now content title url eng))
     = content_fingerprints (snd (_clean_expired_entries now eng))
  /\ stored_under (py "fingerprint:") (snd (is_duplicate now content title url eng))
     = stored_under (py "fingerprint:") eng.
Proof.
  intros Hoff. destruct (sweep_keeps now eng) as (Hc & Hr & Hh).
  unfold is_duplicate. rewrite body_after_sweep.
  set (e1 := snd (_clean_expired_entries now eng)) in *.
  set (cid := title ++ _).
  set (I := fun e : Engine =>
              config e = config eng
              /\ content_fingerprints e = content_fingerprints e1
              /\ stored_under (py "fingerprint:") e = stored_under (py "fingerprint:") eng).
  assert (HI : I e1).
  { split; [exact Hc|]. split; [reflexivity|]. unfold stored_under. now rewrite Hr. }
  assert (Hstep : forall e r r', I e -> redis_client e = Some r ->
            server_step (other_prefix (py "fingerprint:")) r r' ->
            I (set_redis (Some r') e)).
  { intros e r r' (H1 & H2 & H3) Hs Hst. split; [exact H1|]. split; [exact H2|].
    now rewrite (stored_under_step _ Hs Hst). }
  assert (Hkeep : I (snd (stages now content url cid e1))).
  { apply (@invariant_stages_with E I (other_prefix (py "fingerprint:")));
      try (intros; reflexivity); try exact HI; try exact Hstep.
    - intros e h H _. exact H.
    - apply invariant_read. intros e He. destruct He as (H1 & H2 & H3).
      rewrite H1, Hoff.
      apply (@invariant_url_stage E I (other_prefix (py "fingerprint:")));
        try (intros; reflexivity); try exact Hstep.
      + intros e0 key seen H _. exact H.
      + repeat split; assumption. }
  assert (Hshape : returns
            (fun v => late_shape v \/ v = (true, py "exact_duplicate", 1))
            (fst (stages now content url cid e1)) (snd (stages now content url cid e1))).
  { apply (@stages_return_with (config eng)); [now right | | exact Hc].
    apply hoare_read. intros e He. rewrite He, Hoff.
    pose proof (@url_stage_returns E (config eng) now url cid e He) as H.
    unfold returns in *. destruct (fst (url_stage now url cid e)); [now left | exact H]. }
  destruct (stages now content url cid e1) as [[v|e] e2]; cbn [fst snd returns] in *;
    destruct Hkeep as (_ & Hk2 & Hk3); (split; [|split]); try assumption.
  - intros sid s. destruct Hshape as [[-> | ->] | ->]; distinct_reasons.
  - intros sid s. distinct_reasons.
Qed.

(** ** The URL check *)

(** X27 (no URL, no URL check): a call of [is_duplicate] with the empty
    URL never answers "url_duplicate", records no URL in memory (the table
    is what the sweep at the start of the call left), and leaves the
    entries of the server under "url:" as they were. *)
Theorem empty_url_skips_url_check
    (now : Z) (content title : pystr) (eng : Engine) :
  fst (is_duplicate now content title [] eng) <> (true, py "url_duplicate", float 0.9)
  /\ processed_items (snd (is_duplicate now content title [] eng))
     = processed_items (snd (_clean_expired_entries now eng))
  /\ stored_under (py "url:") (snd (is_duplicate now content title [] eng))
     = stored_under (py "url:") eng.
Proof.
  destruct (sweep_keeps now eng) as (Hc & Hr & Hh).
  unfold is_duplicate. rewrite body_after_sweep.
  set (e1 := snd (_clean_expired_entries now eng)) in *.
  set (cid := title ++ _).
  set (I := fun e : Engine =>
              processed_items e = processed_items e1
              /\ stored_under (py "url:") e = stored_under (py "url:") eng).
  assert (HI : I e1).
  { split; [reflexivity|]. unfold stored_under. now rewrite Hr. }
  assert (Hstep : forall e r r', I e -> redis_client e = Some r ->
            server_step (other_prefix (py "url:")) r r' ->
            I (set_redis (Some r') e)).
  { intros e r r' (H1 & H2) Hs Hst. split; [exact H1|].
    now rewrite (stored_under_step _ Hs Hst). }
  assert (Hkeep : I (snd (stages now content [] cid e1))).
  { apply (@invariant_stages_with E I (other_prefix (py "url:")));
      try (intros; reflexivity); try exact HI; try exact Hstep.
    - intros e h H _. exact H.
    - apply (@invariant_semantic_stage_with E I (other_prefix (py "url:")));
        try (intros; reflexivity); try exact Hstep.
      + intros e key fp H _. exact H.
      + apply (@invariant_finish E I (other_prefix (py "url:")));
          try (intros; reflexivity); exact Hstep. }
  assert (Hshape : returns (fun v => v <> (true, py "url_duplicate", float 0.9))
            (fst (stages now content [] cid e1)) (snd (stages now content [] cid e1))).
  { apply (@stages_return_with (config eng)); [distinct_reasons | | exact Hc].
    apply semantic_stage_returns_with.
    - intros v Hv Hflag. destruct (Hv Hflag) as (sid & s & -> & _). distinct_reasons.
    - eapply hoare_weaken; [apply (@finish_returns (config eng)) | auto |].
      intros [v|e] e0 H; cbn in *; [subst v; distinct_reasons | exact Logic.I]. }
  destruct (stages now content [] cid e1) as [[v|e] e2]; cbn [fst snd returns] in *;
    destruct Hkeep as (Hk1 & Hk2); (split; [|split]); try assumption.
  distinct_reasons.
Qed.

End Switches.

(** X25 at work: an engine on the busy server with the hash check switched
    off is sent the text "robot". *)
Lemma hash_check_switched_off_witness :
  let eng := {| config := {| similarity_threshold := float 0.8; time_window_hours := 24;
                             content_hash_enabled := false;
                             semantic_analysis := true |};
                redis_client := Some busy_server; content_hashes := [];
                content_fingerprints := []; processed_items := [] |} in
  fst (@is_duplicate simple_env 0 (py "robot") [] [] eng) <> (true, py "exact_duplicate", 1)
  /\ fst (@is_duplicate simple_env 0 (py "robot") [] [] eng)
     <> (false, py "error_fallback", 0)
  /\ content_hashes (snd (@is_duplicate simple_env 0 (py "robot") [] [] eng))
     = content_hashes eng
  /\ stored_under (py "hash:") (snd (@is_duplicate simple_env 0 (py "robot") [] [] eng))
     = stored_under (py "hash:") eng.
Proof.
  intros eng. apply (@hash_check_switched_off simple_env 0 (py "robot") [] [] eng).
  reflexivity.
Defined.

(** X26 at work: the in-memory engine that has seen "robot", with the
    semantic analysis switched off, is sent "robot robot". *)
Lemma semantic_analysis_switched_off_witness :
  let eng := {| config := {| similarity_threshold := float 0.8; time_window_hours := 24;
                             content_hash_enabled := true;
                             semantic_analysis := false |};
                redis_client := None; content_hashes := content_hashes robot_engine;
                content_fingerprints := content_fingerprints robot_engine;
                processed_items := [] |} in
  (forall stored_id score,
     fst (@is_duplicate simple_env 1 (py "robot robot") [] [] eng)
     <> (true, py "semantic_similar_to_" ++ stored_id, score))
  /\ content_fingerprints (snd (@is_duplicate simple_env 1 (py "robot robot") [] [] eng))
     = content_fingerprints (snd (_clean_expired_entries 1 eng))
  /\ stored_under (py "fingerprint:")
       (snd (@is_duplicate simple_env 1 (py "robot robot") [] [] eng))
     = stored_under (py "fingerprint:") eng.
Proof.
  intros eng. apply (@semantic_analysis_switched_off simple_env 1 (py "robot robot") [] []
                       eng).
  reflexivity.
Defined.

(* ================================================================== *)
(** * Properties: what counts as the same content *)
(* ================================================================== *)

Section SameWords.

Context {E : PyEnv}.

(** The hash of a content depends on its lower-cased words only. *)
Lemma content_hash_by_words (content1 content2 : pystr) :
  str_split (str_lower content1) = str_split (str_lower content2) ->
  create_content_hash content1 = create_content_hash content2.
Proof.
  intros Hwords. unfold create_content_hash, _normalize_content. now rewrite Hwords.
Qed.

(** X10 (case and spacing do not matter to the hash check): with the hash
    check enabled and a backend that does not fail and, when it is a
    server, takes the hash record of the first submission (the hash and the
    content id can be encoded, the window is an accepted expiry), if a
    content is not reported as an exact duplicate, then a content with the
    same lower-cased words, however it is spaced and capitalised, submitted
    within the time window is reported as [(True, "exact_duplicate", 1.0)],
    whatever the engine held before and whatever the title and the URL of
    the second submission. *)
Theorem same_words_are_exact_duplicates
    (now1 now2 : Z) (content1 content2 title1 url1 title2 url2 h : pystr) (eng : Engine) :
  fault_free eng ->
  content_hash_enabled (config eng) = true ->
  create_content_hash content1 = Ok h ->
  str_split (str_lower content1) = str_split (str_lower content2) ->
  within_window eng now1 now2 ->
  storable eng now1 [h; content_id_of content1 title1 url1] ->
  fst (is_duplicate now1 content1 title1 url1 eng) <> (true, py "exact_duplicate", 1) ->
  fst (is_duplicate now2 content2 title2 url2
         (snd (is_duplicate now1 content1 title1 url1 eng)))
  = (true, py "exact_duplicate", 1).
Proof.
  intros Hfree Hen Hh1 Hwords Hwin Hstorable Hfirst.
  assert (Hh2 : create_content_hash content2 = Ok h)
    by (now rewrite <- (content_hash_by_words _ _ Hwords)).
  destruct (is_duplicate_keeps_backend now1 content1 title1 url1 eng) as (Hcfg & Hback).
  unfold within_window in Hwin.
  destruct eng as [cfg rc hs fps pis]. cbn in Hfree, Hen, Hwin, Hcfg.
  destruct rc as [[ents f n]|]; cbn in Hfree.
  - destruct (@redis_hash_step E cfg ents f n hs fps pis now1 now2 content1 title1 url1 h
                Hfree Hen Hh1) as [Hiff Hstore].
    destruct (key_alive now1 (py "hash:" ++ h) {| entries := ents; faults := f; issued := n |})
      eqn:Halive.
    + exfalso. apply Hfirst. now apply Hiff.
    + destruct (Hstore eq_refl Hwin Hstorable) as (r' & Hr' & Hf' & Hlater).
      apply (@redis_hash_hit E _ r' now2 content2 title2 url2 h); auto.
      * now rewrite Hcfg.
      * intros k. rewrite Hf'. apply Hfree.
  - destruct (@local_hash_step E cfg hs fps pis now1 content1 title1 url1 h Hen Hh1)
      as [Hhs _].
    apply (@local_hash_hit E _ now2 content2 title2 url2 h); auto.
    + now rewrite Hcfg.
    + unfold uses_redis in Hback. cbn in Hback.
      destruct (redis_client (snd (is_duplicate now1 content1 title1 url1 _)));
        [discriminate | reflexivity].
    + rewrite Hhs. apply set_add_mem.
Qed.

End SameWords.

(** X10 at work: "Hello  World" and then "hello world", a minute apart, on
    the busy server. *)
Lemma same_words_witness :
  fst (@is_duplicate simple_env 60 (py "hello world") (py "Again") []
         (snd (@is_duplicate simple_env 0 (py "Hello  World") (py "Hello") [] busy_engine)))
  = (true, py "exact_duplicate", 1).
Proof.
  apply (@same_words_are_exact_duplicates simple_env 0 60 (py "Hello  World")
           (py "hello world") (py "Hello") [] (py "Again") [] (py "hello world")
           busy_engine).
  - intros n. reflexivity.
  - reflexivity.
  - vm_compute. reflexivity.
  - vm_compute. reflexivity.
  - unfold within_window. cbn. lia.
  - split; vm_compute; reflexivity.
  - vm_compute. discriminate.
Defined.

(* ================================================================== *)
(** * Properties: the documented behaviour of the duplicate check *)
(* ================================================================== *)

(** Symbolic execution of a submission to a healthy server, for its
    verdict: what the stores leave on the server is taken from the lemmas
    on their outcome, and the two stores of stage 3 only have to return. *)
Ltac run_first :=
  cbn -[create_semantic_fingerprint create_content_hash url_md5 firstn
        _calculate_similarity Qle_bool Qltb timedelta_hours redis_keys
        _store_content_hash _store_fingerprint _store_processed_url
        _record_processed_item].

Ltac exec_first Hf :=
  cbv beta iota zeta delta
    [bind get ret lift try_ modify redis redis_exists redis_get
     redis_command take_fault _is_hash_duplicate
     _get_stored_fingerprints _check_semantic_similarity
     _is_url_duplicate _clean_expired_entries
     url_stage semantic_stage set_redis set_content_hashes set_content_fingerprints
     set_processed_items config redis_client content_hashes content_fingerprints
     processed_items entries faults issued];
  run_first;
  rewrite ?Hf;
  rewrite ?redis_keys_few by (try apply Hf; few_keys);
  try match goal with
      | |- context [_store_content_hash ?now ?h ?cid
                      {| config := ?cfg;
                         redis_client :=
                           Some {| entries := ?ents; faults := ?f; issued := ?n |};
                         content_hashes := []; content_fingerprints := [];
                         processed_items := [] |}] =>
          let n' := fresh "n" in
          let Heq := fresh "Heq" in
          destruct (@store_content_hash_healthy cfg ents f n now h cid Hf)
            as ([|] & n' & Heq);
          rewrite Heq; clear Heq
      | |- context [_store_fingerprint ?now ?cid ?fp
                      {| config := ?cfg;
                         redis_client :=
                           Some {| entries := ?ents; faults := ?f; issued := ?n |};
                         content_hashes := []; content_fingerprints := [];
                         processed_items := [] |}] =>
          let n' := fresh "n" in
          let Heq := fresh "Heq" in
          destruct (@store_fingerprint_healthy cfg ents f n now cid fp Hf)
            as ([|] & n' & Heq);
          rewrite Heq; clear Heq
      | |- context [_store_processed_url ?now ?url ?cid ?eng] =>
          let eng' := fresh "eng" in
          let Heq := fresh "Heq" in
          destruct (total_try
                      (bind (lift (url_md5 url)) (fun url_hash =>
                       bind get (fun eng0 =>
                       match redis_client eng0 with
                       | Some _ =>
                           redis (redis_setex now (py "url:" ++ url_hash)
                                    (time_window_hours (config eng0) * 3600)
                                    (RStr cid))
                       | None =>
                           modify (set_processed_items
                                     (dict_set url_hash now (processed_items eng0)))
                       end)))
                      tt eng) as ([] & eng' & Heq);
          change (_store_processed_url now url cid eng = (Ok tt, eng')) in Heq;
          rewrite Heq; clear Heq
      | |- context [_record_processed_item ?now ?cid ?eng] =>
          let eng' := fresh "eng" in
          let Heq := fresh "Heq" in
          destruct (total_try
                      (bind get (fun eng0 =>
                       match redis_client eng0 with
                       | Some _ =>
                           redis (redis_setex now (py "processed:" ++ cid)
                                    (time_window_hours (config eng0) * 3600)
                                    (RTime now))
                       | None => ret tt
                       end))
                      tt eng) as ([] & eng' & Heq);
          change (_record_processed_item now cid eng = (Ok tt, eng')) in Heq;
          rewrite Heq; clear Heq
      end.

Section Documented.

Context {E : PyEnv}.

(** ** Exact duplicates *)

(** The first submission to an empty server that answers is unique,
    whatever the server takes of what the submission stores. *)
Lemma redis_first_unique (cfg : Config) (f : nat -> bool) (n : nat) (now : Z)
    (content title url h : pystr) :
  (forall k, f k = false) ->
  create_content_hash content = Ok h ->
  fst (is_duplicate now content title url
         {| config := cfg;
            redis_client := Some {| entries := []; faults := f; issued := n |};
            content_hashes := []; content_fingerprints := []; processed_items := [] |})
  = (false, py "unique", 0).
Proof.
  intros Hf Hh.
  unfold is_duplicate, is_duplicate_body.
  set (cid := title ++ _).
  destruct (content_hash_enabled cfg) eqn:Hen, (semantic_analysis cfg) eqn:Hsem;
    destruct url as [|c url];
    try (destruct (url_md5 (c :: url)) as [uh|e] eqn:Hu);
    repeat (exec_first Hf; rewrite ?Hen, ?Hsem, ?Hh, ?Hu);
    reflexivity.
Qed.

(** C1 (exact duplicate): with the hash check enabled, a content whose hash
    can be computed, and no internal fault (no command to the server
    fails: the connection holds, the client can encode the hash and the
    content id, the window is an expiry the server accepts), the first
    submission to an empty store is unique, and the same submission
    repeated within the time window is an exact duplicate. *)
Theorem same_content_twice
    (eng : Engine) (now1 now2 : Z) (content title url h : pystr) :
  content_hash_enabled (config eng) = true ->
  empty_store eng ->
  fault_free eng ->
  create_content_hash content = Ok h ->
  within_window eng now1 now2 ->
  storable eng now1 [h; content_id_of content title url] ->
  fst (is_duplicate now1 content title url eng) = (false, py "unique", 0)
  /\ fst (is_duplicate now2 content title url
            (snd (is_duplicate now1 content title url eng)))
     = (true, py "exact_duplicate", 1).
Proof.
  intros Hen (Hhs & Hfps & Hpis & Hents) Hfree Hh Hwin Hstore.
  destruct (is_duplicate_keeps_backend now1 content title url eng) as (Hcfg & _).
  destruct eng as [cfg rc hs fps pis].
  cbn in Hen, Hhs, Hfps, Hpis, Hents, Hfree, Hcfg.
  unfold within_window in Hwin. cbn in Hwin. subst hs fps pis.
  destruct rc as [[ents f n]|].
  - cbn in Hents, Hfree. subst ents.
    split; [now apply redis_first_unique with h|].
    destruct (@redis_hash_step E cfg [] f n [] [] [] now1 now2 content title url h
                Hfree Hen Hh) as [_ Hkept].
    destruct (Hkept eq_refl Hwin Hstore) as (r' & Hr' & Hf' & Halive).
    apply (@redis_hash_hit E _ r' now2 content title url h); auto.
    + now rewrite Hcfg.
    + intros k. rewrite Hf'. apply Hfree.
  - destruct (@local_first_call E cfg now1 content title url h Hen Hh)
      as (Hv & _ & Hr' & Hhs).
    split; [exact Hv|].
    apply (@local_hash_hit E _ now2 content title url h); auto.
    + now rewrite Hcfg.
    + rewrite Hhs. cbn. now rewrite str_eqb_refl.
Qed.

(** ** Errors *)

(** A verdict that the body of [is_duplicate] returns is never the
    fallback verdict. *)
Lemma body_never_returns_fallback
    (now : Z) (content title url : pystr) (eng eng' : Engine) (v : verdict) :
  is_duplicate_body now content title url eng = (Ok v, eng') ->
  v <> (false, py "error_fallback", 0).
Proof.
  intros Hbody. rewrite body_after_sweep in Hbody.
  destruct (sweep_keeps now eng) as (Hc & _ & _).
  set (e1 := snd (_clean_expired_entries now eng)) in *.
  set (cid := title ++ _) in *.
  assert (H : hoare (configured (config eng)) (stages now content url cid)
                (returns (fun v => v <> (false, py "error_fallback", 0)))).
  { apply stages_return_with; [discriminate|].
    eapply hoare_weaken;
      [apply (@semantic_stage_returns E (config eng)) | auto |].
    intros [w|e] eng0 Hw; cbn in *; auto.
    destruct Hw as [[-> | ->] | (sid & s & -> & _)]; distinct_reasons. }
  specialize (H e1 Hc). rewrite Hbody in H. exact H.
Qed.

(** C2 (failing open), as the code has it: [is_duplicate] returns a
    verdict on every input and in every state, and that verdict is
    [(false, "error_fallback", 0.0)] exactly when the hash check is enabled
    and hashing the content raises, which is the one error that leaves the
    body of the check.  An error anywhere else (in the sweep, in a command
    to the server, in the similarity of two fingerprints) is caught by the
    helper it occurs in and does not lead to this verdict. *)
Theorem fallback_exactly_when_hashing_fails
    (now : Z) (content title url : pystr) (eng : Engine) :
  fst (is_duplicate now content title url eng) = (false, py "error_fallback", 0)
  <-> content_hash_enabled (config eng) = true
      /\ exists e, create_content_hash content = Raise e.
Proof.
  split.
  - unfold is_duplicate.
    destruct (is_duplicate_body now content title url eng) as [[v|e] eng'] eqn:Hbody;
      cbn [fst]; intros Hv.
    + now apply body_never_returns_fallback in Hbody.
    + apply body_raises_only_from_hash in Hbody. destruct Hbody as [Hen Hh]. eauto.
  - intros (Hen & e & Hh). now apply unhashable_content_falls_back with e.
Qed.

End Documented.

(** ** Expiry *)

(** A [SETEX] whose expiry the server does not accept raises, in the
    client or on the server, and stores nothing. *)
Lemma setex_rejected (now : Z) (key : pystr) (seconds : Z) (value : redis_value)
    (ents : list (pystr * (redis_value * Z))) (f : nat -> bool) (n : nat) :
  (forall k, f k = false) ->
  expiry_accepted now seconds = false ->
  exists e n',
    redis_setex now key seconds value {| entries := ents; faults := f; issued := n |}
    = (Raise e, {| entries := ents; faults := f; issued := n' |}).
Proof.
  intros Hf Hacc. unfold redis_setex, redis_command, take_fault.
  cbn [faults issued entries]. rewrite Hf, Hacc.
  destruct (encodable key && sendable value); eauto.
Qed.

(** Symbolic execution on a server that rejects the expiry. *)
Ltac exec_rejected Hf Hacc :=
  cbv beta iota zeta delta
    [bind get ret lift try_ modify redis redis_exists redis_get
     redis_command take_fault _is_hash_duplicate _store_content_hash
     _get_stored_fingerprints _check_semantic_similarity _store_fingerprint
     _is_url_duplicate _store_processed_url _record_processed_item
     _clean_expired_entries
     url_stage semantic_stage set_redis set_content_hashes set_content_fingerprints
     set_processed_items config redis_client content_hashes content_fingerprints
     processed_items entries faults issued];
  run_down;
  rewrite ?Hf;
  rewrite ?redis_keys_few by (try apply Hf; few_keys);
  try match goal with
      | |- context [redis_setex ?now ?key ?seconds ?value
                      {| entries := ?ents; faults := ?f; issued := ?n |}] =>
          let e := fresh "e" in
          let n' := fresh "n" in
          let Heq := fresh "Heq" in
          destruct (@setex_rejected now key seconds value ents f n Hf Hacc)
            as (e & n' & Heq);
          rewrite Heq; clear Heq
      end.

Section Expiry.

Context {E : PyEnv}.

(** On a healthy server, what a submission stored is dead once the window
    has passed: the same submission is unique again. *)
Lemma redis_resubmission_after_window (cfg : Config) (f : nat -> bool) (n : nat)
    (now1 now2 : Z) (content title url h url_hash : pystr) :
  (forall k, f k = false) ->
  create_content_hash content = Ok h ->
  url_md5 url = Ok url_hash ->
  expiry_accepted now1 (time_window_hours cfg * 3600) = true ->
  encodable h = true ->
  encodable url_hash = true ->
  encodable (content_id_of content title url) = true ->
  (now1 + time_window_hours cfg * 3600 <= now2)%Z ->
  let eng := {| config := cfg;
                redis_client := Some {| entries := []; faults := f; issued := n |};
                content_hashes := []; content_fingerprints := [];
                processed_items := [] |} in
  fst (is_duplicate now1 content title url eng) = (false, py "unique", 0)
  /\ fst (is_duplicate now2 content title url
            (snd (is_duplicate now1 content title url eng)))
     = (false, py "unique", 0).
Proof.
  intros Hf Hh Hmd5 Hacc He Heu Hec Hw eng. subst eng.
  destruct (@redis_first_call E cfg f n now1 content title url h url_hash
              Hf Hh Hmd5 Hacc He Heu Hec) as (n' & ->).
  cbn [fst snd]. split; [reflexivity|].
  assert (Hdead : (now2 <? now1 + time_window_hours cfg * 3600)%Z = false)
    by (apply Z.ltb_ge; lia).
  unfold is_duplicate, is_duplicate_body, first_records.
  unfold content_id_of in *.
  set (cid := title ++ _) in *.
  destruct (content_hash_enabled cfg) eqn:Hen, (semantic_analysis cfg) eqn:Hsem;
    destruct url as [|c url];
    repeat (exec_first Hf; unfold live; cbn [snd];
            rewrite ?Hdead, ?Hen, ?Hsem, ?Hh, ?Hmd5, ?str_eqb_refl, ?andb_false_r);
    reflexivity.
Qed.

(** With a window that is no expiry for the server (0 hours, say) every
    [SETEX] is refused and the submission leaves the server empty. *)
Lemma redis_rejected_window_stores_nothing (cfg : Config) (f : nat -> bool) (n : nat)
    (now : Z) (content title url h : pystr) :
  (forall k, f k = false) ->
  create_content_hash content = Ok h ->
  expiry_accepted now (time_window_hours cfg * 3600) = false ->
  exists n',
    is_duplicate now content title url
      {| config := cfg;
         redis_client := Some {| entries := []; faults := f; issued := n |};
         content_hashes := []; content_fingerprints := []; processed_items := [] |}
    = ((false, py "unique", 0),
       {| config := cfg;
          redis_client := Some {| entries := []; faults := f; issued := n' |};
          content_hashes := []; content_fingerprints := []; processed_items := [] |}).
Proof.
  intros Hf Hh Hacc.
  unfold is_duplicate, is_duplicate_body.
  set (cid := title ++ _).
  destruct (content_hash_enabled cfg) eqn:Hen, (semantic_analysis cfg) eqn:Hsem;
    destruct url as [|c url];
    try (destruct (url_md5 (c :: url)) as [uh|e] eqn:Hu);
    repeat (exec_rejected Hf Hacc; rewrite ?Hen, ?Hsem, ?Hh, ?Hu);
    eexists; reflexivity.
Qed.

(** With a window of 0 hours, or a negative one, a submission to a healthy
    server is unique each time. *)
Lemma redis_resubmission_without_window (cfg : Config) (f : nat -> bool) (n : nat)
    (now1 now2 : Z) (content title url h : pystr) :
  (forall k, f k = false) ->
  create_content_hash content = Ok h ->
  (time_window_hours cfg <= 0)%Z ->
  let eng := {| config := cfg;
                redis_client := Some {| entries := []; faults := f; issued := n |};
                content_hashes := []; content_fingerprints := [];
                processed_items := [] |} in
  fst (is_duplicate now1 content title url eng) = (false, py "unique", 0)
  /\ fst (is_duplicate now2 content title url
            (snd (is_duplicate now1 content title url eng)))
     = (false, py "unique", 0).
Proof.
  intros Hf Hh Hw eng. subst eng.
  assert (Hacc : expiry_accepted now1 (time_window_hours cfg * 3600) = false).
  { unfold expiry_accepted.
    replace (0 <? time_window_hours cfg * 3600)%Z with false; [reflexivity|].
    symmetry. apply Z.ltb_ge. lia. }
  destruct (@redis_rejected_window_stores_nothing cfg f n now1 content title url h
              Hf Hh Hacc) as (n' & ->).
  cbn [fst snd]. split; [reflexivity|].
  now apply redis_first_unique with h.
Qed.

(** In memory, when the window is a [timedelta], the sweep keeps exactly
    the URL entries that are not older than the window. *)
Lemma sweep_keeps_recent_urls (eng : Engine) (now : Z) (key : pystr) (seen : Z) :
  redis_client eng = None ->
  window_fits eng ->
  In (key, seen) (processed_items (snd (_clean_expired_entries now eng)))
  <-> In (key, seen) (processed_items eng)
      /\ (now - seen <= time_window_hours (config eng) * 3600)%Z.
Proof.
  intros Hr (seconds & Hfits). destruct eng as [cfg rc hs fps pis].
  cbn in Hr, Hfits. subst rc.
  rewrite clean_local, (@unexpired_fits now _ _ pis Hfits).
  apply timedelta_hours_seconds in Hfits. subst seconds.
  cbn [snd processed_items config].
  rewrite filter_In. cbn [snd]. rewrite negb_true_iff, Z.ltb_ge. reflexivity.
Qed.

(** The sweep trims the fingerprint table by size only. *)
Lemma sweep_trims_fingerprints_by_size (eng : Engine) (now : Z) :
  redis_client eng = None ->
  window_fits eng ->
  content_fingerprints (snd (_clean_expired_entries now eng))
  = if (10000 <? len (content_fingerprints eng))%Z
    then skipn (Z.to_nat 5000) (content_fingerprints eng)
    else content_fingerprints eng.
Proof.
  intros Hr (seconds & Hfits). destruct eng as [cfg rc hs fps pis].
  cbn in Hr, Hfits. subst rc.
  now rewrite clean_local, (@unexpired_fits now _ _ pis Hfits).
Qed.

(** When the window is too long for a [timedelta] and a URL is held, the
    sweep gives up and leaves the tables as they are. *)
Lemma sweep_gives_up_on_overflow (eng : Engine) (now : Z) (e : exn) :
  redis_client eng = None ->
  timedelta_hours (time_window_hours (config eng)) = Raise e ->
  processed_items eng <> [] ->
  _clean_expired_entries now eng = (Ok tt, eng).
Proof.
  intros Hr Hraise Hheld. destruct eng as [cfg rc hs fps pis].
  cbn in Hr, Hraise, Hheld. subst rc.
  rewrite clean_local. destruct pis as [|item pis]; [contradiction|].
  now rewrite (@unexpired_overflow now _ item pis e Hraise).
Qed.

(** The sweep never touches the set of hashes. *)
Lemma sweep_leaves_hashes (eng : Engine) (now : Z) :
  content_hashes (snd (_clean_expired_entries now eng)) = content_hashes eng.
Proof. apply sweep_keeps. Qed.

End Expiry.

(** On the in-memory backend the text "breaking news", once seen, stays an
    exact duplicate for every window [hours] and at every clock reading
    [now]: the sweep never touches the set of hashes. *)
Lemma local_hash_outlives_window (hours now : Z) :
  fst (@is_duplicate simple_env now (py "breaking news") [] [] (seen_breaking_news hours))
  = (true, py "exact_duplicate", 1).
Proof.
  assert (Hh : @create_content_hash simple_env (py "breaking news") = Ok (py "breaking news"))
    by (vm_compute; reflexivity).
  destruct (@local_first_call simple_env (windowed_config hours) 0 (py "breaking news")
              [] [] (py "breaking news") eq_refl Hh) as (_ & Hcfg & Hr & Hhs).
  apply (@local_hash_hit simple_env _ now (py "breaking news") [] [] (py "breaking news")).
  - unfold seen_breaking_news, new_engine. now rewrite Hcfg.
  - exact Hr.
  - exact Hh.
  - unfold seen_breaking_news, new_engine. rewrite Hhs. vm_compute. reflexivity.
Qed.

(** C5 (expiry), evaluated on the source: on the in-memory backend, with
    the default window of 24 hours, a text seen at clock reading 0 is
    still an exact duplicate 25 hours later, and with a window of 0 hours
    it is one a second later.  The hash stored by [_store_content_hash]
    does not expire there. *)
Theorem local_resubmission_still_duplicate :
  fst (@is_duplicate simple_env 0 (py "breaking news") [] []
         (new_engine (windowed_config 24) None))
  = (false, py "unique", 0)
  /\ fst (@is_duplicate simple_env 90000 (py "breaking news") [] [] (seen_breaking_news 24))
     = (true, py "exact_duplicate", 1)
  /\ fst (@is_duplicate simple_env 1 (py "breaking news") [] [] (seen_breaking_news 0))
     = (true, py "exact_duplicate", 1).
Proof.
  split; [vm_compute; reflexivity|].
  split; apply local_hash_outlives_window.
Qed.

(** ** The threshold in doubles *)

(** The weights 0.4, 0.3 and 0.1 of three components equal to 1 add up,
    in doubles, to 0.7999999999999999, below the default threshold. *)
Lemma weights_without_topics_round_down :
  fadd (fadd (fadd (fmul 1 (float 0.4)) (fmul 1 (float 0.3))) (fmul 0 (float 0.2)))
    (fmul 1 (float 0.1))
  = 7205759403792793 # 9007199254740992
  /\ 7205759403792793 # 9007199254740992 < similarity_threshold default_config.
Proof. split; vm_compute; reflexivity. Qed.

(** ** The documented behaviour at work *)

(** C1 at work: an engine backed by a healthy server, the same article
    submitted at clock readings 0 and 60. *)
Lemma same_content_twice_witness :
  let eng := new_engine default_config (Some healthy_server) in
  fst (@is_duplicate simple_env 0 (py "Hello  World") (py "Hello") (py "http://example.org/a")
         eng)
  = (false, py "unique", 0)
  /\ fst (@is_duplicate simple_env 60 (py "Hello  World") (py "Hello")
            (py "http://example.org/a")
            (snd (@is_duplicate simple_env 0 (py "Hello  World") (py "Hello")
                    (py "http://example.org/a") eng)))
     = (true, py "exact_duplicate", 1).
Proof.
  apply (@same_content_twice simple_env (new_engine default_config (Some healthy_server))
           0 60 (py "Hello  World") (py "Hello") (py "http://example.org/a")
           (py "hello world")).
  - reflexivity.
  - repeat split.
  - intros n. reflexivity.
  - vm_compute. reflexivity.
  - unfold within_window. cbn. lia.
  - split; vm_compute; reflexivity.
Defined.

(** C2 at work: a lone surrogate cannot be encoded, the hash computation
    raises [UnicodeEncodeError], and the verdict is the fallback. *)
Lemma fallback_exactly_when_hashing_fails_witness :
  fst (@is_duplicate simple_env 0 lone_surrogate [] [] (new_engine default_config None))
  = (false, py "error_fallback", 0).
Proof.
  apply (proj2 (@fallback_exactly_when_hashing_fails simple_env 0 lone_surrogate [] []
                  (new_engine default_config None))).
  split; [reflexivity|].
  exists UnicodeEncodeError. vm_compute. reflexivity.
Defined.

(** C2 as stated fails when the error occurs inside a helper: the server
    of [dead_engine] fails every command, so the [EXISTS] of the hash
    check raises [ConnectionError]; [_is_hash_duplicate] catches it and
    answers that the hash is new, the later stages recover in the same
    way, and the verdict is "unique", not the fallback. *)
Lemma helper_error_is_not_a_fallback :
  fst (redis_exists 0 (py "hash:robot") dead_server) = Raise ConnectionError
  /\ @create_content_hash simple_env (py "robot") = Ok (py "robot")
  /\ fst (@is_duplicate simple_env 0 (py "robot") [] [] dead_engine)
     = (false, py "unique", 0)
  /\ fst (@is_duplicate simple_env 0 (py "robot") [] [] dead_engine)
     <> (false, py "error_fallback", 0).
Proof.
  assert (H : fst (@is_duplicate simple_env 0 (py "robot") [] [] dead_engine)
              = (false, py "unique", 0)) by (vm_compute; reflexivity).
  repeat split; try (vm_compute; reflexivity); try exact H.
  rewrite H. distinct_reasons.
Qed.
